(** * Illyria-scraper: the request/retry layer and the response extractor

  A shallow embedding of [src/utils/request.ts] (both revisions of the
  wrapper that the source keeps), of the extractor module that exports
  [list] and [undefinedFields], and of [src/text.ts].  JavaScript values
  are an inductive type, the HTTP transport is an oracle that answers
  the n-th call, and a promise chain is a computation over the world of
  issued calls and console lines that ends settled: resolved with a
  value or rejected with an error. *)

From Stdlib Require Import List String Ascii ZArith Bool Arith Lia.
From Stdlib Require Import DecimalString.
From Equations Require Import Equations.
Import ListNotations.

Local Open Scope string_scope.
Local Open Scope Z_scope.

(** ** JavaScript values *)

Module JS.

(** A JavaScript number.  The payloads of this program carry small
    integer ranks and HTTP status codes, so finite numbers are integers;
    [NaN] is what arithmetic on a missing slot produces. *)
Inductive number : Type :=
| Num (z : Z)
| NaN.

(** A JavaScript value.  A string is a sequence of code units below
    256 (one [ascii] each), so that [length] and indexing agree with
    JavaScript's; an object is the list of its own properties in the
    order [Object.entries] gives them. *)
#[local] Unset Elimination Schemes.
Inductive value : Type :=
| VUndefined
| VNull
| VBool (b : bool)
| VNumber (n : number)
| VString (s : string)
| VArray (items : list value)
| VObject (fields : list (string * value)).
#[local] Set Elimination Schemes.

(** Synchronous completion of a call: it returns or it throws. *)
Inductive completion (E A : Type) : Type :=
| Normal (a : A)
| Throw (e : E).
Arguments Normal {E A} a.
Arguments Throw {E A} e.

Definition int (z : Z) : value := VNumber (Num z).

(** [!!v] *)
Definition truthy (v : value) : bool :=
  match v with
  | VUndefined | VNull => false
  | VBool b => b
  | VNumber (Num z) => negb (z =? 0)
  | VNumber NaN => false
  | VString s => negb (s =? "")%string
  | VArray _ | VObject _ => true
  end.

(** [v === undefined || v === null] *)
Definition nullish (v : value) : bool :=
  match v with
  | VUndefined | VNull => true
  | _ => false
  end.

(** [a ?? b] *)
Definition coalesce (a b : value) : value :=
  if nullish a then b else a.

(** [typeof v === "object"] *)
Definition typeof_object (v : value) : bool :=
  match v with
  | VNull | VArray _ | VObject _ => true
  | _ => false
  end.

(** [Array.isArray(v)] *)
Definition Array_isArray (v : value) : bool :=
  match v with
  | VArray _ => true
  | _ => false
  end.

(** Writing a property: an existing key keeps its place and takes the
    new value, a new key goes last. *)
Fixpoint setField (key : string) (v : value) (fields : list (string * value))
  : list (string * value) :=
  match fields with
  | [] => [(key, v)]
  | (k, old) :: rest =>
      if (key =? k)%string then (key, v) :: rest
      else (k, old) :: setField key v rest
  end.

(** [Object.fromEntries(entries)] *)
Definition Object_fromEntries (entries : list (string * value))
  : list (string * value) :=
  fold_left (fun o e => setField (fst e) (snd e) o) entries [].

(** [obj[key]] on an object's own fields. *)
Fixpoint getField (key : string) (fields : list (string * value)) : value :=
  match fields with
  | [] => VUndefined
  | (k, v) :: rest => if (key =? k)%string then v else getField key rest
  end.

(** The elements of an array and the fields of an object. *)
Definition items_of (v : value) : list value :=
  match v with VArray items => items | _ => [] end.

Definition fields_of (v : value) : list (string * value) :=
  match v with VObject fields => fields | _ => [] end.

(** [key in obj] for an object's own fields. *)
Definition hasField (key : string) (fields : list (string * value)) : bool :=
  existsb (fun e => (fst e =? key)%string) fields.

(** The value [v] sits inside [w]: it is an element of an array or the
    value of a field, at some nesting depth below [w]. *)
Inductive Inside (v : value) : value -> Prop :=
| inside_item items : In v items -> Inside v (VArray items)
| inside_field key fields : In (key, v) fields -> Inside v (VObject fields)
| inside_item_deep w items : In w items -> Inside v w -> Inside v (VArray items)
| inside_field_deep key w fields :
    In (key, w) fields -> Inside v w -> Inside v (VObject fields).

(** Induction over values that reaches through arrays and objects. *)
Section value_induction.
Variable P : value -> Prop.
Hypothesis Hundefined : P VUndefined.
Hypothesis Hnull : P VNull.
Hypothesis Hbool : forall b, P (VBool b).
Hypothesis Hnumber : forall n, P (VNumber n).
Hypothesis Hstring : forall s, P (VString s).
Hypothesis Harray : forall items, Forall P items -> P (VArray items).
Hypothesis Hobject :
  forall fields, Forall (fun e => P (snd e)) fields -> P (VObject fields).

Fixpoint value_nested_ind (v : value) : P v :=
  match v with
  | VUndefined => Hundefined
  | VNull => Hnull
  | VBool b => Hbool b
  | VNumber n => Hnumber n
  | VString s => Hstring s
  | VArray items =>
      Harray items
        ((fix all (l : list value) : Forall P l :=
            match l with
            | [] => Forall_nil P
            | x :: r => Forall_cons x (value_nested_ind x) (all r)
            end) items)
  | VObject fields =>
      Hobject fields
        ((fix all (l : list (string * value))
            : Forall (fun e => P (snd e)) l :=
            match l with
            | [] => Forall_nil _
            | e :: r =>
                Forall_cons e (value_nested_ind (snd e)) (all r)
            end) fields)
  end.
End value_induction.

(** *** Property access, iteration and coercion *)

(** The decimal name of an index, as a property key. *)
Definition index_key (i : nat) : string :=
  NilEmpty.string_of_uint (Nat.to_uint i).

Definition decimal (z : Z) : string :=
  NilEmpty.string_of_int (Z.to_int z).

(** A thrown value.  A plain [Error], a [TypeError] or a [URIError] has
    neither a [response] nor a [request] property. *)
Inductive thrown (R : Type) : Type :=
| TypeError (message : string)
| URIError (message : string)
| Error (message : string)
| AxiosError (message : string) (request : bool) (response : option R).
Arguments TypeError {R} message.
Arguments URIError {R} message.
Arguments Error {R} message.
Arguments AxiosError {R} message request response.

Definition message_of {R} (e : thrown R) : string :=
  match e with
  | TypeError m | URIError m | Error m | AxiosError m _ _ => m
  end.

(** [v[i]] on a value that is not nullish. *)
Definition at_index (v : value) (i : nat) : value :=
  match v with
  | VArray items => nth i items VUndefined
  | VString s =>
      match String.get i s with
      | Some c => VString (String c "")
      | None => VUndefined
      end
  | VObject fields => getField (index_key i) fields
  | _ => VUndefined
  end.

(** [v?.[i]] *)
Definition opt_index (v : value) (i : nat) : value :=
  if nullish v then VUndefined else at_index v i.

(** What an array pattern [[a, b, ...]] binds: the values the iterator
    of [v] yields.  Only arrays and strings are iterable. *)
Definition iterate {R} (v : value) : completion (thrown R) (list value) :=
  match v with
  | VArray items => Normal items
  | VString s =>
      Normal (map (fun c => VString (String c "")) (list_ascii_of_string s))
  | _ => Throw (TypeError "value is not iterable")
  end.

Definition bind {E A B} (c : completion E A) (k : A -> completion E B)
  : completion E B :=
  match c with
  | Normal a => k a
  | Throw e => Throw e
  end.

Notation "x <- c ;; k" := (bind c (fun x => k))
  (at level 61, c at next level, right associativity).

(** [items.map(f)], the callbacks run in order and the first throw
    ends the loop. *)
Fixpoint map_throwing {E A B} (f : A -> completion E B) (items : list A)
  : completion E (list B) :=
  match items with
  | [] => Normal []
  | x :: rest =>
      y <- f x ;;
      ys <- map_throwing f rest ;;
      Normal (y :: ys)
  end.

(** [v?.map(f)]: undefined on a nullish [v], the mapped array on an
    array, and a TypeError on anything else, which has no callable
    [map]. *)
Definition opt_map {R} (v : value) (f : value -> completion (thrown R) value)
  : completion (thrown R) value :=
  match v with
  | VUndefined | VNull => Normal VUndefined
  | VArray items => ys <- map_throwing f items ;; Normal (VArray ys)
  | _ => Throw (TypeError "map is not a function")
  end.

(** [Object.entries(s)] of a string: its characters under their
    indices, from index [i] on. *)
Fixpoint string_entries (i : nat) (s : string) : list (string * value) :=
  match s with
  | EmptyString => []
  | String c rest => (index_key i, VString (String c "")) :: string_entries (S i) rest
  end.

Section Coercions.

(** [ToNumber] of a string, an array or an object reads the number off
    its text ([StringToNumber], after [ToPrimitive]); that reader is a
    parameter of the model. *)
Variable numberOfText : value -> number.

Definition ToNumber (v : value) : number :=
  match v with
  | VUndefined => NaN
  | VNull => Num 0
  | VBool b => Num (if b then 1 else 0)
  | VNumber n => n
  | VString _ | VArray _ | VObject _ => numberOfText v
  end.

(** [a - b] *)
Definition minus (a b : value) : value :=
  match ToNumber a, ToNumber b with
  | Num x, Num y => VNumber (Num (x - y))
  | _, _ => VNumber NaN
  end.

(** [a <= 0] *)
Definition le_zero (a : value) : bool :=
  match ToNumber a with
  | Num x => x <=? 0
  | NaN => false
  end.

End Coercions.

(** *** encodeURIComponent *)

Definition in_range (lo hi c : ascii) : bool :=
  (N_of_ascii lo <=? N_of_ascii c)%N && (N_of_ascii c <=? N_of_ascii hi)%N.

(** The characters [encodeURIComponent] leaves alone: letters, digits
    and [- _ . ! ~ * ' ( )]. *)
Definition unreserved (c : ascii) : bool :=
  in_range "a" "z" c || in_range "A" "Z" c || in_range "0" "9" c
  || existsb (Ascii.eqb c) (list_ascii_of_string "-_.!~*'()").

Definition hex_digit (n : N) : ascii :=
  nth (N.to_nat n) (list_ascii_of_string "0123456789ABCDEF") "0"%char.

(** [%XX] for one octet. *)
Definition percent (octet : N) : string :=
  String "%" (String (hex_digit (octet / 16)) (String (hex_digit (octet mod 16)) "")).

(** One code unit: kept, or the percent-escaped octets of its UTF-8
    form (one octet below 128, two from 128 to 255). *)
Definition encode_unit (c : ascii) : string :=
  if unreserved c then String c ""
  else
    let n := N_of_ascii c in
    if (n <? 128)%N then percent n
    else percent (192 + n / 64) ++ percent (128 + n mod 64).

(** [encodeURIComponent] on the strings of this model, whose code units
    are all below 256: there the built-in cannot throw.  On a string
    with a surrogate without its partner it throws a URIError;
    [Unicode.encodeURIComponent] below is the built-in on every
    string. *)
Fixpoint encodeURIComponent (s : string) : string :=
  match s with
  | EmptyString => ""
  | String c rest => encode_unit c ++ encodeURIComponent rest
  end.

(** The string has a character that [encodeURIComponent] escapes. *)
Fixpoint escapes (s : string) : bool :=
  match s with
  | EmptyString => false
  | String c rest => negb (unreserved c) || escapes rest
  end.

(** [s.includes(t)] *)
Fixpoint includes (t s : string) : bool :=
  String.prefix t s
  || match s with
     | EmptyString => false
     | String _ rest => includes t rest
     end.

End JS.
Import JS.


(** ** The HTTP client and the console *)

Module Axios.

Record AxiosResponse : Type := {
  status : Z;
  statusText : string;
  data : value
}.

Definition exn : Type := thrown AxiosResponse.

(** [error.response] and [error.request] of a caught value. *)
Definition response_of (e : exn) : option AxiosResponse :=
  match e with
  | AxiosError _ _ r => r
  | _ => None
  end.

Definition request_of (e : exn) : bool :=
  match e with
  | AxiosError _ sent _ => sent
  | _ => false
  end.

(** A settled promise. *)
Inductive settled (A : Type) : Type :=
| Resolved (a : A)
| Rejected (e : exn).
Arguments Resolved {A} a.
Arguments Rejected {A} e.

Inductive Method : Type := GET | POST.

Record Config : Type := {
  headers : list (string * string);
  timeout : Z;
  responseType : option string;
  validateStatus : option (Z -> bool)
}.

Record HttpRequest : Type := {
  method : Method;
  url : string;
  body : option string;
  config : Config
}.

(** What the network gives back for one call: a response, or none
    ([sent] tells whether the request left at all). *)
Inductive Reply : Type :=
| Answered (response : AxiosResponse)
| Unanswered (sent : bool) (message : string).

Inductive Level : Type := LError | LWarn | LLog.

Record ConsoleLine : Type := {
  level : Level;
  text : string;
  args : list value
}.

(** The world one logical call runs in: the transport answers the n-th
    call (a mocked transport is one such function), [agents] are the
    strings [new UserAgent().toString()] draws, [issued] the calls made
    so far, oldest first, and [console] the lines written so far. *)
Record World : Type := {
  transport : nat -> HttpRequest -> Reply;
  agents : nat -> string;
  issued : list HttpRequest;
  console : list ConsoleLine
}.

Definition calls (w : World) : nat := List.length (issued w).

Definition write (l : Level) (t : string) (a : list value) (w : World) : World :=
  {| transport := transport w; agents := agents w; issued := issued w;
     console := console w ++ [{| level := l; text := t; args := a |}] |}.

Definition console_error := write LError.
Definition console_warn := write LWarn.
Definition console_log := write LLog.

Definition count_level (l : Level) (w : World) : nat :=
  List.length
    (filter (fun line => match level line, l with
                         | LError, LError | LWarn, LWarn | LLog, LLog => true
                         | _, _ => false
                         end) (console w)).

(** [w'] is [w] after [k] more HTTP calls: same transport, same agents,
    [k] more requests issued. *)
Definition after_calls (k : nat) (w w' : World) : Prop :=
  transport w' = transport w /\ agents w' = agents w
  /\ calls w' = (calls w + k)%nat.

(** A transport that answers every call with a 5xx status. *)
Definition always_5xx (w : World) : Prop :=
  forall n req, exists r,
    transport w n req = Answered r /\ 500 <= status r <= 599.


(** The transport answers call number [n] with the 2xx response [r]. *)
Definition answers (w : World) (n : nat) (r : AxiosResponse) : Prop :=
  (forall req, transport w n req = Answered r) /\ 200 <= status r < 300.

(** The classification of failures in the spec's words: retryable is a
    connection-level failure (no response), a 5xx status, or the
    rate-limit status 429. *)
Definition retryable_per_spec (error : thrown AxiosResponse) : bool :=
  match error with
  | AxiosError _ _ (Some r) =>
      ((500 <=? status r) && (status r <=? 599)) || (status r =? 429)
  | _ => true
  end.

(** axios resolves when [validateStatus] accepts the status (by default
    the 2xx range) and rejects with the response attached otherwise. *)
Definition accepts (c : Config) (s : Z) : bool :=
  match validateStatus c with
  | Some ok => ok s
  | None => (200 <=? s) && (s <? 300)
  end.

Definition send (req : HttpRequest) (w : World) : settled AxiosResponse * World :=
  let w' := {| transport := transport w; agents := agents w;
               issued := issued w ++ [req]; console := console w |} in
  match transport w (calls w) req with
  | Answered r =>
      if accepts (config req) (status r) then (Resolved r, w')
      else (Rejected
              (AxiosError ("Request failed with status code " ++ decimal (status r))
                          true (Some r)), w')
  | Unanswered sent m => (Rejected (AxiosError m sent None), w')
  end.

Definition axios_get (u : string) (c : Config) : World -> settled AxiosResponse * World :=
  send {| method := GET; url := u; body := None; config := c |}.

Definition axios_post (u : string) (b : option string) (c : Config)
  : World -> settled AxiosResponse * World :=
  send {| method := POST; url := u; body := b; config := c |}.

(** [new UserAgent().toString()] *)
Definition UserAgent (w : World) : string := agents w (calls w).

(** The [Endpoint] constants. *)
Module Endpoint.
Definition INFO : string := "info".
Definition TEXT : string := "text".
Definition AUDIO : string := "audio".
(** The selector is one of the three. *)
Definition known (endpoint : string) : bool :=
  (endpoint =? INFO)%string || (endpoint =? TEXT)%string
  || (endpoint =? AUDIO)%string.
End Endpoint.

(** [Params]: one shape per endpoint. *)
Inductive Params : Type :=
| InfoParams (body : string)
| TextParams (source target query : string)
| AudioParams (lang text : string) (textLength speed : Z).

(** Destructuring [params]: a property the object lacks is undefined. *)
Definition p_body (p : Params) : option string :=
  match p with InfoParams b => Some b | _ => None end.
Definition p_source (p : Params) : option string :=
  match p with TextParams s _ _ => Some s | _ => None end.
Definition p_target (p : Params) : option string :=
  match p with TextParams _ t _ => Some t | _ => None end.
Definition p_query (p : Params) : option string :=
  match p with TextParams _ _ q => Some q | _ => None end.
Definition p_lang (p : Params) : option string :=
  match p with AudioParams l _ _ _ => Some l | _ => None end.
Definition p_text (p : Params) : option string :=
  match p with AudioParams _ t _ _ => Some t | _ => None end.
Definition p_textLength (p : Params) : option Z :=
  match p with AudioParams _ _ n _ => Some n | _ => None end.
Definition p_speed (p : Params) : option Z :=
  match p with AudioParams _ _ _ s => Some s | _ => None end.

(** [${x}] in a template literal, and [encodeURIComponent(x)], for a
    possibly undefined [x]. *)
Definition show (x : option string) : string :=
  match x with Some s => s | None => "undefined" end.
Definition show_number (x : option Z) : string :=
  match x with Some z => decimal z | None => "undefined" end.
Definition encodeURIComponent_opt (x : option string) : string :=
  match x with Some s => encodeURIComponent s | None => "undefined" end.

Definition Callback : Type := AxiosResponse -> completion exn value.

(** What [request(endpoint, retry).with(params)] returns: the promise of
    the call already issued, and [doing]. *)
Record Handle : Type := {
  promise : settled AxiosResponse;
  h_doing : Callback -> World -> settled value * World
}.

End Axios.
Import Axios.

(** ** The extractor: the extra translations and the normalizer *)

Module Extract.

(** [isObject]: [typeof value === "object"]. *)
Definition isObject (v : value) : bool := typeof_object v.

(** [undefinedFields].  The array branch is
    [obj.filter(item => !!item).map(item => isObject(item) ? undefinedFields(item) : item)],
    the object branch the same over [Object.entries(obj)] followed by
    [Object.fromEntries]; filter and map are fused into one pass here
    so that the recursion is structural, and [undefinedFields_array] and
    [undefinedFields_object] give back the source's shape.  The
    signature admits arrays and objects; what JavaScript does on the
    other values is kept: [Object.entries] of a number or a boolean is
    empty, that of a string lists its characters, and that of null or
    undefined throws. *)
Fixpoint undefinedFields (obj : value) : completion exn value :=
  match obj with
  | VArray items =>
      kept <-
        (fix each (l : list value) : completion exn (list value) :=
           match l with
           | [] => Normal []
           | item :: rest =>
               if truthy item then
                 first <- (if isObject item then undefinedFields item
                           else Normal item) ;;
                 others <- each rest ;;
                 Normal (first :: others)
               else each rest
           end) items ;;
      Normal (VArray kept)
  | VObject fields =>
      entries <-
        (fix each (l : list (string * value))
           : completion exn (list (string * value)) :=
           match l with
           | [] => Normal []
           | (key, v) :: rest =>
               if truthy v then
                 first <- (if isObject v then undefinedFields v else Normal v) ;;
                 others <- each rest ;;
                 Normal ((key, first) :: others)
               else each rest
           end) fields ;;
      Normal (VObject (Object_fromEntries entries))
  | VString s => Normal (VObject (Object_fromEntries (string_entries 0 s)))
  | VBool _ | VNumber _ => Normal (VObject [])
  | VUndefined | VNull =>
      Throw (TypeError "Cannot convert undefined or null to object")
  end.

(** The [map] callback of the array branch, and that of the object
    branch, [([key, value]) => [key, isObject(value) ? undefinedFields(value) : value]]. *)
Definition clean (item : value) : completion exn value :=
  if isObject item then undefinedFields item else Normal item.

Definition clean_entry (entry : string * value)
  : completion exn (string * value) :=
  v <- clean (snd entry) ;; Normal (fst entry, v).

Section WithNumberReader.

Variable numberOfText : value -> number.

(** The inner callback of [list.translations]:
    [([word, article, meanings, frequency]) =>
       ({ word, article: article ?? undefined, meanings, frequency: 4 - frequency })]. *)
Definition translation_entry (entry : value) : completion exn value :=
  parts <- iterate entry ;;
  let word := nth 0 parts VUndefined in
  let article := nth 1 parts VUndefined in
  let meanings := nth 2 parts VUndefined in
  let frequency := nth 3 parts VUndefined in
  Normal (VObject [("word", word);
                   ("article", coalesce article VUndefined);
                   ("meanings", meanings);
                   ("frequency", minus numberOfText (int 4) frequency)]).

(** The outer callback:
    [([type, transList]) => ({ type, list: transList?.map(...) ?? [] })]. *)
Definition translation_group (group : value) : completion exn value :=
  parts <- iterate group ;;
  let type := nth 0 parts VUndefined in
  let transList := nth 1 parts VUndefined in
  list <- opt_map transList translation_entry ;;
  Normal (VObject [("type", type); ("list", coalesce list (VArray []))]).

(** [list.translations]: [({ 3: extra }) => extra?.[5]?.[0]?.map(...) ?? []].
    Reading property 3 of a nullish [data] throws. *)
Definition translations (data : value) : completion exn value :=
  if nullish data then Throw (TypeError "cannot destructure a nullish value")
  else
    let extra := at_index data 3 in
    groups <- opt_map (opt_index (opt_index extra 5) 0) translation_group ;;
    Normal (coalesce groups (VArray [])).

End WithNumberReader.

End Extract.

(** ** request.ts: the wrapper that resolves to null on failure

    The revision of [request.ts] with the documented [doing]: the
    [catch] handler logs and returns null.  It is the one the
    repository's tests are written against. *)

Module Swallow.

(** [isEmpty]: [!item || (Array.isArray(item) && item.length === 0)]. *)
Definition isEmpty (item : value) : bool :=
  negb (truthy item)
  || (Array_isArray item
      && match item with
         | VArray items => (List.length items =? 0)%nat
         | _ => false
         end).

Definition baseConfig (userAgent : string) : Config :=
  {| headers := [("User-Agent", userAgent)];
     timeout := 30000;
     responseType := None;
     validateStatus := None |}.

(** [retrieve]: issues the call of the endpoint, or throws on a selector
    that is none of the three. *)
Definition retrieve (endpoint : string) (params : Params) (w : World)
  : completion exn (settled AxiosResponse) * World :=
  let userAgent := UserAgent w in
  let base := baseConfig userAgent in
  if (endpoint =? Endpoint.INFO)%string then
    let (p, w') :=
      axios_post
        "https://translate.google.com/_/TranslateWebserverUi/data/batchexecute?rpcids=MkEWBc&rt=c"
        (p_body params)
        {| headers := headers base
                      ++ [("Content-Type", "application/x-www-form-urlencoded")];
           timeout := timeout base;
           responseType := None;
           validateStatus := None |} w in
    (Normal p, w')
  else if (endpoint =? Endpoint.TEXT)%string then
    let (p, w') :=
      axios_get
        ("https://translate.google.com/m?sl=" ++ show (p_source params)
         ++ "&tl=" ++ show (p_target params)
         ++ "&q=" ++ encodeURIComponent_opt (p_query params))
        base w in
    (Normal p, w')
  else if (endpoint =? Endpoint.AUDIO)%string then
    let (p, w') :=
      axios_get
        ("https://translate.google.com/translate_tts?tl=" ++ show (p_lang params)
         ++ "&q=" ++ encodeURIComponent_opt (p_text params)
         ++ "&textlen=" ++ show_number (p_textLength params)
         ++ "&speed=" ++ show_number (p_speed params)
         ++ "&client=tw-ob")
        {| headers := headers base;
           timeout := 60000;
           responseType := Some "arraybuffer";
           validateStatus := None |} w in
    (Normal p, w')
  else (Throw (Error ("Invalid endpoint: " ++ endpoint)), w).

(** The [console.error] of the [catch] handler. *)
Definition report (endpoint : string) (error : exn) (w : World) : World :=
  match response_of error with
  | Some r =>
      console_error (endpoint ++ " failed:") [int (status r); data r] w
  | None =>
      if request_of error
      then console_error (endpoint ++ " network error:")
             [VString (message_of error)] w
      else console_error (endpoint ++ " error:") [VString (message_of error)] w
  end.

(** [!error.response || error.response.status >= 500] *)
Definition shouldRetry (error : exn) : bool :=
  match response_of error with
  | None => true
  | Some r => 500 <=? status r
  end.

(** The two warnings:
    [`Empty result for ${endpoint}, retrying (${retry + 1}/3)`] and
    [`Retrying ${endpoint} after error (${retry + 1}/3)`]. *)
Definition empty_warning (endpoint : string) (retry : nat) : string :=
  "Empty result for " ++ endpoint ++ ", retrying ("
  ++ index_key (retry + 1) ++ "/3)".

Definition retry_warning (endpoint : string) (retry : nat) : string :=
  "Retrying " ++ endpoint ++ " after error (" ++ index_key (retry + 1) ++ "/3)".

(** [doing], for the promise [retrieve] returned: the [then] handler
    runs the callback and re-issues the call on an empty result, the
    [catch] handler after it logs, re-issues on a failure worth
    retrying, and returns null otherwise.  [retry] counts the retries
    made so far; each re-issue is [request(endpoint, retry + 1)
    .with(params).doing(callback)]. *)
Equations? doing (endpoint : string) (params : Params) (callback : Callback)
  (retry : nat) (promise : settled AxiosResponse) (w : World)
  : settled value * World by wf (3 - retry)%nat lt :=
doing endpoint params callback retry promise w :=
  let after_then :=
    match promise with
    | Rejected error => (Rejected error, w)
    | Resolved response =>
        match callback response with
        | Throw error => (Rejected error, w)
        | Normal result =>
            match isEmpty result, lt_dec retry 3 with
            | true, left Hretry =>
                let w1 := console_warn (empty_warning endpoint retry) [] w in
                match retrieve endpoint params w1 with
                | (Throw error, w2) => (Rejected error, w2)
                | (Normal next, w2) =>
                    doing endpoint params callback (retry + 1) next w2
                end
            | _, _ => (Resolved (coalesce result VNull), w)
            end
        end
    end in
  match after_then with
  | (Resolved result, w') => (Resolved result, w')
  | (Rejected error, w') =>
      let w1 := report endpoint error w' in
      match shouldRetry error, lt_dec retry 3 with
      | true, left Hretry =>
          let w2 := console_warn (retry_warning endpoint retry) [] w1 in
          match retrieve endpoint params w2 with
          | (Throw thrown, w3) => (Rejected thrown, w3)
          | (Normal next, w3) =>
              doing endpoint params callback (retry + 1) next w3
          end
      | _, _ => (Resolved VNull, w1)
      end
  end.
Proof. all: clear - Hretry; destruct retry as [|[|[|?]]]; simpl; lia. Qed.

(** The re-issue inside both handlers,
    [request(endpoint, retry + 1).with(params).doing(callback)]; a throw
    of [with] inside a handler rejects the handler's promise. *)
Definition reissue (endpoint : string) (params : Params) (callback : Callback)
  (retry : nat) (w : World) : settled value * World :=
  match retrieve endpoint params w with
  | (Throw error, w') => (Rejected error, w')
  | (Normal next, w') => doing endpoint params callback (retry + 1) next w'
  end.

(** [request(endpoint, retry).with(params)]: the call is issued here,
    and a selector [retrieve] refuses makes it throw here. *)
Definition request (endpoint : string) (retry : nat) (params : Params) (w : World)
  : completion exn Handle * World :=
  match retrieve endpoint params w with
  | (Throw error, w') => (Throw error, w')
  | (Normal p, w') =>
      (Normal {| promise := p;
                 h_doing := fun callback => doing endpoint params callback retry p |},
       w')
  end.

End Swallow.

(** ** request.ts: the wrapper that rethrows

    The other revision of [request.ts] kept in the source file: the
    [catch] handler builds a descriptive error and throws it when it does
    not retry, and a second [then] retries on an empty result. *)

Module Rethrow.

Section WithNumberReader.

Variable numberOfText : value -> number.

(** [handleAxiosError]: logs the failure and returns the error to
    throw.  The response headers and the request config that the source
    also prints are not part of the model. *)
Definition handleAxiosError (error : exn) (endpoint : string) (retry : nat)
  (w : World) : exn * World :=
  let '(errorMessage, w1) :=
    match response_of error with
    | Some r =>
        let w1 :=
          console_error "Response error:"
            [VObject [("endpoint", VString endpoint);
                      ("status", int (status r));
                      ("statusText", VString (statusText r));
                      ("data", data r);
                      ("retry", int (Z.of_nat retry))]] w in
        let errorMessage :=
          if status r =? 429 then "Rate limit exceeded. Please try again later."
          else if status r =? 403 then "Access forbidden. Check your permissions."
          else if status r =? 404 then "Resource not found."
          else if 500 <=? status r then "Server error. Please try again."
          else "Server error (" ++ decimal (status r) ++ "): " ++ statusText r in
        (errorMessage, w1)
    | None =>
        if request_of error then
          ("No response received from server",
           console_error "Request error:"
             [VObject [("endpoint", VString endpoint);
                       ("retry", int (Z.of_nat retry))]] w)
        else
          ("Request setup error: " ++ message_of error,
           console_error "Setup error:"
             [VObject [("endpoint", VString endpoint);
                       ("message", VString (message_of error));
                       ("retry", int (Z.of_nat retry))]] w)
    end in
  (Error errorMessage, console_error "Request config:" [] w1).

(** [isRetryableError] *)
Definition isRetryableError (error : exn) : bool :=
  match response_of error with
  | None => true
  | Some r => (500 <=? status r) || (status r =? 429)
  end.

(** ["length" in item], on a value whose [typeof] is ["object"]. *)
Definition has_length (item : value) : bool :=
  match item with
  | VArray _ => true
  | VObject fields => hasField "length" fields
  | _ => false
  end.

(** [item.length] *)
Definition length_of (item : value) : value :=
  match item with
  | VArray items => int (Z.of_nat (List.length items))
  | VObject fields => getField "length" fields
  | _ => VUndefined
  end.

(** [isEmpty]:
    [!item || (typeof item === "object" && "length" in item && item.length <= 0)]. *)
Definition isEmpty (item : value) : bool :=
  negb (truthy item)
  || (typeof_object item && has_length item
      && le_zero numberOfText (length_of item)).

Definition baseConfig (userAgent : string) : Config :=
  {| headers := [("User-Agent", userAgent)];
     timeout := 10000;
     responseType := None;
     validateStatus := Some (fun status => status <? 500) |}.

(** [retrieve] *)
Definition retrieve (endpoint : string) (params : Params) (w : World)
  : completion exn (settled AxiosResponse) * World :=
  let base := baseConfig (UserAgent w) in
  if (endpoint =? Endpoint.INFO)%string then
    let (p, w') :=
      axios_post
        "https://translate.google.com/_/TranslateWebserverUi/data/batchexecute?rpcids=MkEWBc&rt=c"
        (p_body params)
        {| headers := headers base
                      ++ [("Content-Type", "application/x-www-form-urlencoded")];
           timeout := timeout base;
           responseType := None;
           validateStatus := validateStatus base |} w in
    (Normal p, w')
  else if (endpoint =? Endpoint.TEXT)%string then
    let (p, w') :=
      axios_get
        ("https://translate.google.com/m?sl=" ++ show (p_source params)
         ++ "&tl=" ++ show (p_target params)
         ++ "&q=" ++ show (p_query params))
        base w in
    (Normal p, w')
  else if (endpoint =? Endpoint.AUDIO)%string then
    let (p, w') :=
      axios_get
        ("https://translate.google.com/translate_tts?tl=" ++ show (p_lang params)
         ++ "&q=" ++ show (p_text params)
         ++ "&textlen=" ++ show_number (p_textLength params)
         ++ "&speed=" ++ show_number (p_speed params)
         ++ "&client=tw-ob")
        {| headers := headers base;
           timeout := timeout base;
           responseType := Some "arraybuffer";
           validateStatus := validateStatus base |} w in
    (Normal p, w')
  else (Throw (Error "Invalid endpoint"), w).

(** [doing]: [promise.then(callback).catch(...).then(...)]. *)
Equations? doing (endpoint : string) (params : Params) (callback : Callback)
  (retry : nat) (promise : settled AxiosResponse) (w : World)
  : settled value * World by wf (3 - retry)%nat lt :=
doing endpoint params callback retry promise w :=
  let after_then : settled value :=
    match promise with
    | Rejected error => Rejected error
    | Resolved response =>
        match callback response with
        | Throw error => Rejected error
        | Normal result => Resolved result
        end
    end in
  let after_catch :=
    match after_then with
    | Resolved result => (Resolved result, w)
    | Rejected error =>
        let (handledError, w1) := handleAxiosError error endpoint retry w in
        match isRetryableError error, lt_dec retry 3 with
        | true, left Hretry =>
            let w2 :=
              console_log
                ("Retrying " ++ endpoint ++ " request (attempt "
                 ++ index_key (retry + 1) ++ "/3)") [] w1 in
            match retrieve endpoint params w2 with
            | (Throw thrown, w3) => (Rejected thrown, w3)
            | (Normal next, w3) =>
                doing endpoint params callback (retry + 1) next w3
            end
        | _, _ => (Rejected handledError, w1)
        end
    end in
  match after_catch with
  | (Rejected error, w') => (Rejected error, w')
  | (Resolved result, w') =>
      match isEmpty result, lt_dec retry 3 with
      | true, left Hretry =>
          match retrieve endpoint params w' with
          | (Throw thrown, w'') => (Rejected thrown, w'')
          | (Normal next, w'') =>
              doing endpoint params callback (retry + 1) next w''
          end
      | _, _ => (Resolved (coalesce result VNull), w')
      end
  end.
Proof. all: clear - Hretry; destruct retry as [|[|[|?]]]; simpl; lia. Qed.

(** The re-issue inside the handlers,
    [request(endpoint, retry + 1).with(params).doing(callback)]. *)
Definition reissue (endpoint : string) (params : Params) (callback : Callback)
  (retry : nat) (w : World) : settled value * World :=
  match retrieve endpoint params w with
  | (Throw error, w') => (Rejected error, w')
  | (Normal next, w') => doing endpoint params callback (retry + 1) next w'
  end.

(** [request(endpoint, retry).with(params)] *)
Definition request (endpoint : string) (retry : nat) (params : Params) (w : World)
  : completion exn Handle * World :=
  match retrieve endpoint params w with
  | (Throw error, w') => (Throw error, w')
  | (Normal p, w') =>
      (Normal {| promise := p;
                 h_doing := fun callback => doing endpoint params callback retry p |},
       w')
  end.

End WithNumberReader.

End Rethrow.

(** ** text.ts *)

Module Text.

Section WithImports.

(** [mappings.request] of [languages.json], which is not among the
    sources: any table. *)
Variable requestMappings : list (string * string).

(** [cheerio.load(data)(selector).text()] and [String.prototype.trim],
    library functions the model takes as they come. *)
Variable cheerio_text : value -> string -> string.
Variable trim : string -> string.

(** The default export of [./utils/request.js] that [text.ts] imports,
    applied as [request(endpoint, retry).with(params)]. *)
Variable request :
  string -> nat -> Params -> World -> completion exn Handle * World.

(** [mapGoogleCode]: the mapped code, or the code itself when the table
    has no entry for it. *)
Definition mapGoogleCode (langCode : string) : string :=
  match find (fun e => (fst e =? langCode)%string) requestMappings with
  | Some e => snd e
  | None => langCode
  end.

(** The callback [getTranslationText] hands to [doing]. *)
Definition pick_translation (response : AxiosResponse) : completion exn value :=
  if negb (truthy (data response)) then Normal VUndefined
  else
    let translation := trim (cheerio_text (data response) ".result-container") in
    if negb (translation =? "")%string
       && negb (includes "#af-error-page" translation)
    then Normal (VString translation)
    else Normal VNull.

(** [getTranslationText].  An [async] function: a throw inside it
    rejects the promise it returns. *)
Definition getTranslationText (source target query : string) (w : World)
  : settled value * World :=
  let parsedSource := mapGoogleCode source in
  let parsedTarget := mapGoogleCode target in
  let encodedQuery := encodeURIComponent query in
  if 7500 <? Z.of_nat (String.length encodedQuery) then (Resolved VNull, w)
  else
    match request Endpoint.TEXT 0%nat
            (TextParams parsedSource parsedTarget encodedQuery) w with
    | (Throw error, w') => (Rejected error, w')
    | (Normal handle, w') => h_doing handle pick_translation w'
    end.

End WithImports.

End Text.

(** ** Strings in full *)

(** A string of JavaScript is a sequence of UTF-16 code units, each
    below 65536.  The strings of the model above are those whose code
    units are all below 256, on which [encodeURIComponent] cannot
    throw; here is the built-in on every string, with the two callers
    that hand it a string of the user: [retrieve] and
    [getTranslationText]. *)
Module Unicode.

(** The code units of a string of the model above. *)
Definition code_units (s : string) : list N :=
  map N_of_ascii (list_ascii_of_string s).

(** 0xD800 to 0xDBFF, and 0xDC00 to 0xDFFF. *)
Definition leading_surrogate (u : N) : bool :=
  (55296 <=? u)%N && (u <=? 56319)%N.
Definition trailing_surrogate (u : N) : bool :=
  (56320 <=? u)%N && (u <=? 57343)%N.

Definition unreserved_unit (u : N) : bool :=
  (u <? 128)%N && unreserved (ascii_of_N u).

(** The percent-escaped octets of the UTF-8 form of a code point. *)
Definition utf8_escape (cp : N) : string :=
  if (cp <? 128)%N then percent cp
  else if (cp <? 2048)%N then
    percent (192 + cp / 64) ++ percent (128 + cp mod 64)
  else if (cp <? 65536)%N then
    percent (224 + cp / 4096) ++ percent (128 + (cp / 64) mod 64)
    ++ percent (128 + cp mod 64)
  else
    percent (240 + cp / 262144) ++ percent (128 + (cp / 4096) mod 64)
    ++ percent (128 + (cp / 64) mod 64) ++ percent (128 + cp mod 64).

(** [encodeURIComponent]: an unreserved code unit is kept; any other
    is read as a code point, which takes a leading surrogate together
    with the trailing one after it, and is written as the escaped
    octets of its UTF-8 form; a surrogate without its partner throws
    a URIError (with the message V8 gives it). *)
Fixpoint encodeURIComponent {R} (s : list N) : completion (thrown R) string :=
  match s with
  | [] => Normal ""
  | first :: rest =>
      if unreserved_unit first then
        escaped <- encodeURIComponent rest ;;
        Normal (String (ascii_of_N first) escaped)
      else if trailing_surrogate first then Throw (URIError "URI malformed")
      else if leading_surrogate first then
        match rest with
        | second :: rest' =>
            if trailing_surrogate second then
              escaped <- encodeURIComponent rest' ;;
              Normal (utf8_escape ((first - 55296) * 1024 + (second - 56320)
                                   + 65536)
                      ++ escaped)
            else Throw (URIError "URI malformed")
        | [] => Throw (URIError "URI malformed")
        end
      else
        escaped <- encodeURIComponent rest ;;
        Normal (utf8_escape first ++ escaped)
  end.

(** [String.prototype.isWellFormed]: no surrogate without its
    partner. *)
Fixpoint isWellFormed (s : list N) : bool :=
  match s with
  | [] => true
  | first :: rest =>
      if trailing_surrogate first then false
      else if leading_surrogate first then
        match rest with
        | second :: rest' => trailing_surrogate second && isWellFormed rest'
        | [] => false
        end
      else isWellFormed rest
  end.

(** [Params] with the two strings that are escaped, [query] and [text],
    in full. *)
Inductive Params : Type :=
| InfoParams (body : string)
| TextParams (source target : string) (query : list N)
| AudioParams (lang : string) (text : list N) (textLength speed : Z).

Definition p_body (p : Params) : option string :=
  match p with InfoParams b => Some b | _ => None end.
Definition p_source (p : Params) : option string :=
  match p with TextParams s _ _ => Some s | _ => None end.
Definition p_target (p : Params) : option string :=
  match p with TextParams _ t _ => Some t | _ => None end.
Definition p_query (p : Params) : option (list N) :=
  match p with TextParams _ _ q => Some q | _ => None end.
Definition p_lang (p : Params) : option string :=
  match p with AudioParams l _ _ _ => Some l | _ => None end.
Definition p_text (p : Params) : option (list N) :=
  match p with AudioParams _ t _ _ => Some t | _ => None end.
Definition p_textLength (p : Params) : option Z :=
  match p with AudioParams _ _ n _ => Some n | _ => None end.
Definition p_speed (p : Params) : option Z :=
  match p with AudioParams _ _ _ s => Some s | _ => None end.

Definition encodeURIComponent_opt (x : option (list N))
  : completion exn string :=
  match x with Some s => encodeURIComponent s | None => Normal "undefined" end.


(** [retrieve] of the documented revision (request.ts 277-321), the
    first thing [request(endpoint).with(params)] calls: the URL is
    built, and [encodeURIComponent] may throw, before the call is
    issued. *)
Definition retrieve (endpoint : string) (params : Params) (w : World)
  : completion exn (settled AxiosResponse) * World :=
  let userAgent := UserAgent w in
  let base := Swallow.baseConfig userAgent in
  if (endpoint =? Endpoint.INFO)%string then
    let (p, w') :=
      axios_post
        "https://translate.google.com/_/TranslateWebserverUi/data/batchexecute?rpcids=MkEWBc&rt=c"
        (p_body params)
        {| headers := headers base
                      ++ [("Content-Type", "application/x-www-form-urlencoded")];
           timeout := timeout base;
           responseType := None;
           validateStatus := None |} w in
    (Normal p, w')
  else if (endpoint =? Endpoint.TEXT)%string then
    match encodeURIComponent_opt (p_query params) with
    | Throw error => (Throw error, w)
    | Normal escaped =>
        let (p, w') :=
          axios_get
            ("https://translate.google.com/m?sl=" ++ show (p_source params)
             ++ "&tl=" ++ show (p_target params)
             ++ "&q=" ++ escaped)
            base w in
        (Normal p, w')
    end
  else if (endpoint =? Endpoint.AUDIO)%string then
    match encodeURIComponent_opt (p_text params) with
    | Throw error => (Throw error, w)
    | Normal escaped =>
        let (p, w') :=
          axios_get
            ("https://translate.google.com/translate_tts?tl="
             ++ show (p_lang params)
             ++ "&q=" ++ escaped
             ++ "&textlen=" ++ show_number (p_textLength params)
             ++ "&speed=" ++ show_number (p_speed params)
             ++ "&client=tw-ob")
            {| headers := headers base;
               timeout := 60000;
               responseType := Some "arraybuffer";
               validateStatus := None |} w in
        (Normal p, w')
    end
  else (Throw (Error ("Invalid endpoint: " ++ endpoint)), w).


Section WithImports.

Variable requestMappings : list (string * string).
Variable cheerio_text : value -> string -> string.
Variable trim : string -> string.
Variable request :
  string -> nat -> Axios.Params -> World -> completion exn Handle * World.

(** [getTranslationText] on any query.  [encodeURIComponent(query)]
    (text.ts 21) may throw, and a throw inside an [async] function
    rejects the promise it returns; the escaped query, which is what
    goes on to [request], is a string of the model above. *)
Definition getTranslationText (source target : string) (query : list N)
  (w : World) : settled value * World :=
  let parsedSource := Text.mapGoogleCode requestMappings source in
  let parsedTarget := Text.mapGoogleCode requestMappings target in
  match encodeURIComponent query with
  | Throw error => (Rejected error, w)
  | Normal encodedQuery =>
      if 7500 <? Z.of_nat (String.length encodedQuery) then (Resolved VNull, w)
      else
        match request Endpoint.TEXT 0%nat
                (Axios.TextParams parsedSource parsedTarget encodedQuery) w with
        | (Throw error, w') => (Rejected error, w')
        | (Normal handle, w') =>
            h_doing handle (Text.pick_translation cheerio_text trim) w'
        end
  end.

End WithImports.

End Unicode.

(** ** language.ts *)

Module Language.

Inductive LangType : Type := SOURCE | TARGET.

(** [languages.json], which is not among the sources: any three
    tables, each an object from strings to strings. *)
Record LanguagesData : Type := {
  languages : list (string * value);
  exceptions : LangType -> list (string * value);
  request_mappings : list (string * value);
  response_mappings : list (string * value)
}.

(** What the tables get from the engine: [inherited] tells the property
    names every ordinary object finds on [Object.prototype]
    ([constructor], [toString] and the like), [member] what is found
    there, and [keyText] the property key of a value that is not a
    string. *)
Record Runtime : Type := {
  inherited : string -> bool;
  member : string -> value;
  keyText : value -> string
}.

Section WithData.

Variable json : LanguagesData.
Variable js : Runtime.

Definition ToPropertyKey (key : value) : string :=
  match key with
  | VString s => s
  | _ => keyText js key
  end.

(** [isKeyOf]: [key in obj], own or inherited. *)
Definition isKeyOf (obj : list (string * value)) (key : value) : bool :=
  hasField (ToPropertyKey key) obj || inherited js (ToPropertyKey key).

(** [obj[key]] *)
Definition get (obj : list (string * value)) (key : value) : value :=
  if hasField (ToPropertyKey key) obj then getField (ToPropertyKey key) obj
  else if inherited js (ToPropertyKey key) then member js (ToPropertyKey key)
  else VUndefined.

(** [Object.keys(obj)] *)
Definition Object_keys (obj : list (string * value)) : list string :=
  map fst obj.

(** [filteredLanguages]: the entries of [languages] whose code is not a
    key of the exceptions of [type], as an object again. *)
Definition filteredLanguages (type : LangType) : list (string * value) :=
  Object_fromEntries
    (filter (fun entry =>
               negb (existsb (String.eqb (fst entry))
                       (Object_keys (exceptions json type))))
            (languages json)).

(** [languageList[langType ?? "all"]] *)
Definition languageList (langType : option LangType) : list (string * value) :=
  match langType with
  | None => languages json
  | Some type => filteredLanguages type
  end.

(** [isValidCode]: [!!code && isKeyOf(languageList[langType ?? "all"])(code)]. *)
Definition isValidCode (code : value) (langType : option LangType) : bool :=
  truthy code && isKeyOf (languageList langType) code.

(** [replaceExceptedCode] *)
Definition replaceExceptedCode (langType : LangType) (langCode : value) : value :=
  let langExceptions := exceptions json langType in
  if isKeyOf langExceptions langCode then get langExceptions langCode
  else langCode.

(** [mapGoogleCode] *)
Definition mapGoogleCode (langCode : value) : value :=
  let reqMappings := request_mappings json in
  if isKeyOf reqMappings langCode then get reqMappings langCode else langCode.

(** [mapLingvaCode] *)
Definition mapLingvaCode (langCode : value) : value :=
  let resMappings := response_mappings json in
  if isKeyOf resMappings langCode then get resMappings langCode else langCode.

End WithData.

End Language.

(** ** The extractor: the other fields *)

Module Extraction.

(** [items.flatMap(f)]: an array the callback returns is spliced in,
    anything else is appended as it is. *)
Fixpoint flatMap_throwing {E} (f : value -> completion E value)
  (items : list value) : completion E (list value) :=
  match items with
  | [] => Normal []
  | x :: rest =>
      y <- f x ;;
      ys <- flatMap_throwing f rest ;;
      Normal ((if Array_isArray y then items_of y else [y]) ++ ys)%list
  end.

(** [v?.flatMap(f)] *)
Definition opt_flatMap (v : value) (f : value -> completion exn value)
  : completion exn value :=
  match v with
  | VUndefined | VNull => Normal VUndefined
  | VArray items => ys <- flatMap_throwing f items ;; Normal (VArray ys)
  | _ => Throw (TypeError "flatMap is not a function")
  end.

(** [v?.filter(p)] *)
Definition opt_filter (v : value) (p : value -> bool) : completion exn value :=
  match v with
  | VUndefined | VNull => Normal VUndefined
  | VArray items => Normal (VArray (filter p items))
  | _ => Throw (TypeError "filter is not a function")
  end.

Section WithData.

Variable json : Language.LanguagesData.
Variable js : Language.Runtime.

(** [detected]: the first slot that is neither null nor undefined,
    mapped to the internal code when it is truthy. *)
Definition detected (data : value) : completion exn value :=
  parts <- iterate data ;;
  let source := nth 0 parts VUndefined in
  let target := nth 1 parts VUndefined in
  let detected := nth 2 parts VUndefined in
  let extra := nth 3 parts VUndefined in
  let code :=
    coalesce
      (coalesce
         (coalesce (coalesce (opt_index source 2) (opt_index target 3)) detected)
         (opt_index extra 8))
      (opt_index (opt_index (opt_index (opt_index extra 5) 0) 0) 3) in
  Normal (if truthy code then Language.mapLingvaCode json js code else VUndefined).

End WithData.

(** [typo]: [([source]) => source?.[1]?.[0]?.[4] ?? undefined]. *)
Definition typo (data : value) : completion exn value :=
  parts <- iterate data ;;
  let source := nth 0 parts VUndefined in
  Normal (coalesce (opt_index (opt_index (opt_index source 1) 0) 4) VUndefined).

(** [pronunciation.query]: [([source]) => source?.[0] ?? undefined]. *)
Definition pronunciation_query (data : value) : completion exn value :=
  parts <- iterate data ;;
  let source := nth 0 parts VUndefined in
  Normal (coalesce (opt_index source 0) VUndefined).

(** [pronunciation.translation]:
    [([, target]) => target?.[0]?.[0]?.[1] ?? undefined]. *)
Definition pronunciation_translation (data : value) : completion exn value :=
  parts <- iterate data ;;
  let target := nth 1 parts VUndefined in
  Normal (coalesce (opt_index (opt_index (opt_index target 0) 0) 1) VUndefined).

(** The callback of [flatMap] in [list.definitions]:
    [(synItem) => synItem?.[0]?.map(([item]) => item)]. *)
Definition synonym_items (synItem : value) : completion exn value :=
  opt_map (opt_index synItem 0)
    (fun group => parts <- iterate group ;; Normal (nth 0 parts VUndefined)).

(** The inner callback of [list.definitions], on one definition:
    [({ 0: definition, 1: example, 4: fieldWrapper, 5: synList }) => ...].
    An object pattern throws on null and undefined. *)
Definition definition_entry (entry : value) : completion exn value :=
  if nullish entry then Throw (TypeError "cannot destructure a nullish value")
  else
    let definition := at_index entry 0 in
    let example := at_index entry 1 in
    let fieldWrapper := at_index entry 4 in
    let synList := at_index entry 5 in
    flat <- opt_flatMap synList synonym_items ;;
    kept <- opt_filter flat truthy ;;
    Normal (VObject [("definition", definition);
                     ("example", example);
                     ("field", opt_index (opt_index fieldWrapper 0) 0);
                     ("synonyms", coalesce kept (VArray []))]).

(** The outer callback:
    [([type, defList]) => ({ type, list: defList?.map(...) ?? [] })]. *)
Definition definition_group (group : value) : completion exn value :=
  parts <- iterate group ;;
  let type := nth 0 parts VUndefined in
  let defList := nth 1 parts VUndefined in
  list <- opt_map defList definition_entry ;;
  Normal (VObject [("type", type); ("list", coalesce list (VArray []))]).

(** [list.definitions]: [({ 3: extra }) => extra?.[1]?.[0]?.map(...) ?? []]. *)
Definition definitions (data : value) : completion exn value :=
  if nullish data then Throw (TypeError "cannot destructure a nullish value")
  else
    let extra := at_index data 3 in
    groups <- opt_map (opt_index (opt_index extra 1) 0) definition_group ;;
    Normal (coalesce groups (VArray [])).

(** [list.examples]:
    [({ 3: extra }) => extra?.[2]?.[0]?.map(([, item]) => item) ?? []]. *)
Definition examples (data : value) : completion exn value :=
  if nullish data then Throw (TypeError "cannot destructure a nullish value")
  else
    let extra := at_index data 3 in
    items <- opt_map (opt_index (opt_index extra 2) 0)
               (fun pair => parts <- iterate pair ;;
                            Normal (nth 1 parts VUndefined)) ;;
    Normal (coalesce items (VArray [])).

(** [list.similar]: [({ 3: extra }) => extra?.[3]?.[0] ?? []]. *)
Definition similar (data : value) : completion exn value :=
  if nullish data then Throw (TypeError "cannot destructure a nullish value")
  else
    let extra := at_index data 3 in
    Normal (coalesce (opt_index (opt_index extra 3) 0) (VArray [])).

End Extraction.

(** ** What one logical call leaves behind *)

Module Trace.

(** [w'] is [w] after the requests [more] were issued, in that order. *)
Definition grew (w w' : World) (more : list HttpRequest) : Prop :=
  transport w' = transport w /\ agents w' = agents w
  /\ issued w' = (issued w ++ more)%list.

(** The request with [ua] as the value of its [User-Agent] header and
    nothing else changed. *)
Definition with_agent (ua : string) (req : HttpRequest) : HttpRequest :=
  {| method := method req;
     url := url req;
     body := body req;
     config :=
       {| headers :=
            map (fun h => if (fst h =? "User-Agent")%string then (fst h, ua)
                          else h)
                (headers (config req));
          timeout := timeout (config req);
          responseType := responseType (config req);
          validateStatus := validateStatus (config req) |} |}.

(** Two requests that differ at most in the value of their
    [User-Agent] header: method, URL, body, the names and the order of
    the headers, the value of every other header, timeout, response type
    and status check are the same. *)
Definition same_call (a b : HttpRequest) : Prop :=
  with_agent "" a = with_agent "" b.


(** The [User-Agent] header of a request. *)
Definition user_agent_of (req : HttpRequest) : option string :=
  option_map snd
    (find (fun h => (fst h =? "User-Agent")%string) (headers (config req))).

(** A reply the wrapper that resolves to null retries on: no response,
    or a status of 500 or more. *)
Definition fails_retryably (reply : Reply) : Prop :=
  match reply with
  | Unanswered _ _ => True
  | Answered r => 500 <= status r
  end.

(** The transport gives [reply] to call number [n], whatever the
    request. *)
Definition replies (w : World) (n : nat) (reply : Reply) : Prop :=
  forall req, transport w n req = reply.

(** What [Swallow.doing] leaves behind, for a template of the requests
    of the endpoint: it resolves; the requests it issued are the
    template with the user agent drawn for each call; there is one
    warning per request and at most one error line more than requests;
    nothing is written with [console.log]; and the value is null or
    what the callback made, neither null nor undefined, of a response
    the transport gave to one of those requests (or of the response the
    promise already held). *)
Definition traced (endpoint : string) (params : Params) (callback : Callback)
  (template : string -> HttpRequest)
  (retry : nat) (promise : settled AxiosResponse)
  (w : World) (budget : nat) : Prop :=
  exists v w' more,
    Swallow.doing endpoint params callback retry promise w = (Resolved v, w')
    /\ grew w w' more
    /\ (List.length more <= budget)%nat
    /\ (forall i req, nth_error more i = Some req ->
                      req = template (agents w (calls w + i)))
    /\ count_level LWarn w' = (count_level LWarn w + List.length more)%nat
    /\ (count_level LError w'
        <= count_level LError w + S (List.length more))%nat
    /\ count_level LLog w' = count_level LLog w
    /\ (v = VNull
        \/ exists response result,
             callback response = Normal result /\ v = result
             /\ nullish v = false
             /\ (promise = Resolved response
                 \/ exists i req,
                      nth_error more i = Some req
                      /\ transport w (calls w + i)%nat req = Answered response)).

End Trace.
Import Trace.

(** ** Sample inputs *)

Module Samples.

(** An object holding an empty array, an undefined field and a populated
    field, with the same three again one level down. *)
Definition nested : value :=
  VObject [("list", VArray []);
           ("missing", VUndefined);
           ("word", VString "casa");
           ("inner", VObject [("list", VArray []);
                              ("missing", VUndefined);
                              ("word", VString "casa")])].

(** [nested] with only the populated fields left. *)
Definition nested_populated_only : value :=
  VObject [("word", VString "casa");
           ("inner", VObject [("word", VString "casa")])].

(** [nested] with the undefined fields gone and the empty arrays still
    there. *)
Definition nested_normalized : value :=
  VObject [("list", VArray []);
           ("word", VString "casa");
           ("inner", VObject [("list", VArray []);
                              ("word", VString "casa")])].

(** An extra-translation entry as the provider sends it: word, article,
    meanings, rank. *)
Definition raw_entry (rank : Z) : value :=
  VArray [VString "casa"; VNull; VArray [VString "house"; VString "home"]; int rank].

(** A metadata payload whose [extra] slot carries one group of extra
    translations with two entries, of ranks 1 and 4. *)
Definition payload : value :=
  VArray [VNull; VNull; VString "es";
          VArray [VNull; VNull; VNull; VNull; VNull;
                  VArray [VArray [VArray [VString "noun";
                                          VArray [raw_entry 1; raw_entry 4]]]]]].

(** A mocked transport: the replies in order, then [fallback] for
    ever. *)
Definition mocked (replies : list Reply) (fallback : Reply) : World :=
  {| transport := fun n _ => nth n replies fallback;
     agents := fun _ => "Mozilla/5.0";
     issued := [];
     console := [] |}.

Definition ok (body : value) : Reply :=
  Answered {| status := 200; statusText := "OK"; data := body |}.

Definition server_error : Reply :=
  Answered {| status := 500; statusText := "Internal Server Error";
              data := VString "Server Error" |}.

Definition rate_limited : Reply :=
  Answered {| status := 429; statusText := "Too Many Requests";
              data := VString "" |}.

Definition not_found : Reply :=
  Answered {| status := 404; statusText := "Not Found"; data := VString "" |}.

Definition network_error : Reply := Unanswered true "Network Error".

Definition text_params : Params := TextParams "en" "fr" "test".

(** The callbacks of the integration tests: [({ data }) => data || null]
    and [({ data }) => data ? "success" : "failure"]. *)
Definition data_or_null : Callback :=
  fun response =>
    Normal (if truthy (data response) then data response else VNull).

Definition success_or_failure : Callback :=
  fun response =>
    Normal (VString (if truthy (data response) then "success" else "failure")).

(** The error axios rejects with on the 429 reply. *)
Definition error_429 : exn :=
  AxiosError "Request failed with status code 429" true
    (Some {| status := 429; statusText := "Too Many Requests";
             data := VString "" |}).

(** Stand-ins for the imports of [text.ts]: a mapping table, a page
    reader that takes the body for the selected text, and no trimming. *)
Definition mappings : list (string * string) :=
  [("zh", "zh-CN"); ("zh_HANT", "zh-TW")].

Definition body_text (body : value) (selector : string) : string :=
  match body with VString s => s | _ => "" end.

Definition no_trim (s : string) : string := s.


End Samples.

(** ** Normal forms of the normalizer *)

Module Shape.

#[local] Unset Elimination Schemes.

(** A value [undefinedFields] has nothing to do on: every element and
    every field value is truthy, the keys of every object are distinct,
    and so on inside the arrays and objects it holds. *)
Inductive Normalized : value -> Prop :=
| normalized_array items :
    Forall (fun x => truthy x = true
                     /\ (typeof_object x = true -> Normalized x)) items ->
    Normalized (VArray items)
| normalized_object fields :
    NoDup (map fst fields) ->
    Forall (fun e => truthy (snd e) = true
                     /\ (typeof_object (snd e) = true -> Normalized (snd e)))
           fields ->
    Normalized (VObject fields).

#[local] Set Elimination Schemes.

(** The first value of a list that is neither null nor undefined. *)
Definition first_present (slots : list value) : option value :=
  find (fun v => negb (nullish v)) slots.

End Shape.
Import Shape.

(** ** More sample inputs *)

Module MoreSamples.

(** A transport that makes the wrapper that rethrows go through every
    retry it has: the calls of each level fail, and the last level
    answers with an empty body. *)
Definition worst_case : World :=
  let F := Samples.network_error in
  let E := Samples.ok (VString "") in
  Samples.mocked [F; F; F; E; E; F; E; E; F; F; E; E; F; E; E] E.

(** The reader of numbers used where one is needed. *)
Definition no_numbers (v : value) : number := NaN.

Definition ok_response (body : value) : AxiosResponse :=
  {| status := 200; statusText := "OK"; data := body |}.

Definition not_found_response : AxiosResponse :=
  {| status := 404; statusText := "Not Found"; data := VString "" |}.

(** A payload without its slot 3. *)
Definition bare_payload : value := VArray [VNull; VNull; VString "es"].

(** A payload with one group of definitions holding one definition,
    whose synonym list has a group of two items, one of them empty, and
    a null in place of a second group. *)
Definition definitions_payload : value :=
  VArray [VNull; VNull; VString "es";
          VArray [VNull;
                  VArray [VArray
                    [VArray [VString "noun";
                             VArray [VArray
                               [VString "a building to live in";
                                VString "my house";
                                VNull; VNull;
                                VArray [VArray [VString "architecture"]];
                                VArray [VArray [VArray [VArray [VString "home"];
                                                        VArray [VString ""]]];
                                        VNull]]]]]]]].

(** Tables in the way of the tests of [language.ts]. *)
Definition tables : Language.LanguagesData :=
  {| Language.languages :=
       [("auto", VString "Detect"); ("en", VString "English");
        ("es", VString "Spanish"); ("zh", VString "Chinese");
        ("zh_HANT", VString "Chinese (traditional)")];
     Language.exceptions := fun type =>
       match type with
       | Language.SOURCE => [("zh_HANT", VString "zh")]
       | Language.TARGET => [("auto", VString "en")]
       end;
     Language.request_mappings :=
       [("zh", VString "zh-CN"); ("zh_HANT", VString "zh-TW")];
     Language.response_mappings :=
       [("zh-CN", VString "zh"); ("zh-TW", VString "zh")] |}.

(** An engine: the names an object literal finds on [Object.prototype],
    an empty object standing for the functions found there, and the
    property keys of the values that are not strings. *)
Definition engine : Language.Runtime :=
  {| Language.inherited := fun key =>
       existsb (String.eqb key)
         ["constructor"; "hasOwnProperty"; "isPrototypeOf";
          "propertyIsEnumerable"; "toLocaleString"; "toString"; "valueOf";
          "__proto__"; "__defineGetter__"; "__defineSetter__";
          "__lookupGetter__"; "__lookupSetter__"];
     Language.member := fun _ => VObject [];
     Language.keyText := fun v =>
       match v with
       | VUndefined => "undefined"
       | VNull => "null"
       | VBool true => "true"
       | VBool false => "false"
       | VNumber (Num z) => decimal z
       | VNumber NaN => "NaN"
       | _ => ""
       end |}.

End MoreSamples.

(** * Properties *)

Section CompletionFacts.

Context {A B : Type}.
Variable f : A -> completion exn B.

Lemma map_throwing_In items : forall ys y,
  map_throwing f items = Normal ys -> In y ys ->
  exists x, In x items /\ f x = Normal y.
Proof.
  induction items as [|a rest IH]; simpl; intros ys y Hmap Hin.
  - inversion Hmap; subst. contradiction.
  - unfold bind in Hmap.
    destruct (f a) as [b|] eqn:Hfa; [|discriminate].
    destruct (map_throwing f rest) as [bs|] eqn:Hrest; [|discriminate].
    inversion Hmap; subst. destruct Hin as [<-|Hin]; [eauto|].
    destruct (IH bs y eq_refl Hin) as (x & Hx & Hfx). eauto.
Qed.

Lemma map_throwing_image items : forall ys x,
  map_throwing f items = Normal ys -> In x items ->
  exists y, f x = Normal y /\ In y ys.
Proof.
  induction items as [|a rest IH]; simpl; intros ys x Hmap Hin; [contradiction|].
  unfold bind in Hmap.
  destruct (f a) as [b|] eqn:Hfa; [|discriminate].
  destruct (map_throwing f rest) as [bs|] eqn:Hrest; [|discriminate].
  inversion Hmap; subst. destruct Hin as [<-|Hin].
  - exists b. simpl. auto.
  - destruct (IH bs x eq_refl Hin) as (y & Hy & Hyin). exists y. simpl. auto.
Qed.

Lemma map_throwing_returns items :
  (forall x, In x items -> exists y, f x = Normal y) ->
  exists ys, map_throwing f items = Normal ys.
Proof.
  induction items as [|a rest IH]; simpl; intros Hall; [eauto|].
  destruct (Hall a (or_introl eq_refl)) as (b & ->).
  destruct IH as (bs & ->); [auto|]. simpl. eauto.
Qed.

Lemma map_throwing_nth_error items : forall ys i x,
  map_throwing f items = Normal ys ->
  nth_error items i = Some x ->
  exists y, f x = Normal y /\ nth_error ys i = Some y.
Proof.
  induction items as [|a rest IH]; intros ys i x Hmap Hnth.
  - destruct i; discriminate.
  - simpl in Hmap. unfold bind in Hmap.
    destruct (f a) as [b|] eqn:Hfa; [|discriminate].
    destruct (map_throwing f rest) as [bs|] eqn:Hrest; [|discriminate].
    inversion Hmap; subst. destruct i as [|i]; simpl in *.
    + inversion Hnth; subst. eauto.
    + eapply IH; eauto.
Qed.

End CompletionFacts.

(** ** The normalizer *)

Section NormalizerFacts.

Import Extract.

(** The array branch in the source's shape: filter, then map. *)
Lemma undefinedFields_array (items : list value) :
  undefinedFields (VArray items)
  = (kept <- map_throwing clean (filter truthy items) ;; Normal (VArray kept)).
Proof.
  simpl. f_equal.
  induction items as [|item rest IH]; [reflexivity|].
  simpl. destruct (truthy item); simpl; rewrite IH; reflexivity.
Qed.

(** The object branch in the source's shape. *)
Lemma undefinedFields_object (fields : list (string * value)) :
  undefinedFields (VObject fields)
  = (entries <- map_throwing clean_entry
                  (filter (fun e => truthy (snd e)) fields) ;;
     Normal (VObject (Object_fromEntries entries))).
Proof.
  simpl. f_equal.
  induction fields as [|[key v] rest IH]; [reflexivity|].
  simpl. destruct (truthy v); simpl; rewrite IH; [|reflexivity].
  unfold clean_entry, clean, bind. simpl.
  destruct (if isObject v then undefinedFields v else Normal v); reflexivity.
Qed.

Lemma setField_In key v fields e :
  In e (setField key v fields) -> e = (key, v) \/ In e fields.
Proof.
  induction fields as [|[k old] rest IH]; simpl.
  - intros [H|[]]; auto.
  - destruct (key =? k)%string; simpl.
    + intros [H|H]; auto.
    + intros [H|H]; auto. destruct (IH H); auto.
Qed.

Lemma fold_setField_In entries : forall acc e,
  In e (fold_left (fun o x => setField (fst x) (snd x) o) entries acc) ->
  In e entries \/ In e acc.
Proof.
  induction entries as [|[k v] rest IH]; simpl; intros acc e H; auto.
  destruct (IH _ _ H) as [H1|H1]; auto.
  destruct (setField_In _ _ _ _ H1) as [H2|H2]; auto.
Qed.

Lemma Object_fromEntries_In entries e :
  In e (Object_fromEntries entries) -> In e entries.
Proof.
  intros H. destruct (fold_setField_In _ _ _ H) as [H1|[]]. exact H1.
Qed.

Lemma setField_fresh key v fields :
  ~ In key (map fst fields) -> setField key v fields = (fields ++ [(key, v)])%list.
Proof.
  induction fields as [|[k old] rest IH]; simpl; intros Hfresh; [reflexivity|].
  destruct (String.eqb_spec key k) as [->|Hne].
  - exfalso. auto.
  - rewrite IH; auto.
Qed.

Lemma fold_setField_fresh entries : forall acc,
  NoDup (map fst (acc ++ entries)%list) ->
  fold_left (fun o x => setField (fst x) (snd x) o) entries acc
  = (acc ++ entries)%list.
Proof.
  induction entries as [|[k v] rest IH]; simpl; intros acc Hnd.
  - now rewrite app_nil_r.
  - assert (Hfresh : ~ In k (map fst acc)).
    { rewrite map_app in Hnd. simpl in Hnd.
      apply NoDup_remove_2 in Hnd. intros Hin. apply Hnd.
      apply in_or_app. now left. }
    rewrite setField_fresh by exact Hfresh.
    rewrite IH.
    + now rewrite <- app_assoc.
    + now rewrite <- app_assoc.
Qed.

(** With distinct keys, as in any object, [Object.fromEntries] gives
    back the entries in their order. *)
Lemma Object_fromEntries_distinct entries :
  NoDup (map fst entries) -> Object_fromEntries entries = entries.
Proof.
  intros Hnd. unfold Object_fromEntries.
  now rewrite fold_setField_fresh.
Qed.

Lemma clean_entry_key e e' : clean_entry e = Normal e' -> fst e' = fst e.
Proof.
  unfold clean_entry, bind. destruct (clean (snd e)); [|discriminate].
  intros H. inversion H. reflexivity.
Qed.

Lemma map_clean_entry_keys entries : forall cleaned,
  map_throwing clean_entry entries = Normal cleaned ->
  map fst cleaned = map fst entries.
Proof.
  induction entries as [|e rest IH]; simpl; intros cleaned Hmap.
  - inversion Hmap. reflexivity.
  - unfold bind in Hmap.
    destruct (clean_entry e) as [e'|] eqn:He; [|discriminate].
    destruct (map_throwing clean_entry rest) as [rest'|] eqn:Hrest;
      [|discriminate].
    inversion Hmap; subst. simpl.
    rewrite (clean_entry_key _ _ He), (IH rest' eq_refl). reflexivity.
Qed.

Lemma NoDup_keys_filter (p : string * value -> bool) fields :
  NoDup (map fst fields) -> NoDup (map fst (filter p fields)).
Proof.
  induction fields as [|e rest IH]; simpl; intros Hnd; [constructor|].
  inversion Hnd as [|? ? Hnotin Hrest]; subst.
  destruct (p e); simpl; auto.
  constructor; auto.
  intros Hin. apply Hnotin.
  apply in_map_iff in Hin. destruct Hin as (x & Hx & Hin).
  apply filter_In in Hin. destruct Hin as [Hin _].
  apply in_map_iff. exists x. auto.
Qed.

(** What [undefinedFields] returns is an array or an object. *)
Lemma undefinedFields_returns_object obj result :
  undefinedFields obj = Normal result ->
  truthy result = true /\ typeof_object result = true.
Proof.
  destruct obj; simpl; unfold bind; intros H;
    try discriminate;
    try (inversion H; subst; split; reflexivity);
    match type of H with
    | match ?c with _ => _ end = _ =>
        destruct c; [inversion H; subst; split; reflexivity|discriminate]
    end.
Qed.

Lemma clean_truthy v cleaned :
  truthy v = true -> clean v = Normal cleaned -> truthy cleaned = true.
Proof.
  unfold clean. intros Hv Hclean. destruct (isObject v).
  - now apply undefinedFields_returns_object in Hclean.
  - inversion Hclean; subst. exact Hv.
Qed.

Lemma Inside_primitive x v :
  typeof_object v = false -> ~ Inside x v.
Proof.
  intros Hprim Hin. destruct Hin; discriminate.
Qed.

Lemma string_entries_chars s : forall i key v,
  In (key, v) (string_entries i s) -> exists c, v = VString (String c "").
Proof.
  induction s as [|c rest IH]; simpl; intros i key v Hin; [contradiction|].
  destruct Hin as [Heq|Hin]; [inversion Heq; eauto|eauto].
Qed.

(** On anything but null and undefined, [undefinedFields] returns. *)
Lemma undefinedFields_returns obj :
  nullish obj = false -> exists result, undefinedFields obj = Normal result.
Proof.
  induction obj as [| | | | |items IH|fields IH] using value_nested_ind;
    intros Hobj; try discriminate; try (simpl; eauto; fail).
  - rewrite undefinedFields_array.
    destruct (map_throwing_returns clean (filter truthy items)) as (kept & ->);
      [|simpl; eauto].
    intros x Hx. apply filter_In in Hx. destruct Hx as [Hin Htruthy].
    unfold clean. destruct (isObject x); [|eauto].
    rewrite Forall_forall in IH. apply IH; [exact Hin|].
    destruct x; simpl in *; congruence.
  - rewrite undefinedFields_object.
    destruct (map_throwing_returns clean_entry
                (filter (fun e => truthy (snd e)) fields)) as (entries & ->);
      [|simpl; eauto].
    intros [k x] Hx. apply filter_In in Hx. destruct Hx as [Hin Htruthy].
    simpl in Htruthy. unfold clean_entry, clean. simpl.
    destruct (isObject x); [|simpl; eauto].
    rewrite Forall_forall in IH.
    pose proof (IH (k, x) Hin) as IHx. simpl in IHx.
    destruct IHx as (r & ->); [|simpl; eauto].
    destruct x; simpl in *; congruence.
Qed.

(** Whatever is left inside a normalized value, at any depth, is
    truthy. *)
Lemma undefinedFields_inside_truthy obj :
  forall result v,
    undefinedFields obj = Normal result -> Inside v result -> truthy v = true.
Proof.
  induction obj as [| | |n|s|items IH|fields IH] using value_nested_ind;
    intros result v Hrun Hin; try discriminate.
  - simpl in Hrun. inversion Hrun; subst.
    inversion Hin; subst; contradiction.
  - simpl in Hrun. inversion Hrun; subst.
    inversion Hin; subst; contradiction.
  - simpl in Hrun. inversion Hrun; subst. clear Hrun.
    inversion Hin as [|? ? Hfield| |k w ? Hfield Hdeep]; subst;
      apply Object_fromEntries_In, string_entries_chars in Hfield;
      destruct Hfield as (c & ->).
    + reflexivity.
    + exfalso. eapply Inside_primitive; [|exact Hdeep]. reflexivity.
  - rewrite undefinedFields_array in Hrun. unfold bind in Hrun.
    destruct (map_throwing clean (filter truthy items)) as [kept|] eqn:Hkept;
      [|discriminate].
    inversion Hrun; subst; clear Hrun.
    assert (Hitem : forall w, In w kept ->
              exists y, In y items /\ truthy y = true /\ clean y = Normal w).
    { intros w Hw.
      destruct (map_throwing_In clean _ _ _ Hkept Hw) as (y & Hy & Hclean).
      apply filter_In in Hy. destruct Hy. eauto. }
    rewrite Forall_forall in IH.
    inversion Hin as [? Hw| |w ? Hw Hdeep|]; subst.
    + destruct (Hitem _ Hw) as (y & _ & Hy & Hclean).
      eapply clean_truthy; eauto.
    + destruct (Hitem _ Hw) as (y & Hyin & Hy & Hclean).
      unfold clean in Hclean. destruct (isObject y) eqn:Hobj.
      * eapply IH; eauto.
      * inversion Hclean; subst. exfalso. eapply Inside_primitive; eauto.
  - rewrite undefinedFields_object in Hrun. unfold bind in Hrun.
    destruct (map_throwing clean_entry _) as [entries|] eqn:Hentries;
      [|discriminate].
    inversion Hrun; subst; clear Hrun.
    assert (Hfield : forall k w,
              In (k, w) (Object_fromEntries entries) ->
              exists y, In (k, y) fields /\ truthy y = true
                        /\ clean y = Normal w).
    { intros k w Hw. apply Object_fromEntries_In in Hw.
      destruct (map_throwing_In clean_entry _ _ _ Hentries Hw)
        as ([k' y] & Hy & Hclean).
      apply filter_In in Hy. destruct Hy as [Hy Htruthy].
      unfold clean_entry, bind in Hclean. simpl in Hclean.
      destruct (clean y) as [w'|] eqn:Hcy; [|discriminate].
      inversion Hclean; subst. eauto. }
    rewrite Forall_forall in IH.
    inversion Hin as [|? ? Hw| |k w ? Hw Hdeep]; subst.
    + destruct (Hfield _ _ Hw) as (y & _ & Hy & Hclean).
      eapply clean_truthy; eauto.
    + destruct (Hfield _ _ Hw) as (y & Hyin & Hy & Hclean).
      unfold clean in Hclean. destruct (isObject y) eqn:Hobj.
      * eapply (IH (k, y)); eauto.
      * inversion Hclean; subst. exfalso. eapply Inside_primitive; eauto.
Qed.

(** The fields of the result of an object with distinct keys: the
    cleaned truthy entries, in order. *)
Lemma undefinedFields_object_distinct fields result :
  NoDup (map fst fields) ->
  undefinedFields (VObject fields) = Normal result ->
  exists entries,
    map_throwing clean_entry (filter (fun e => truthy (snd e)) fields)
    = Normal entries
    /\ result = VObject entries.
Proof.
  intros Hnd Hrun. rewrite undefinedFields_object in Hrun. unfold bind in Hrun.
  destruct (map_throwing clean_entry _) as [entries|] eqn:Hentries;
    [|discriminate].
  inversion Hrun; subst. exists entries. split; [reflexivity|].
  rewrite Object_fromEntries_distinct; [reflexivity|].
  rewrite (map_clean_entry_keys _ _ Hentries). now apply NoDup_keys_filter.
Qed.

Lemma NoDup_keys_unique (fields : list (string * value)) key v v' :
  NoDup (map fst fields) -> In (key, v) fields -> In (key, v') fields -> v = v'.
Proof.
  induction fields as [|[k0 v0] rest IH]; [contradiction|].
  simpl. intros Hnd Hin Hin'.
  inversion Hnd as [|? ? Hnotin Hrest]; subst.
  destruct Hin as [Hin|Hin]; destruct Hin' as [Hin'|Hin'].
  - congruence.
  - inversion Hin; subst. exfalso. apply Hnotin.
    apply in_map_iff. exists (key, v'). auto.
  - inversion Hin'; subst. exfalso. apply Hnotin.
    apply in_map_iff. exists (key, v). auto.
  - auto.
Qed.

(** C6, as the code has it: [undefinedFields] returns on every array
    and object; whatever is left in its result, at any nesting depth, is
    neither undefined nor null nor an empty string; an empty array is
    truthy, so a field (of an object with distinct keys) or an element
    holding one is kept; and the nested sample keeps its populated fields
    and its empty arrays at both depths. *)
Theorem undefinedFields_strips_nullish_keeps_empty_arrays (obj : value) :
  nullish obj = false ->
  exists result,
    undefinedFields obj = Normal result
    /\ (forall v, Inside v result ->
                  v <> VUndefined /\ v <> VNull /\ v <> VString "")
    /\ (forall key, NoDup (map fst (fields_of obj)) ->
                    In (key, VArray []) (fields_of obj) ->
                    In (key, VArray []) (fields_of result))
    /\ (In (VArray []) (items_of obj) -> In (VArray []) (items_of result))
    /\ undefinedFields Samples.nested = Normal Samples.nested_normalized.
Proof.
  intros Hobj. destruct (undefinedFields_returns obj Hobj) as (result & Hrun).
  exists result. split; [exact Hrun|]. split; [|split; [|split]].
  - intros v Hin.
    pose proof (undefinedFields_inside_truthy obj result v Hrun Hin) as Htruthy.
    repeat split; intros ->; discriminate.
  - intros key Hnd Hin. destruct obj; simpl in Hin; try contradiction.
    simpl fields_of in Hnd.
    destruct (undefinedFields_object_distinct fields result Hnd Hrun)
      as (entries & Hentries & ->).
    destruct (map_throwing_image clean_entry _ entries (key, VArray [])
                Hentries) as (e & He & Hein).
    { apply filter_In. auto. }
    inversion He; subst. exact Hein.
  - intros Hin. destruct obj; simpl in Hin; try contradiction.
    rewrite undefinedFields_array in Hrun. unfold bind in Hrun.
    destruct (map_throwing clean (filter truthy items)) as [kept|] eqn:Hkept;
      [|discriminate].
    inversion Hrun; subst.
    destruct (map_throwing_image clean _ kept (VArray []) Hkept)
      as (e & He & Hein).
    { apply filter_In. auto. }
    inversion He; subst. exact Hein.
  - reflexivity.
Qed.

Lemma undefinedFields_strips_nullish_keeps_empty_arrays_witness :
  exists result,
    undefinedFields Samples.nested = Normal result
    /\ (forall v, Inside v result ->
                  v <> VUndefined /\ v <> VNull /\ v <> VString "")
    /\ In ("list", VArray []) (fields_of result).
Proof.
  destruct (undefinedFields_strips_nullish_keeps_empty_arrays Samples.nested
              eq_refl) as (result & Hrun & Hclean & Hkept & _).
  exists result. split; [exact Hrun|]. split; [exact Hclean|].
  apply Hkept.
  - simpl. repeat constructor; simpl; intuition discriminate.
  - simpl. auto.
Defined.

(** C6 as stated fails on the nested sample: the empty arrays are still
    inside the result, which therefore is not the sample reduced to its
    populated fields. *)
Lemma undefinedFields_keeps_empty_array_counterexample :
  exists result,
    undefinedFields Samples.nested = Normal result
    /\ Inside (VArray []) result
    /\ result <> Samples.nested_populated_only.
Proof.
  eexists. split; [reflexivity|]. split.
  - apply inside_field with (key := "list"). simpl. auto.
  - discriminate.
Qed.

(** C10: [undefinedFields] leaves nothing falsy inside its result, at
    any depth; a field of an object (with distinct keys) whose value is
    falsy, be it 0, false or the empty string, has its key gone from the
    result, and no falsy element is left in an array's result; an
    extra-translation entry of raw rank 4 gets frequency 0 and loses its
    frequency field to the normalizer. *)
Theorem undefinedFields_drops_every_falsy_value (obj result : value) :
  undefinedFields obj = Normal result ->
  (forall v, Inside v result -> truthy v = true)
  /\ (forall key v, NoDup (map fst (fields_of obj)) ->
                    In (key, v) (fields_of obj) -> truthy v = false ->
                    hasField key (fields_of result) = false)
  /\ (forall v, truthy v = false -> ~ In v (items_of result))
  /\ truthy (int 0) = false /\ truthy (VBool false) = false
  /\ truthy (VString "") = false
  /\ (forall numberOfText,
        exists entry normalized,
          translation_entry numberOfText (Samples.raw_entry 4) = Normal entry
          /\ getField "frequency" (fields_of entry) = int 0
          /\ undefinedFields entry = Normal normalized
          /\ hasField "frequency" (fields_of normalized) = false).
Proof.
  intros Hrun.
  split; [intros v; apply (undefinedFields_inside_truthy obj result v Hrun)|].
  split; [|split].
  - intros key v Hnd Hin Hfalsy. destruct obj; simpl in Hin; try contradiction.
    simpl fields_of in Hnd.
    destruct (undefinedFields_object_distinct fields result Hnd Hrun)
      as (entries & Hentries & ->).
    simpl. unfold hasField.
    destruct (existsb _ _) eqn:Hex; [|reflexivity].
    apply existsb_exists in Hex. destruct Hex as ([k w] & Hk & Heq).
    simpl in Heq. apply String.eqb_eq in Heq. subst k.
    destruct (map_throwing_In clean_entry _ _ _ Hentries Hk)
      as ([k' y] & Hy & Hclean).
    apply clean_entry_key in Hclean as Hkey. simpl in Hkey. subst k'.
    apply filter_In in Hy. destruct Hy as [Hy Htrue]. simpl in Htrue.
    rewrite (NoDup_keys_unique fields key v y Hnd Hin Hy) in Hfalsy.
    congruence.
  - intros v Hfalsy Hin.
    assert (Htrue : truthy v = true); [|congruence].
    apply (undefinedFields_inside_truthy obj result v Hrun).
    destruct result; simpl in Hin; try contradiction.
    now apply inside_item.
  - repeat split. intros numberOfText. do 2 eexists. repeat split.
Qed.

Lemma undefinedFields_drops_every_falsy_value_witness :
  exists result,
    undefinedFields (VObject [("word", VString "casa"); ("frequency", int 0)])
    = Normal result
    /\ hasField "frequency" (fields_of result) = false.
Proof.
  eexists. split; [reflexivity|].
  apply (proj1 (proj2 (undefinedFields_drops_every_falsy_value
                         (VObject [("word", VString "casa");
                                   ("frequency", int 0)])
                         _ eq_refl))
           "frequency" (int 0)).
  - simpl. repeat constructor; simpl; intuition discriminate.
  - simpl. auto.
  - reflexivity.
Defined.

End NormalizerFacts.

(** ** The extra translations *)

Section ExtractorFacts.

Import Extract.

Variable numberOfText : value -> number.

Lemma opt_map_nth_error (f : value -> completion exn value) v out i x :
  opt_map v f = Normal out ->
  nth_error (items_of v) i = Some x ->
  exists y, f x = Normal y
            /\ nth_error (items_of (coalesce out (VArray []))) i = Some y.
Proof.
  intros Hmap Hnth.
  destruct v; simpl in Hnth; try (destruct i; discriminate).
  simpl in Hmap. unfold bind in Hmap.
  destruct (map_throwing _ _) as [ys|] eqn:Hys; [|discriminate].
  inversion Hmap; subst. simpl.
  eapply map_throwing_nth_error; eauto.
Qed.

Lemma nth_error_nth_value (l : list value) i x :
  nth_error l i = Some x -> nth i l VUndefined = x.
Proof. intros H. now apply nth_error_nth. Qed.

(** C9: when [list.translations] returns, the entry it emits for group
    [i], entry [j] of the payload carries as [frequency] the number 4
    minus the rank found at position 3 of that raw entry; hence a lower
    raw rank comes out as a higher frequency. *)
Theorem translations_frequency_is_four_minus_rank
  (data out : value) (i j : nat) (gparts eparts : list value) (rank : Z) :
  translations numberOfText data = Normal out ->
  nth_error (items_of (opt_index (opt_index (at_index data 3) 5) 0)) i
    = Some (VArray gparts) ->
  nth_error (items_of (nth 1 gparts VUndefined)) j = Some (VArray eparts) ->
  nth 3 eparts VUndefined = int rank ->
  let emitted :=
    nth j (items_of (getField "list"
                       (fields_of (nth i (items_of out) VUndefined))))
        VUndefined in
  getField "frequency" (fields_of emitted) = int (4 - rank)
  /\ getField "word" (fields_of emitted) = nth 0 eparts VUndefined
  /\ forall rank', rank < rank' -> 4 - rank' < 4 - rank.
Proof.
  intros Hrun Hgroup Hentry Hrank emitted.
  assert (Hshape :
            emitted
            = VObject [("word", nth 0 eparts VUndefined);
                       ("article", coalesce (nth 1 eparts VUndefined) VUndefined);
                       ("meanings", nth 2 eparts VUndefined);
                       ("frequency", int (4 - rank))]).
  { subst emitted.
    match goal with |- _ = ?rhs => set (shape := rhs) end.
    unfold translations in Hrun.
    destruct (nullish data); [discriminate|].
    unfold bind in Hrun.
    destruct (opt_map _ (translation_group _)) as [groups|] eqn:Hgroups;
      [|discriminate].
    inversion Hrun; subst out; clear Hrun.
    destruct (opt_map_nth_error _ _ _ _ _ Hgroups Hgroup) as (g & Hg & Hgi).
    rewrite (nth_error_nth_value _ _ _ Hgi).
    unfold translation_group in Hg. simpl iterate in Hg. unfold bind in Hg.
    destruct (opt_map _ (translation_entry _)) as [entries|] eqn:Hentries;
      [|discriminate].
    inversion Hg; subst g; clear Hg. simpl.
    destruct (opt_map_nth_error _ _ _ _ _ Hentries Hentry) as (e & He & Hej).
    rewrite (nth_error_nth_value _ _ _ Hej).
    unfold translation_entry in He. simpl in He.
    inversion He; subst e; clear He.
    rewrite Hrank. reflexivity. }
  rewrite Hshape.
  split; [reflexivity|]. split; [reflexivity|]. intros rank' Hlt. lia.
Qed.

End ExtractorFacts.

Lemma translations_frequency_is_four_minus_rank_witness :
  exists out,
    Extract.translations (fun _ => NaN) Samples.payload = Normal out
    /\ getField "frequency"
         (fields_of (nth 0 (items_of (getField "list"
                                        (fields_of (nth 0 (items_of out) VUndefined))))
                         VUndefined))
       = int 3.
Proof.
  eexists. split; [reflexivity|].
  apply (@translations_frequency_is_four_minus_rank
           (fun _ => NaN) Samples.payload _ 0%nat 0%nat
           [VString "noun"; VArray [Samples.raw_entry 1; Samples.raw_entry 4]]
           [VString "casa"; VNull; VArray [VString "house"; VString "home"]; int 1]
           1); reflexivity.
Defined.

(** ** The world under one call *)

Section WorldFacts.

Lemma after_calls_refl w : after_calls 0 w w.
Proof. unfold after_calls. repeat split. lia. Qed.

Lemma after_calls_trans j k w1 w2 w3 :
  after_calls j w1 w2 -> after_calls k w2 w3 -> after_calls (j + k) w1 w3.
Proof.
  unfold after_calls. intros (Ht & Ha & Hc) (Ht' & Ha' & Hc').
  repeat split; try congruence. lia.
Qed.

Lemma write_after_calls l t a w : after_calls 0 w (write l t a w).
Proof. unfold after_calls, calls. simpl. repeat split. lia. Qed.

Lemma write_console l t a w :
  console (write l t a w) = (console w ++ [{| level := l; text := t; args := a |}])%list.
Proof. reflexivity. Qed.

Lemma send_after_calls req w : after_calls 1 w (snd (send req w)).
Proof.
  unfold after_calls, send, calls.
  destruct (transport w _ req) as [r|sent m]; [destruct (accepts _ _)|];
    simpl; rewrite ?length_app; simpl; repeat split; lia.
Qed.

Lemma send_console req w : console (snd (send req w)) = console w.
Proof.
  unfold send.
  destruct (transport w _ req) as [r|sent m]; [destruct (accepts _ _)|];
    reflexivity.
Qed.

Lemma count_level_write l l' t a w :
  count_level l (write l' t a w)
  = (count_level l w
     + match l', l with
       | LError, LError | LWarn, LWarn | LLog, LLog => 1
       | _, _ => 0
       end)%nat.
Proof.
  unfold count_level. rewrite write_console, filter_app, length_app. simpl.
  destruct l', l; reflexivity.
Qed.

End WorldFacts.

(** ** Strings in full *)

Section UnicodeFacts.

(** A code unit below 256 is no surrogate, and is escaped as the
    model of the strings below 256 escapes it. *)
Lemma code_unit_of_ascii c :
  Unicode.unreserved_unit (N_of_ascii c) = unreserved c
  /\ Unicode.trailing_surrogate (N_of_ascii c) = false
  /\ Unicode.leading_surrogate (N_of_ascii c) = false
  /\ ascii_of_N (N_of_ascii c) = c
  /\ (unreserved c = false ->
      Unicode.utf8_escape (N_of_ascii c) = encode_unit c).
Proof.
  destruct c as [[] [] [] [] [] [] [] []]; vm_compute;
    repeat split; intros; congruence.
Qed.

(** On the strings of code units below 256 the built-in does not throw
    and is [JS.encodeURIComponent]. *)
Lemma encodeURIComponent_code_units s :
  Unicode.encodeURIComponent (Unicode.code_units s)
  = (Normal (JS.encodeURIComponent s) : completion exn string).
Proof.
  unfold Unicode.code_units. induction s as [|c rest IH]; [reflexivity|].
  cbn [list_ascii_of_string map Unicode.encodeURIComponent].
  destruct (code_unit_of_ascii c) as (Hu & Ht & Hl & Hc & He).
  rewrite Hu, Ht, Hl, IH, Hc. cbn [bind JS.encodeURIComponent].
  destruct (unreserved c) eqn:Hunreserved.
  - unfold encode_unit. now rewrite Hunreserved.
  - now rewrite (He eq_refl).
Qed.

Lemma unreserved_unit_is_no_surrogate u :
  Unicode.unreserved_unit u = true ->
  Unicode.trailing_surrogate u = false /\ Unicode.leading_surrogate u = false.
Proof.
  unfold Unicode.unreserved_unit, Unicode.trailing_surrogate,
    Unicode.leading_surrogate.
  intros Hu. apply andb_prop in Hu. destruct Hu as [Hlow _].
  apply N.ltb_lt in Hlow.
  split; apply andb_false_iff; left; apply N.leb_gt; lia.
Qed.

(** [encodeURIComponent] throws exactly on the strings that are not
    well formed, and then a URIError. *)
Lemma encodeURIComponent_isWellFormed : forall n s,
  (List.length s <= n)%nat ->
  match (Unicode.encodeURIComponent s : completion exn string) with
  | Throw error =>
      error = URIError "URI malformed" /\ Unicode.isWellFormed s = false
  | Normal _ => Unicode.isWellFormed s = true
  end.
Proof.
  induction n as [|n IH]; intros [|first rest] Hlen; simpl in Hlen;
    try lia; try reflexivity.
  cbn [Unicode.encodeURIComponent Unicode.isWellFormed].
  destruct (Unicode.unreserved_unit first) eqn:Hu.
  - destruct (unreserved_unit_is_no_surrogate first Hu) as [-> ->].
    specialize (IH rest ltac:(lia)).
    destruct (Unicode.encodeURIComponent rest); exact IH.
  - destruct (Unicode.trailing_surrogate first); [split; reflexivity|].
    destruct (Unicode.leading_surrogate first).
    + destruct rest as [|second rest']; [split; reflexivity|].
      destruct (Unicode.trailing_surrogate second); [|split; reflexivity].
      specialize (IH rest' ltac:(simpl in Hlen; lia)).
      destruct (Unicode.encodeURIComponent rest'); exact IH.
    + specialize (IH rest ltac:(lia)).
      destruct (Unicode.encodeURIComponent rest); exact IH.
Qed.

Lemma encodeURIComponent_well_formed s :
  Unicode.isWellFormed s = true ->
  exists escaped,
    Unicode.encodeURIComponent s = (Normal escaped : completion exn string).
Proof.
  intros Hwell.
  pose proof (encodeURIComponent_isWellFormed (List.length s) s (le_n _)) as H.
  destruct (Unicode.encodeURIComponent s) as [escaped|error]; [eauto|].
  destruct H as [_ H]. congruence.
Qed.

Lemma encodeURIComponent_malformed s :
  Unicode.isWellFormed s = false ->
  Unicode.encodeURIComponent s
  = (Throw (URIError "URI malformed") : completion exn string).
Proof.
  intros Hbad.
  pose proof (encodeURIComponent_isWellFormed (List.length s) s (le_n _)) as H.
  destruct (Unicode.encodeURIComponent s) as [escaped|error]; [congruence|].
  destruct H as [-> _]. reflexivity.
Qed.



End UnicodeFacts.

(** ** The wrapper that resolves to null *)

Section SwallowFacts.

Import Swallow.

Local Ltac known_case w :=
  match goal with
  | |- context [send ?r w] =>
      exists r; split; [reflexivity | destruct (send r w); reflexivity]
  end.

Lemma retrieve_known endpoint params w :
  Endpoint.known endpoint = true ->
  exists req,
    validateStatus (config req) = None
    /\ retrieve endpoint params w = (Normal (fst (send req w)), snd (send req w)).
Proof.
  unfold Endpoint.known, retrieve, axios_post, axios_get. intros Hknown.
  destruct (endpoint =? Endpoint.INFO)%string.
  { known_case w. }
  destruct (endpoint =? Endpoint.TEXT)%string.
  { known_case w. }
  destruct (endpoint =? Endpoint.AUDIO)%string; [|discriminate].
  known_case w.
Qed.

Lemma retrieve_unknown endpoint params w :
  Endpoint.known endpoint = false ->
  retrieve endpoint params w
  = (Throw (Error ("Invalid endpoint: " ++ endpoint)), w).
Proof.
  unfold Endpoint.known, retrieve. intros Hunknown.
  destruct (endpoint =? Endpoint.INFO)%string; [discriminate|].
  destruct (endpoint =? Endpoint.TEXT)%string; [discriminate|].
  destruct (endpoint =? Endpoint.AUDIO)%string; [discriminate|].
  reflexivity.
Qed.

(** [doing] in the source's shape, one level unfolded. *)
Lemma doing_unfold endpoint params callback retry promise w :
  doing endpoint params callback retry promise w
  = let after_then :=
      match promise with
      | Rejected error => (Rejected error, w)
      | Resolved response =>
          match callback response with
          | Throw error => (Rejected error, w)
          | Normal result =>
              if isEmpty result && (retry <? 3)%nat
              then reissue endpoint params callback retry
                     (console_warn (empty_warning endpoint retry) [] w)
              else (Resolved (coalesce result VNull), w)
          end
      end in
    match after_then with
    | (Resolved result, w') => (Resolved result, w')
    | (Rejected error, w') =>
        if shouldRetry error && (retry <? 3)%nat
        then reissue endpoint params callback retry
               (console_warn (retry_warning endpoint retry) []
                  (report endpoint error w'))
        else (Resolved VNull, report endpoint error w')
    end.
Proof.
  rewrite doing_equation_1. unfold reissue.
  destruct (lt_dec retry 3) as [Hlt|Hge];
    [apply Nat.ltb_lt in Hlt|apply Nat.ltb_nlt in Hge];
    rewrite ?Hlt, ?Hge;
    (destruct promise as [response|error]; cbv zeta;
     [destruct (callback response) as [result|error];
      [destruct (isEmpty result)|]|]);
    simpl andb; try reflexivity;
    try (destruct (shouldRetry error); reflexivity).
  cbv iota.
  destruct (retrieve endpoint params _) as [[next|thrown] w2];
    [destruct (doing _ _ _ _ next w2) as [[v|e] w3]|]; try reflexivity;
    (destruct (shouldRetry _); reflexivity).
Qed.

Lemma report_after_calls endpoint error w :
  after_calls 0 w (report endpoint error w).
Proof.
  unfold report. destruct (response_of error); [|destruct (request_of error)];
    apply write_after_calls.
Qed.

Lemma report_counts endpoint error w :
  count_level LError (report endpoint error w) = S (count_level LError w)
  /\ count_level LWarn (report endpoint error w) = count_level LWarn w.
Proof.
  unfold report. destruct (response_of error); [|destruct (request_of error)];
    unfold console_error; rewrite !count_level_write; split; lia.
Qed.

(** A call with budget left: what [doing] does in the end is resolve,
    after at most [3 - retry] further HTTP calls. *)
Lemma doing_resolves_within_budget : forall k retry,
  (3 - retry = k)%nat ->
  forall endpoint params callback promise w,
    Endpoint.known endpoint = true ->
    exists v w' j,
      doing endpoint params callback retry promise w = (Resolved v, w')
      /\ (j <= k)%nat /\ after_calls j w w'.
Proof.
  induction k as [|k IH];
    intros retry Hk endpoint params callback promise w Hknown;
    rewrite doing_unfold.
  - assert (Hcap : (retry <? 3)%nat = false) by (apply Nat.ltb_ge; lia).
    rewrite Hcap.
    destruct promise as [response|error]; cbv zeta;
      [destruct (callback response) as [result|error]|];
      rewrite ?andb_false_r; cbv iota beta;
      rewrite ?andb_false_r;
      do 2 eexists; exists 0%nat; (split; [reflexivity|]); split;
      auto using after_calls_refl, report_after_calls.
  - assert (Hcap : (retry <? 3)%nat = true) by (apply Nat.ltb_lt; lia).
    assert (Hreissue : forall w0,
              exists v w' j,
                reissue endpoint params callback retry w0 = (Resolved v, w')
                /\ (j <= S k)%nat /\ after_calls j w0 w').
    { intros w0. unfold reissue.
      destruct (retrieve_known endpoint params w0 Hknown) as (req & _ & ->).
      destruct (IH (retry + 1)%nat ltac:(lia) endpoint params callback
                  (fst (send req w0)) (snd (send req w0)) Hknown)
        as (v & w' & j & Hrun & Hj & Hafter).
      exists v, w', (1 + j)%nat. split; [exact Hrun|]. split; [lia|].
      eapply after_calls_trans; [apply send_after_calls|exact Hafter]. }
    rewrite Hcap.
    assert (Hcatch : forall error w0,
              after_calls 0 w w0 ->
              exists v w' j,
                (if shouldRetry error && true
                 then reissue endpoint params callback retry
                        (console_warn (retry_warning endpoint retry) []
                           (report endpoint error w0))
                 else (Resolved VNull, report endpoint error w0))
                = (Resolved v, w')
                /\ (j <= S k)%nat /\ after_calls j w w').
    { intros error w0 Hw0. destruct (shouldRetry error); simpl andb; cbv iota.
      - destruct (Hreissue (console_warn (retry_warning endpoint retry) []
                              (report endpoint error w0)))
          as (v & w' & j & Hrun & Hj & Hafter).
        exists v, w', j. split; [exact Hrun|]. split; [exact Hj|].
        change j with (0 + (0 + (0 + j)))%nat.
        eapply after_calls_trans; [exact Hw0|].
        eapply after_calls_trans; [apply report_after_calls|].
        eapply after_calls_trans; [apply write_after_calls|exact Hafter].
      - do 2 eexists. exists 0%nat. split; [reflexivity|]. split; [lia|].
        change 0%nat with (0 + 0)%nat.
        eapply after_calls_trans; [exact Hw0|apply report_after_calls]. }
    destruct promise as [response|error]; cbv zeta;
      [destruct (callback response) as [result|error]|].
    + destruct (isEmpty result); simpl andb; cbv iota.
      * destruct (Hreissue (console_warn (empty_warning endpoint retry) [] w))
          as (v & w' & j & -> & Hj & Hafter).
        exists v, w', j. split; [reflexivity|]. split; [exact Hj|].
        change j with (0 + j)%nat.
        eapply after_calls_trans; [apply write_after_calls|exact Hafter].
      * do 2 eexists. exists 0%nat. split; [reflexivity|]. split; [lia|].
        apply after_calls_refl.
    + apply Hcatch, after_calls_refl.
    + apply Hcatch, after_calls_refl.
Qed.


Lemma always_5xx_after k w w' :
  after_calls k w w' -> always_5xx w -> always_5xx w'.
Proof. intros (Ht & _) H n req. rewrite Ht. apply H. Qed.


Lemma send_fails_5xx req w :
  always_5xx w -> validateStatus (config req) = None ->
  exists m r, fst (send req w) = Rejected (AxiosError m true (Some r))
              /\ 500 <= status r <= 599.
Proof.
  intros H5xx Hdefault. unfold send, accepts. rewrite Hdefault.
  destruct (H5xx (calls w) req) as (r & -> & Hstatus).
  replace ((200 <=? status r) && (status r <? 300)) with false
    by (symmetry; apply andb_false_iff; right; apply Z.ltb_ge; lia).
  do 2 eexists. split; [reflexivity|exact Hstatus].
Qed.


(** Against a transport that always answers 5xx, a call that failed
    with a 5xx response uses up the whole budget: [3 - retry] further
    calls, one error line per failure, one warning per retry, and null
    in the end. *)
Lemma doing_always_5xx : forall k retry,
  (3 - retry = k)%nat ->
  forall endpoint params callback m r w,
    Endpoint.known endpoint = true -> always_5xx w -> 500 <= status r <= 599 ->
    exists w',
      doing endpoint params callback retry
        (Rejected (AxiosError m true (Some r))) w = (Resolved VNull, w')
      /\ after_calls k w w'
      /\ count_level LError w' = (count_level LError w + S k)%nat
      /\ count_level LWarn w' = (count_level LWarn w + k)%nat.
Proof.
  induction k as [|k IH];
    intros retry Hk endpoint params callback m r w Hknown H5xx Hstatus;
    rewrite doing_unfold; cbv zeta iota beta;
    destruct (report_counts endpoint (AxiosError m true (Some r)) w)
      as (Herr & Hwarn).
  - assert (Hcap : (retry <? 3)%nat = false) by (apply Nat.ltb_ge; lia).
    rewrite Hcap, andb_false_r. eexists. split; [reflexivity|].
    split; [apply report_after_calls|]. lia.
  - assert (Hcap : (retry <? 3)%nat = true) by (apply Nat.ltb_lt; lia).
    rewrite Hcap, andb_true_r.
    replace (shouldRetry (AxiosError m true (Some r))) with true
      by (symmetry; apply Z.leb_le; simpl; lia).
    unfold reissue.
    match goal with |- context [retrieve endpoint params ?w0] =>
      destruct (retrieve_known endpoint params w0 Hknown) as (req & Hdefault & ->);
      assert (Hstep : after_calls 0 w w0)
        by (change 0%nat with (0 + 0)%nat;
            eapply after_calls_trans;
            [apply report_after_calls|apply write_after_calls]);
      assert (Hwarn0 : count_level LWarn w0 = S (count_level LWarn w))
        by (unfold console_warn; rewrite count_level_write; lia);
      assert (Herr0 : count_level LError w0 = S (count_level LError w))
        by (unfold console_warn; rewrite count_level_write; lia);
      assert (H5xx0 : always_5xx w0)
        by (eapply always_5xx_after; [exact Hstep|exact H5xx]);
      destruct (send_fails_5xx req _ H5xx0 Hdefault) as (m' & r' & Hsend & Hstatus');
      pose proof (send_after_calls req w0) as Hsent;
      pose proof (send_console req w0) as Hconsole;
      rewrite Hsend
    end.
    destruct (IH (retry + 1)%nat ltac:(lia) endpoint params callback m' r'
                (snd (send req _)) Hknown
                ltac:(eapply always_5xx_after; [exact Hsent|exact H5xx0])
                Hstatus')
      as (w' & Hrun & Hafter & Herr' & Hwarn').
    exists w'. split; [exact Hrun|]. split.
    + replace (S k) with (0 + (1 + k))%nat by lia.
      eapply after_calls_trans; [exact Hstep|].
      eapply after_calls_trans; [exact Hsent|exact Hafter].
    + unfold count_level in *. rewrite Hconsole in *. lia.
Qed.

Lemma reissue_resolves endpoint params callback retry w :
  Endpoint.known endpoint = true ->
  exists v w' j,
    reissue endpoint params callback retry w = (Resolved v, w')
    /\ (1 <= j <= S (3 - (retry + 1)))%nat /\ after_calls j w w'.
Proof.
  intros Hknown. unfold reissue.
  destruct (retrieve_known endpoint params w Hknown) as (req & _ & ->).
  destruct (doing_resolves_within_budget _ (retry + 1)%nat eq_refl
              endpoint params callback (fst (send req w)) (snd (send req w))
              Hknown) as (v & w' & j & Hrun & Hj & Hafter).
  exists v, w', (1 + j)%nat. split; [exact Hrun|]. split; [lia|].
  eapply after_calls_trans; [apply send_after_calls|exact Hafter].
Qed.

Lemma request_known endpoint retry params w :
  Endpoint.known endpoint = true ->
  exists req,
    validateStatus (config req) = None
    /\ request endpoint retry params w
       = (Normal {| promise := fst (send req w);
                    h_doing := fun callback =>
                                 doing endpoint params callback retry
                                   (fst (send req w)) |},
          snd (send req w)).
Proof.
  intros Hknown. unfold request.
  destruct (retrieve_known endpoint params w Hknown) as (req & Hdefault & ->).
  exists req. split; [exact Hdefault|reflexivity].
Qed.

(** C5: a selector outside info, text and audio makes
    [request(endpoint).with(params)] throw at once, with a message that
    carries the selector; no promise is made and no call is issued. *)
Theorem request_throws_on_unknown_endpoint endpoint retry params w :
  Endpoint.known endpoint = false ->
  request endpoint retry params w
  = (Throw (Error ("Invalid endpoint: " ++ endpoint)), w).
Proof.
  intros Hunknown. unfold request. now rewrite retrieve_unknown.
Qed.

Lemma request_throws_on_unknown_endpoint_witness :
  request "invalid" 0 (InfoParams "") (Samples.mocked [] (Samples.ok VNull))
  = (Throw (Error "Invalid endpoint: invalid"),
     Samples.mocked [] (Samples.ok VNull)).
Proof.
  apply (request_throws_on_unknown_endpoint "invalid" 0 (InfoParams "")
           (Samples.mocked [] (Samples.ok VNull))).
  reflexivity.
Defined.

Lemma send_answers req w r :
  (forall q, transport w (calls w) q = Answered r) ->
  200 <= status r < 300 ->
  validateStatus (config req) = None ->
  fst (send req w) = Resolved r.
Proof.
  intros Hreply Hstatus Hdefault. unfold send, accepts.
  rewrite Hreply, Hdefault.
  replace ((200 <=? status r) && (status r <? 300)) with true; [reflexivity|].
  symmetry. apply andb_true_iff. split; [apply Z.leb_le|apply Z.ltb_lt]; lia.
Qed.





(** C2: a call through the wrapper always ends, having issued the
    first HTTP call and at most [3 - retry] more, four in all for a fresh
    call ([retry = 0]); against a transport that always answers 5xx it
    issues exactly that many, logs one error per call and one warning
    per retry, and resolves to null. *)
Theorem request_stops_after_four_calls endpoint retry params w :
  Endpoint.known endpoint = true ->
  exists handle w1,
    request endpoint retry params w = (Normal handle, w1)
    /\ forall callback, exists result w2,
         h_doing handle callback w1 = (result, w2)
         /\ (calls w < calls w2 <= calls w + S (3 - retry))%nat
         /\ (always_5xx w ->
             result = Resolved VNull
             /\ calls w2 = (calls w + S (3 - retry))%nat
             /\ count_level LError w2
                = (count_level LError w + S (3 - retry))%nat
             /\ count_level LWarn w2 = (count_level LWarn w + (3 - retry))%nat).
Proof.
  intros Hknown.
  destruct (request_known endpoint retry params w Hknown)
    as (req & Hdefault & ->).
  do 2 eexists. split; [reflexivity|]. intros callback.
  cbn [h_doing promise].
  pose proof (send_after_calls req w) as Hsent.
  destruct (doing_resolves_within_budget _ retry eq_refl
              endpoint params callback (fst (send req w)) (snd (send req w))
              Hknown) as (v & w2 & j & Hrun & Hj & Hafter).
  exists (Resolved v), w2. split; [exact Hrun|].
  destruct Hsent as (Ht & Ha & Hc). destruct Hafter as (_ & _ & Hc').
  split; [lia|].
  intros H5xx.
  destruct (send_fails_5xx req w H5xx Hdefault) as (m & r & Hsend & Hstatus).
  rewrite Hsend in Hrun.
  destruct (doing_always_5xx _ retry eq_refl endpoint params callback
              m r (snd (send req w)) Hknown
              ltac:(eapply always_5xx_after;
                    [apply send_after_calls|exact H5xx]) Hstatus)
    as (w' & Hrun' & (_ & _ & Hcalls) & Herr & Hwarn).
  rewrite Hrun in Hrun'. inversion Hrun'; subst w'.
  pose proof (send_console req w) as Hconsole.
  unfold count_level in *. rewrite Hconsole in *.
  repeat split; try congruence; lia.
Qed.

Lemma always_5xx_mocked : always_5xx (Samples.mocked [] Samples.server_error).
Proof.
  intros n req. eexists. split.
  - simpl. destruct n; reflexivity.
  - simpl. lia.
Qed.

Lemma request_stops_after_four_calls_witness :
  exists handle w1 w2,
    request Endpoint.TEXT 0 Samples.text_params
      (Samples.mocked [] Samples.server_error) = (Normal handle, w1)
    /\ h_doing handle Samples.success_or_failure w1 = (Resolved VNull, w2)
    /\ calls w2 = 4%nat
    /\ count_level LError w2 = 4%nat
    /\ count_level LWarn w2 = 3%nat.
Proof.
  destruct (request_stops_after_four_calls Endpoint.TEXT 0 Samples.text_params
              (Samples.mocked [] Samples.server_error) eq_refl)
    as (handle & w1 & Hrequest & Hdoing).
  destruct (Hdoing Samples.success_or_failure)
    as (result & w2 & Hrun & _ & Hworst).
  destruct (Hworst always_5xx_mocked) as (-> & Hcalls & Herr & Hwarn).
  exists handle, w1, w2. repeat split; assumption.
Defined.

Lemma shouldRetry_spec error :
  shouldRetry error = true
  <-> (response_of error = None
       \/ exists r, response_of error = Some r /\ 500 <= status r).
Proof.
  unfold shouldRetry. destruct (response_of error) as [r|].
  - rewrite Z.leb_le. split.
    + intros H. right. exists r. auto.
    + intros [H|(r' & H & Hs)]; [discriminate|]. inversion H; subst. exact Hs.
  - split; auto.
Qed.

(** C3, as the code has it: a failed call is followed by another HTTP
    call exactly when fewer than three retries were made and the failure
    has no response or a status of 500 or more; the retry is the
    re-issue with [retry + 1], and without it the call ends in null with
    no further request.  A 429, like any other status below 500, is not
    retried. *)
Theorem failed_call_retried_iff_no_response_or_5xx
  endpoint params callback retry error w :
  Endpoint.known endpoint = true ->
  let run := doing endpoint params callback retry (Rejected error) w in
  ((calls w < calls (snd run))%nat
   <-> ((retry < 3)%nat
        /\ (response_of error = None
            \/ exists r, response_of error = Some r /\ 500 <= status r)))
  /\ ((calls w < calls (snd run))%nat ->
      run = reissue endpoint params callback retry
              (console_warn (retry_warning endpoint retry) []
                 (report endpoint error w)))
  /\ (~ (calls w < calls (snd run))%nat ->
      run = (Resolved VNull, report endpoint error w)).
Proof.
  intros Hknown run. subst run. rewrite doing_unfold. cbv zeta iota beta.
  rewrite <- shouldRetry_spec, <- (Nat.ltb_lt retry 3).
  destruct (reissue_resolves endpoint params callback retry
              (console_warn (retry_warning endpoint retry) []
                 (report endpoint error w)) Hknown)
    as (v & w' & j & Hrun & Hj & (_ & _ & Hcalls)).
  destruct (report_after_calls endpoint error w) as (_ & _ & Hreport).
  assert (Hwarned :
            calls (console_warn (retry_warning endpoint retry) []
                     (report endpoint error w)) = calls w).
  { destruct (write_after_calls LWarn (retry_warning endpoint retry) []
                (report endpoint error w)) as (_ & _ & Hw).
    unfold console_warn. lia. }
  destruct (shouldRetry error); destruct (retry <? 3)%nat; simpl andb;
    cbv iota; rewrite ?Hrun; simpl snd.
  - split; [split; [auto|intros _; lia]|].
    split; [reflexivity|]. intros Hnot. exfalso. apply Hnot. lia.
  - split; [split; [intros; lia|intros [H _]; discriminate]|].
    split; [intros; lia|reflexivity].
  - split; [split; [intros; lia|intros [_ H]; discriminate]|].
    split; [intros; lia|reflexivity].
  - split; [split; [intros; lia|intros [_ H]; discriminate]|].
    split; [intros; lia|reflexivity].
Qed.

Lemma failed_call_retried_iff_no_response_or_5xx_witness :
  (calls (Samples.mocked [] Samples.network_error)
   < calls (snd (doing Endpoint.TEXT Samples.text_params Samples.data_or_null 0
                   (Rejected (AxiosError "Network Error" true None))
                   (Samples.mocked [] Samples.network_error))))%nat.
Proof.
  apply (proj1 (failed_call_retried_iff_no_response_or_5xx
                  Endpoint.TEXT Samples.text_params Samples.data_or_null 0
                  (AxiosError "Network Error" true None)
                  (Samples.mocked [] Samples.network_error) eq_refl)).
  split; [lia|]. left. reflexivity.
Defined.

(** C3 as stated fails on the rate-limit status: the spec counts a 429
    as retryable, and the wrapper, given a transport that answers 429,
    issues the one call, does not retry, and resolves to null. *)
Lemma rate_limited_call_is_not_retried_counterexample :
  retryable_per_spec Samples.error_429 = true
  /\ exists handle w1 w2,
       request Endpoint.TEXT 0 Samples.text_params
         (Samples.mocked [] Samples.rate_limited) = (Normal handle, w1)
       /\ promise handle = Rejected Samples.error_429
       /\ h_doing handle Samples.data_or_null w1 = (Resolved VNull, w2)
       /\ calls w2 = 1%nat.
Proof.
  split; [reflexivity|].
  do 3 eexists. split; [reflexivity|]. split; [reflexivity|].
  split; [vm_compute; reflexivity|reflexivity].
Qed.

Lemma isEmpty_false_not_nullish v :
  isEmpty v = false -> coalesce v VNull = v.
Proof. destruct v; simpl; try reflexivity; discriminate. Qed.

(** C4: when the callback yields undefined, null, the empty string or
    the empty array and fewer than three retries were made, [doing] is
    the re-issue of the call with the same parameters and [retry + 1]
    (after the warning); and when the transport answers the first call
    with a response the callback finds empty and the second with one it
    finds populated, exactly two calls are issued and the populated
    result is returned. *)
Theorem empty_result_is_reissued endpoint params callback :
  Endpoint.known endpoint = true ->
  (forall retry response result w,
      (retry < 3)%nat ->
      callback response = Normal result ->
      In result [VUndefined; VNull; VString ""; VArray []] ->
      doing endpoint params callback retry (Resolved response) w
      = reissue endpoint params callback retry
          (console_warn (empty_warning endpoint retry) [] w))
  /\ (forall w first second empty populated,
        answers w (calls w) first ->
        answers w (S (calls w)) second ->
        callback first = Normal empty -> isEmpty empty = true ->
        callback second = Normal populated -> isEmpty populated = false ->
        exists handle w1 w2,
          request endpoint 0 params w = (Normal handle, w1)
          /\ h_doing handle callback w1 = (Resolved populated, w2)
          /\ calls w2 = (calls w + 2)%nat).
Proof.
  intros Hknown. split.
  - intros retry response result w Hcap Hcallback Hempty.
    rewrite doing_unfold, Hcallback. cbv zeta iota beta.
    apply Nat.ltb_lt in Hcap. rewrite Hcap.
    assert (His : isEmpty result = true).
    { simpl in Hempty. intuition (subst; reflexivity). }
    rewrite His. simpl andb. cbv iota.
    destruct (reissue_resolves endpoint params callback retry
                (console_warn (empty_warning endpoint retry) [] w) Hknown)
      as (v & w' & j & -> & _). reflexivity.
  - intros w first second empty populated (Hfirst & Hok1) (Hsecond & Hok2)
           Hcb1 Hempty Hcb2 Hpopulated.
    destruct (request_known endpoint 0 params w Hknown)
      as (req & Hdefault & ->).
    set (w1 := console_warn (empty_warning endpoint 0) [] (snd (send req w))).
    assert (Hw1 : after_calls 1 w w1).
    { change 1%nat with (1 + 0)%nat.
      eapply after_calls_trans; [apply send_after_calls|].
      apply write_after_calls. }
    destruct Hw1 as (Ht & _ & Hc).
    destruct (retrieve_known endpoint params w1 Hknown)
      as (req2 & Hdefault2 & Hretrieve).
    assert (Hreply2 : forall q, transport w1 (calls w1) q = Answered second).
    { intros q. rewrite Ht, Hc. replace (calls w + 1)%nat with (S (calls w))
        by lia. apply Hsecond. }
    do 2 eexists. exists (snd (send req2 w1)).
    split; [reflexivity|]. cbn [h_doing promise].
    rewrite (send_answers req w first Hfirst Hok1 Hdefault).
    rewrite doing_unfold, Hcb1, Hempty. cbv zeta iota beta. simpl andb.
    cbv iota. unfold reissue. fold w1. rewrite Hretrieve.
    rewrite (send_answers req2 w1 second Hreply2 Hok2 Hdefault2).
    rewrite doing_unfold, Hcb2, Hpopulated. cbv zeta iota beta. simpl andb.
    cbv iota. rewrite (isEmpty_false_not_nullish _ Hpopulated).
    split; [reflexivity|].
    pose proof (send_after_calls req2 w1) as (_ & _ & Hc2). lia.
Qed.

Lemma empty_result_is_reissued_witness :
  exists handle w1 w2,
    request Endpoint.TEXT 0 Samples.text_params
      (Samples.mocked [Samples.ok (VString "")]
                      (Samples.ok (VString "Data on retry")))
    = (Normal handle, w1)
    /\ h_doing handle Samples.data_or_null w1
       = (Resolved (VString "Data on retry"), w2)
    /\ calls w2 = 2%nat.
Proof.
  apply (proj2 (empty_result_is_reissued Endpoint.TEXT Samples.text_params
                  Samples.data_or_null eq_refl)
           (Samples.mocked [Samples.ok (VString "")]
                           (Samples.ok (VString "Data on retry")))
           {| status := 200; statusText := "OK"; data := VString "" |}
           {| status := 200; statusText := "OK";
              data := VString "Data on retry" |}
           VNull (VString "Data on retry"));
    try reflexivity; split; try reflexivity; simpl; lia.
Defined.

End SwallowFacts.

(** ** text.ts *)

Section TextFacts.

Import Text.

Variable requestMappings : list (string * string).
Variable cheerio_text : value -> string -> string.
Variable trim : string -> string.

Lemma send_issued req w : issued (snd (send req w)) = (issued w ++ [req])%list.
Proof.
  unfold send.
  destruct (transport w _ req) as [r|sent m]; [destruct (accepts _ _)|];
    reflexivity.
Qed.


(** The term of the query in the URL of the call. *)
Lemma swallow_text_url source target query w :
  exists handle w1,
    Swallow.request Endpoint.TEXT 0 (TextParams source target query) w
    = (Normal handle, w1)
    /\ map url (issued w1)
       = (map url (issued w)
          ++ [("https://translate.google.com/m?sl=" ++ source ++ "&tl=" ++ target
               ++ "&q=" ++ encodeURIComponent query)%string])%list.
Proof.
  unfold Swallow.request, Swallow.retrieve, axios_get. simpl.
  match goal with |- context [send ?r w] =>
    pose proof (send_issued r w) as Hissued; destruct (send r w) as [p w1]
  end.
  do 2 eexists. split; [reflexivity|].
  simpl in Hissued. rewrite Hissued, map_app. reflexivity.
Qed.

Lemma rethrow_text_url numberOfText source target query w :
  exists handle w1,
    Rethrow.request numberOfText Endpoint.TEXT 0
      (TextParams source target query) w = (Normal handle, w1)
    /\ map url (issued w1)
       = (map url (issued w)
          ++ [("https://translate.google.com/m?sl=" ++ source ++ "&tl=" ++ target
               ++ "&q=" ++ query)%string])%list.
Proof.
  unfold Rethrow.request, Rethrow.retrieve, axios_get. simpl.
  match goal with |- context [send ?r w] =>
    pose proof (send_issued r w) as Hissued; destruct (send r w) as [p w1]
  end.
  do 2 eexists. split; [reflexivity|].
  simpl in Hissued. rewrite Hissued, map_app. reflexivity.
Qed.

End TextFacts.


Section EscapingFacts.

Lemma encodeURIComponent_app s t :
  encodeURIComponent (s ++ t)
  = encodeURIComponent s ++ encodeURIComponent t.
Proof.
  induction s as [|c rest IH]; simpl; [reflexivity|].
  rewrite IH. generalize (encode_unit c). intros u.
  induction u as [|d u IHu]; simpl; [reflexivity|now rewrite IHu].
Qed.

Lemma length_append s t :
  String.length (s ++ t) = (String.length s + String.length t)%nat.
Proof. induction s; simpl; auto. Qed.

(** An escaped unit is the unit itself or starts with a percent sign. *)
Lemma encode_unit_shape c :
  (unreserved c = true /\ encode_unit c = String c "")
  \/ (unreserved c = false
      /\ exists tail, encode_unit c = String "%" tail
                      /\ (2 <= String.length tail)%nat).
Proof.
  unfold encode_unit. destruct (unreserved c); [left; auto|right].
  split; [reflexivity|].
  destruct (N_of_ascii c <? 128)%N; unfold percent; simpl;
    eexists; (split; [reflexivity|]); simpl; lia.
Qed.

Lemma encodeURIComponent_length s :
  (String.length s <= String.length (encodeURIComponent s))%nat
  /\ (escapes s = true ->
      (String.length s < String.length (encodeURIComponent s))%nat).
Proof.
  induction s as [|c rest [IHle IHlt]]; simpl; [split; [lia|discriminate]|].
  rewrite length_append.
  destruct (encode_unit_shape c) as [(Hc & ->)|(Hc & tail & -> & Htail)];
    rewrite Hc; simpl.
  - split; [lia|]. intros H. apply IHlt in H. lia.
  - split; lia.
Qed.

Lemma encodeURIComponent_escapes s :
  escapes s = true -> escapes (encodeURIComponent s) = true.
Proof.
  induction s as [|c rest IH]; simpl; [discriminate|].
  destruct (encode_unit_shape c) as [(Hc & ->)|(Hc & tail & -> & _)];
    rewrite Hc; simpl.
  - rewrite Hc. simpl. exact IH.
  - reflexivity.
Qed.

Lemma encodeURIComponent_unreserved s :
  escapes s = false -> encodeURIComponent s = s.
Proof.
  induction s as [|c rest IH]; simpl; [reflexivity|].
  intros H. apply orb_false_iff in H. destruct H as [Hc Hrest].
  apply negb_false_iff in Hc.
  unfold encode_unit. rewrite Hc. simpl. now rewrite IH.
Qed.

(** Escaping twice is escaping once only for a string with nothing to
    escape. *)
Lemma encodeURIComponent_twice s :
  encodeURIComponent (encodeURIComponent s) = encodeURIComponent s
  <-> escapes s = false.
Proof.
  split.
  - intros Hsame. destruct (escapes s) eqn:Hs; [|reflexivity].
    apply encodeURIComponent_escapes in Hs.
    apply (proj2 (encodeURIComponent_length _)) in Hs.
    rewrite Hsame in Hs. lia.
  - intros Hs. rewrite !(encodeURIComponent_unreserved s Hs). reflexivity.
Qed.

End EscapingFacts.

(** C8 fails on the wrapper the tests run: [getTranslationText] hands
    [request] the escaped query, the one whose length it checked, and
    [retrieve] escapes it again, so the URL carries the escape of the
    escaped form, which is the escaped form only for a query with
    nothing to escape.  At [hello world] the call goes out with
    [hello%2520world] where the once-escaped form is [hello%20world];
    linked with the wrapper that rethrows, whose [retrieve] puts [query]
    in the URL as it is, the same call carries [hello%20world]. *)
Theorem text_query_is_escaped_twice :
  (forall source target query w,
      exists handle w1,
        Swallow.request Endpoint.TEXT 0
          (TextParams source target (encodeURIComponent query)) w
        = (Normal handle, w1)
        /\ map url (issued w1)
           = (map url (issued w)
              ++ [("https://translate.google.com/m?sl=" ++ source
                   ++ "&tl=" ++ target ++ "&q="
                   ++ encodeURIComponent (encodeURIComponent query))%string])%list)
  /\ (forall query,
         encodeURIComponent (encodeURIComponent query) = encodeURIComponent query
         <-> escapes query = false)
  /\ encodeURIComponent "hello world" = "hello%20world"
  /\ map url
       (issued (snd (Text.getTranslationText Samples.mappings Samples.body_text
                       Samples.no_trim Swallow.request "en" "fr" "hello world"
                       (Samples.mocked [] (Samples.ok (VString "bonjour"))))))
     = ["https://translate.google.com/m?sl=en&tl=fr&q=hello%2520world"]
  /\ map url
       (issued (snd (Text.getTranslationText Samples.mappings Samples.body_text
                       Samples.no_trim (Rethrow.request (fun _ => NaN))
                       "en" "fr" "hello world"
                       (Samples.mocked [] (Samples.ok (VString "bonjour"))))))
     = ["https://translate.google.com/m?sl=en&tl=fr&q=hello%20world"].
Proof.
  split; [intros source target query w; apply swallow_text_url|].
  split; [apply encodeURIComponent_twice|].
  repeat split; vm_compute; reflexivity.
Qed.

(** ** The wrapper that rethrows *)

Section RethrowFacts.

Variable numberOfText : value -> number.

(** [isRetryableError] of this revision does count the rate-limit
    status: no response, a status of 500 or more, or 429. *)
Lemma rethrow_isRetryableError_spec error :
  Rethrow.isRetryableError error = true
  <-> (response_of error = None
       \/ exists r, response_of error = Some r
                    /\ (500 <= status r \/ status r = 429)).
Proof.
  unfold Rethrow.isRetryableError. destruct (response_of error) as [r|].
  - rewrite orb_true_iff, Z.leb_le, Z.eqb_eq. split.
    + intros H. right. exists r. auto.
    + intros [H|(r' & H & Hs)]; [discriminate|]. inversion H; subst. exact Hs.
  - split; auto.
Qed.

(** Its [retrieve] names no selector in the error it throws. *)
Lemma rethrow_throws_on_unknown_endpoint endpoint retry params w :
  Endpoint.known endpoint = false ->
  Rethrow.request numberOfText endpoint retry params w
  = (Throw (Error "Invalid endpoint"), w).
Proof.
  unfold Endpoint.known, Rethrow.request, Rethrow.retrieve. intros Hunknown.
  destruct (endpoint =? Endpoint.INFO)%string; [discriminate|].
  destruct (endpoint =? Endpoint.TEXT)%string; [discriminate|].
  destruct (endpoint =? Endpoint.AUDIO)%string; [discriminate|].
  reflexivity.
Qed.

End RethrowFacts.

(** Against a transport that always answers 500 this revision issues
    four calls and then rejects with the error it built. *)
Lemma rethrow_rejects_when_retries_are_spent :
  exists handle w1 w2,
    Rethrow.request (fun _ => NaN) Endpoint.TEXT 0 Samples.text_params
      (Samples.mocked [] Samples.server_error) = (Normal handle, w1)
    /\ h_doing handle Samples.success_or_failure w1
       = (Rejected (Error "Server error. Please try again."), w2)
    /\ calls w2 = 4%nat.
Proof.
  do 3 eexists. split; [reflexivity|]. split; vm_compute; reflexivity.
Qed.

(** A failed first call followed by empty results costs this revision
    seven calls: the retry after the failure runs its own three, and the
    second [then] of the outer level, seeing the empty result, runs three
    more. *)
Lemma rethrow_can_issue_seven_calls :
  exists handle w1 w2,
    Rethrow.request (fun _ => NaN) Endpoint.TEXT 0 Samples.text_params
      (Samples.mocked [Samples.network_error] (Samples.ok (VString "")))
    = (Normal handle, w1)
    /\ h_doing handle Samples.data_or_null w1 = (Resolved VNull, w2)
    /\ calls w2 = 7%nat.
Proof.
  do 3 eexists. split; [reflexivity|]. split; vm_compute; reflexivity.
Qed.

(** ** The trace of a call through the wrapper that resolves to null *)

Section SwallowTraceFacts.

Lemma grew_refl w : grew w w [].
Proof. unfold grew. now rewrite app_nil_r. Qed.

Lemma grew_trans w1 w2 w3 a b :
  grew w1 w2 a -> grew w2 w3 b -> grew w1 w3 (a ++ b)%list.
Proof.
  unfold grew. intros (Ht & Ha & Hi) (Ht' & Ha' & Hi').
  repeat split; try congruence. now rewrite Hi', Hi, app_assoc.
Qed.

Lemma grew_nil_trans w1 w2 w3 more :
  grew w1 w2 [] -> grew w2 w3 more -> grew w1 w3 more.
Proof. intros H1 H2. apply (grew_trans w1 w2 w3 [] more H1 H2). Qed.

Lemma grew_write l t a w : grew w (write l t a w) [].
Proof. unfold grew. simpl. now rewrite app_nil_r. Qed.

Lemma grew_send req w : grew w (snd (send req w)) [req].
Proof.
  unfold grew, send.
  destruct (transport w _ req) as [r|sent m]; [destruct (accepts _ _)|];
    simpl; auto.
Qed.

Lemma grew_calls w w' more :
  grew w w' more -> calls w' = (calls w + List.length more)%nat.
Proof. intros (_ & _ & Hi). unfold calls. now rewrite Hi, length_app. Qed.

Lemma report_is_one_error endpoint error w :
  exists t a, Swallow.report endpoint error w = write LError t a w.
Proof.
  unfold Swallow.report, console_error.
  destruct (response_of error); [|destruct (request_of error)]; eauto.
Qed.

Lemma send_resolved req w r :
  fst (send req w) = Resolved r -> transport w (calls w) req = Answered r.
Proof.
  unfold send. destruct (transport w (calls w) req) as [r'|sent m].
  - destruct (accepts _ _); simpl; intros H; inversion H. reflexivity.
  - simpl. discriminate.
Qed.

(** The request [Swallow.retrieve] issues depends on the world through the
    user agent only. *)
Lemma retrieve_template endpoint params :
  Endpoint.known endpoint = true ->
  exists template,
    (forall ua, validateStatus (config (template ua)) = None
                /\ user_agent_of (template ua) = Some ua
                /\ same_call (template ua) (template ""))
    /\ forall w,
         Swallow.retrieve endpoint params w
         = (Normal (fst (send (template (UserAgent w)) w)),
            snd (send (template (UserAgent w)) w)).
Proof.
  unfold Endpoint.known, Swallow.retrieve, axios_post, axios_get. intros Hknown.
  destruct (endpoint =? Endpoint.INFO)%string.
  { exists (fun ua =>
              {| method := POST;
                 url := "https://translate.google.com/_/TranslateWebserverUi/data/batchexecute?rpcids=MkEWBc&rt=c";
                 body := p_body params;
                 config :=
                   {| headers := [("User-Agent", ua);
                                  ("Content-Type",
                                   "application/x-www-form-urlencoded")];
                      timeout := 30000; responseType := None;
                      validateStatus := None |} |}).
    split; [intros ua; repeat split|].
    intros w. simpl. destruct (send _ w); reflexivity. }
  destruct (endpoint =? Endpoint.TEXT)%string.
  { exists (fun ua =>
              {| method := GET;
                 url := "https://translate.google.com/m?sl="
                        ++ show (p_source params) ++ "&tl="
                        ++ show (p_target params) ++ "&q="
                        ++ encodeURIComponent_opt (p_query params);
                 body := None;
                 config := Swallow.baseConfig ua |}).
    split; [intros ua; repeat split|].
    intros w. destruct (send _ w); reflexivity. }
  destruct (endpoint =? Endpoint.AUDIO)%string; [|discriminate].
  exists (fun ua =>
            {| method := GET;
               url := "https://translate.google.com/translate_tts?tl="
                      ++ show (p_lang params) ++ "&q="
                      ++ encodeURIComponent_opt (p_text params)
                      ++ "&textlen=" ++ show_number (p_textLength params)
                      ++ "&speed=" ++ show_number (p_speed params)
                      ++ "&client=tw-ob";
               body := None;
               config :=
                 {| headers := [("User-Agent", ua)];
                    timeout := 60000; responseType := Some "arraybuffer";
                    validateStatus := None |} |}).
  split; [intros ua; repeat split|].
  intros w. simpl. destruct (send _ w); reflexivity.
Qed.

Section TraceOfDoing.

Variables (endpoint : string) (params : Params) (callback : Callback).
Variable template : string -> HttpRequest.
Hypothesis template_retrieve :
  forall w,
    Swallow.retrieve endpoint params w
    = (Normal (fst (send (template (UserAgent w)) w)),
       snd (send (template (UserAgent w)) w)).

Lemma traced_reissue k retry :
  (forall promise w,
      traced endpoint params callback template (retry + 1) promise w k) ->
  forall w0,
    exists v w' more,
      Swallow.reissue endpoint params callback retry w0 = (Resolved v, w')
      /\ grew w0 w' more
      /\ (1 <= List.length more <= S k)%nat
      /\ (forall i req, nth_error more i = Some req ->
                        req = template (agents w0 (calls w0 + i)))
      /\ count_level LWarn w' = (count_level LWarn w0 + List.length more - 1)%nat
      /\ (count_level LError w' <= count_level LError w0 + List.length more)%nat
      /\ count_level LLog w' = count_level LLog w0
      /\ (v = VNull
          \/ exists response result,
               callback response = Normal result /\ v = result
               /\ nullish v = false
               /\ exists i req,
                    nth_error more i = Some req
                    /\ transport w0 (calls w0 + i)%nat req = Answered response).
Proof.
  intros IH w0. unfold Swallow.reissue. rewrite template_retrieve.
  set (req := template (UserAgent w0)).
  destruct (IH (fst (send req w0)) (snd (send req w0)))
    as (v & w' & more & Hrun & Hgrew & Hlen & Hnth & Hwarn & Herr & Hlog & Hval).
  pose proof (grew_send req w0) as Hsent.
  pose proof (grew_calls _ _ _ Hsent) as Hcalls. simpl in Hcalls.
  pose proof (send_console req w0) as Hconsole.
  destruct Hsent as (Ht & Ha & Hi).
  exists v, w', (req :: more).
  split; [exact Hrun|].
  split; [apply (grew_trans _ _ _ [req] more (grew_send req w0) Hgrew)|].
  split; [simpl; lia|].
  split.
  { intros [|i] r Hr; simpl in Hr.
    - inversion Hr; subst. unfold req, UserAgent.
      now rewrite Nat.add_0_r.
    - rewrite (Hnth i r Hr), Ha, Hcalls. f_equal. f_equal. lia. }
  unfold count_level in *. rewrite Hconsole in *. simpl List.length.
  split; [lia|]. split; [lia|]. split; [exact Hlog|].
  destruct Hval as [->|(response & result & Hcb & -> & Hpresent & Hfrom)]; [now left|].
  right. exists response, result. split; [exact Hcb|]. split; [reflexivity|].
  split; [exact Hpresent|].
  destruct Hfrom as [Hpromise|(i & r & Hr & Hanswer)].
  - exists 0%nat, req. split; [reflexivity|].
    rewrite Nat.add_0_r. now apply send_resolved.
  - exists (S i), r. split; [exact Hr|].
    rewrite Ht, Hcalls in Hanswer.
    now replace (calls w0 + S i)%nat with (calls w0 + 1 + i)%nat by lia.
Qed.

Lemma coalesce_value result :
  coalesce result VNull = VNull
  \/ (coalesce result VNull = result /\ nullish result = false).
Proof. destruct result; simpl; auto. Qed.

Lemma doing_traced : forall k retry,
  (3 - retry = k)%nat ->
  forall promise w, traced endpoint params callback template retry promise w k.
Proof.
  induction k as [|k IH]; intros retry Hk promise w; unfold traced.
  all: rewrite doing_unfold.
  - assert (Hcap : (retry <? 3)%nat = false) by (apply Nat.ltb_ge; lia).
    rewrite Hcap.
    destruct promise as [response|error]; cbv zeta;
      [destruct (callback response) as [result|error] eqn:Hcb|];
      rewrite ?andb_false_r; cbv iota beta; rewrite ?andb_false_r.
    + exists (coalesce result VNull), w, [].
      split; [reflexivity|]. split; [apply grew_refl|].
      simpl. repeat split; try lia.
      * intros [|i] req H; discriminate.
      * destruct (coalesce_value result) as [->|[-> Hpresent]]; [now left|].
        right. exists response, result. auto.
    + destruct (report_is_one_error endpoint error w) as (t & a & ->).
      exists VNull, (write LError t a w), [].
      split; [reflexivity|]. split; [apply grew_write|].
      rewrite !count_level_write. simpl. repeat split; try lia.
      * intros [|i] req H; discriminate.
      * now left.
    + destruct (report_is_one_error endpoint error w) as (t & a & ->).
      exists VNull, (write LError t a w), [].
      split; [reflexivity|]. split; [apply grew_write|].
      rewrite !count_level_write. simpl. repeat split; try lia.
      * intros [|i] req H; discriminate.
      * now left.
  - assert (Hcap : (retry <? 3)%nat = true) by (apply Nat.ltb_lt; lia).
    rewrite Hcap.
    pose proof (traced_reissue k retry
                  (fun p w0 => IH (retry + 1)%nat ltac:(lia) p w0)) as Hreissue.
    assert (Hcatch : forall error,
              exists v w' more,
                (if Swallow.shouldRetry error && true
                 then Swallow.reissue endpoint params callback retry
                        (console_warn (Swallow.retry_warning endpoint retry) []
                           (Swallow.report endpoint error w))
                 else (Resolved VNull, Swallow.report endpoint error w))
                = (Resolved v, w')
                /\ grew w w' more
                /\ (List.length more <= S k)%nat
                /\ (forall i req, nth_error more i = Some req ->
                                  req = template (agents w (calls w + i)))
                /\ count_level LWarn w'
                   = (count_level LWarn w + List.length more)%nat
                /\ (count_level LError w'
                    <= count_level LError w + S (List.length more))%nat
                /\ count_level LLog w' = count_level LLog w
                /\ (v = VNull
                    \/ exists response result,
                         callback response = Normal result /\ v = result
                         /\ nullish v = false
                         /\ exists i req,
                              nth_error more i = Some req
                              /\ transport w (calls w + i)%nat req
                                 = Answered response)).
    { intros error.
      destruct (report_is_one_error endpoint error w) as (t & a & ->).
      destruct (Swallow.shouldRetry error); simpl andb; cbv iota.
      - set (w0 := console_warn (Swallow.retry_warning endpoint retry) []
                     (write LError t a w)).
        assert (Hw0 : grew w w0 []).
        { apply (grew_nil_trans _ (write LError t a w)); apply grew_write. }
        pose proof (grew_calls _ _ _ Hw0) as Hc0. simpl in Hc0.
        destruct Hw0 as (Ht0 & Ha0 & Hi0).
        destruct (Hreissue w0)
          as (v & w' & more & Hrun & Hgrew & Hlen & Hnth & Hwarn & Herr
              & Hlog & Hval).
        exists v, w', more. split; [exact Hrun|].
        split.
        { apply (grew_nil_trans _ w0); [unfold grew; auto|exact Hgrew]. }
        split; [lia|].
        split.
        { intros i req Hreq. rewrite (Hnth i req Hreq), Ha0, Hc0.
          now rewrite Nat.add_0_r. }
        unfold w0, console_warn in Hwarn, Herr, Hlog.
        rewrite !count_level_write in Hwarn, Herr, Hlog.
        split; [lia|]. split; [lia|]. split; [lia|].
        destruct Hval as [->|(response & result & Hcb & -> & Hpresent & i & req & Hreq & Hans)];
          [now left|].
        right. exists response, result. split; [exact Hcb|].
        split; [reflexivity|]. split; [exact Hpresent|].
        exists i, req. split; [exact Hreq|].
        rewrite Ht0, Hc0, Nat.add_0_r in Hans. exact Hans.
      - exists VNull, (write LError t a w), [].
        split; [reflexivity|]. split; [apply grew_write|].
        rewrite !count_level_write. simpl. repeat split; try lia.
        + intros [|i] req H; discriminate.
        + now left. }
    assert (Hlift : forall error,
              exists v w' more,
                (if Swallow.shouldRetry error && true
                 then Swallow.reissue endpoint params callback retry
                        (console_warn (Swallow.retry_warning endpoint retry) []
                           (Swallow.report endpoint error w))
                 else (Resolved VNull, Swallow.report endpoint error w))
                = (Resolved v, w')
                /\ grew w w' more
                /\ (List.length more <= S k)%nat
                /\ (forall i req, nth_error more i = Some req ->
                                  req = template (agents w (calls w + i)))
                /\ count_level LWarn w'
                   = (count_level LWarn w + List.length more)%nat
                /\ (count_level LError w'
                    <= count_level LError w + S (List.length more))%nat
                /\ count_level LLog w' = count_level LLog w
                /\ (v = VNull
                    \/ exists response result,
                         callback response = Normal result /\ v = result
                         /\ nullish v = false
                         /\ (promise = Resolved response
                             \/ exists i req,
                                  nth_error more i = Some req
                                  /\ transport w (calls w + i)%nat req
                                     = Answered response))).
    { intros error.
      destruct (Hcatch error)
        as (v & w' & more & Hrun & Hgrew & Hlen & Hnth & Hwarn & Herr
            & Hlog & Hval).
      exists v, w', more. repeat (split; [assumption|]).
      destruct Hval as [->|(response & result & Hcb & -> & Hpresent & Hfrom)];
        [now left|].
      right. exists response, result. auto. }
    destruct promise as [response|error]; cbv zeta;
      [destruct (callback response) as [result|error] eqn:Hcb|].
    + destruct (Swallow.isEmpty result) eqn:Hempty; simpl andb; cbv iota.
      * set (w0 := console_warn (Swallow.empty_warning endpoint retry) [] w).
        assert (Hw0 : grew w w0 []) by apply grew_write.
        pose proof (grew_calls _ _ _ Hw0) as Hc0. simpl in Hc0.
        destruct Hw0 as (Ht0 & Ha0 & Hi0).
        destruct (Hreissue w0)
          as (v & w' & more & Hrun & Hgrew & Hlen & Hnth & Hwarn & Herr
              & Hlog & Hval).
        rewrite Hrun.
        exists v, w', more. split; [reflexivity|].
        split.
        { apply (grew_nil_trans _ w0); [unfold grew; auto|exact Hgrew]. }
        split; [lia|].
        split.
        { intros i req Hreq.
          rewrite (Hnth i req Hreq), Ha0, Hc0.
          now rewrite Nat.add_0_r. }
        unfold w0, console_warn in Hwarn, Herr, Hlog.
        rewrite !count_level_write in Hwarn, Herr, Hlog.
        split; [lia|]. split; [lia|]. split; [lia|].
        destruct Hval as [->|(response' & result' & Hcb' & -> & Hpresent & i & req & Hreq & Hans)];
          [now left|].
        right. exists response', result'. split; [exact Hcb'|].
        split; [reflexivity|]. split; [exact Hpresent|].
        right. exists i, req. split; [exact Hreq|].
        rewrite Ht0, Hc0, Nat.add_0_r in Hans. exact Hans.
      * exists (coalesce result VNull), w, [].
        split; [reflexivity|]. split; [apply grew_refl|].
        simpl. repeat split; try lia.
        -- intros [|i] req H; discriminate.
        -- destruct (coalesce_value result) as [->|[-> Hpresent]]; [now left|].
           right. exists response, result. auto.
    + apply Hlift.
    + apply Hlift.
Qed.

End TraceOfDoing.

Lemma same_call_template (template : string -> HttpRequest) :
  (forall ua, same_call (template ua) (template "")) ->
  forall ua ua', same_call (template ua) (template ua').
Proof.
  intros Hsame ua ua'. unfold same_call in *.
  now rewrite (Hsame ua), (Hsame ua').
Qed.

(** The trace of [request(endpoint, retry).with(params).doing(callback)]. *)
Lemma request_traced endpoint retry params callback w :
  Endpoint.known endpoint = true ->
  exists template handle w1 v w2,
    (forall ua, user_agent_of (template ua) = Some ua
                /\ same_call (template ua) (template ""))
    /\ Swallow.request endpoint retry params w = (Normal handle, w1)
    /\ h_doing handle callback w1 = (Resolved v, w2)
    /\ transport w2 = transport w
    /\ (calls w < calls w2 <= calls w + S (3 - retry))%nat
    /\ (forall n req, nth_error (issued w2) n = Some req ->
                      (calls w <= n)%nat -> req = template (agents w n))
    /\ count_level LWarn w2 = (count_level LWarn w + (calls w2 - calls w - 1))%nat
    /\ (count_level LError w2 <= count_level LError w + (calls w2 - calls w))%nat
    /\ count_level LLog w2 = count_level LLog w
    /\ (v = VNull
        \/ exists n req response,
             nth_error (issued w2) n = Some req /\ (calls w <= n)%nat
             /\ transport w n req = Answered response
             /\ callback response = Normal v
             /\ nullish v = false).
Proof.
  intros Hknown.
  destruct (retrieve_template endpoint params Hknown)
    as (template & Hprops & Hretrieve).
  set (req := template (UserAgent w)).
  destruct (doing_traced endpoint params callback template Hretrieve
              (3 - retry) retry eq_refl (fst (send req w)) (snd (send req w)))
    as (v & w2 & more & Hrun & Hgrew & Hlen & Hnth & Hwarn & Herr & Hlog & Hval).
  exists template,
    {| promise := fst (send req w);
       h_doing := fun cb =>
                    Swallow.doing endpoint params cb retry (fst (send req w)) |},
    (snd (send req w)), v, w2.
  pose proof (grew_send req w) as Hsent.
  pose proof (grew_trans _ _ _ _ _ Hsent Hgrew) as Hall.
  pose proof (grew_calls _ _ _ Hall) as Hcalls. simpl in Hcalls.
  pose proof (grew_calls _ _ _ Hsent) as Hcalls1. simpl in Hcalls1.
  pose proof (send_console req w) as Hconsole.
  destruct Hsent as (Ht1 & Ha1 & Hi1). destruct Hall as (Ht & Ha & Hi).
  split; [intros ua; split; apply Hprops|].
  split; [unfold Swallow.request; rewrite Hretrieve; reflexivity|].
  split; [exact Hrun|]. split; [exact Ht|]. split; [lia|].
  assert (Hissued : forall n r, nth_error (issued w2) n = Some r ->
                                (calls w <= n)%nat -> r = template (agents w n)).
  { intros n r Hr Hn. rewrite Hi in Hr.
    rewrite nth_error_app2 in Hr by exact Hn. fold (calls w) in Hr.
    destruct (n - calls w)%nat as [|i] eqn:Hi0; simpl in Hr.
    - inversion Hr; subst. unfold req, UserAgent. f_equal. f_equal. lia.
    - rewrite (Hnth i r Hr), Ha1, Hcalls1. f_equal. f_equal. lia. }
  split; [exact Hissued|].
  unfold count_level in *. rewrite Hconsole in *.
  split; [lia|]. split; [lia|]. split; [exact Hlog|].
  destruct Hval as [->|(response & result & Hcb & -> & Hpresent & Hfrom)]; [now left|].
  right. destruct Hfrom as [Hpromise|(i & r & Hr & Hanswer)].
  - exists (calls w), req, response.
    split; [rewrite Hi, nth_error_app2 by (unfold calls; lia);
            unfold calls; now rewrite Nat.sub_diag|].
    split; [lia|]. split; [now apply send_resolved|]. split; assumption.
  - exists (calls w + 1 + i)%nat, r, response.
    split.
    { rewrite Hi, nth_error_app2 by (unfold calls; lia).
      replace (calls w + 1 + i - List.length (issued w))%nat with (S i)
        by (unfold calls; lia).
      exact Hr. }
    split; [lia|]. split; [|split; assumption].
    rewrite Ht1, Hcalls1 in Hanswer. exact Hanswer.
Qed.

(** X1: what the wrapper resolves to is null or the value the callback
    made of a response that the transport gave to one of the requests
    this call issued; it never produces a value of its own, and never
    resolves to undefined. *)
Theorem swallow_result_comes_from_a_reply endpoint retry params callback w :
  Endpoint.known endpoint = true ->
  exists handle w1 v w2,
    Swallow.request endpoint retry params w = (Normal handle, w1)
    /\ h_doing handle callback w1 = (Resolved v, w2)
    /\ (v = VNull
        \/ exists n req response,
             nth_error (issued w2) n = Some req /\ (calls w <= n)%nat
             /\ transport w n req = Answered response
             /\ callback response = Normal v
             /\ nullish v = false).
Proof.
  intros Hknown.
  destruct (request_traced endpoint retry params callback w Hknown)
    as (template & handle & w1 & v & w2 & _ & Hreq & Hrun & _ & _ & _ & _ & _
        & _ & Hval).
  exists handle, w1, v, w2. auto.
Qed.

(** X2: every request one logical call issues, retries included,
    carries as [User-Agent] the string drawn for that very call, and any
    two of them are the same request but for the value of that header:
    same method, URL, body, header names, other header values, timeout,
    response type and status check. *)
Theorem swallow_retries_repeat_the_request endpoint retry params callback w :
  Endpoint.known endpoint = true ->
  exists handle w1 v w2,
    Swallow.request endpoint retry params w = (Normal handle, w1)
    /\ h_doing handle callback w1 = (Resolved v, w2)
    /\ forall n req,
         nth_error (issued w2) n = Some req -> (calls w <= n)%nat ->
         user_agent_of req = Some (agents w n)
         /\ forall m req',
              nth_error (issued w2) m = Some req' -> (calls w <= m)%nat ->
              same_call req req'.
Proof.
  intros Hknown.
  destruct (request_traced endpoint retry params callback w Hknown)
    as (template & handle & w1 & v & w2 & Hprops & Hreq & Hrun & _ & _
        & Hissued & _).
  exists handle, w1, v, w2. split; [exact Hreq|]. split; [exact Hrun|].
  intros n req Hn Hle. rewrite (Hissued n req Hn Hle).
  split; [apply Hprops|].
  intros m req' Hm Hle'. rewrite (Hissued m req' Hm Hle').
  apply same_call_template. intros ua. apply Hprops.
Qed.

(** X3: the console tells the story of the call: one warning for each
    retry (each HTTP call after the first), at most one error line per
    HTTP call, and nothing at [console.log] level. *)
Theorem swallow_logs_one_warning_per_retry endpoint retry params callback w :
  Endpoint.known endpoint = true ->
  exists handle w1 v w2,
    Swallow.request endpoint retry params w = (Normal handle, w1)
    /\ h_doing handle callback w1 = (Resolved v, w2)
    /\ count_level LWarn w2 = (count_level LWarn w + (calls w2 - calls w - 1))%nat
    /\ (count_level LError w2 <= count_level LError w + (calls w2 - calls w))%nat
    /\ count_level LLog w2 = count_level LLog w.
Proof.
  intros Hknown.
  destruct (request_traced endpoint retry params callback w Hknown)
    as (template & handle & w1 & v & w2 & _ & Hreq & Hrun & _ & _ & _ & Hwarn
        & Herr & Hlog & _).
  exists handle, w1, v, w2. auto.
Qed.

Lemma send_fails_retryably req w reply :
  replies w (calls w) reply -> fails_retryably reply ->
  validateStatus (config req) = None ->
  exists error,
    fst (send req w) = Rejected error /\ Swallow.shouldRetry error = true.
Proof.
  intros Hreply Hfails Hdefault. unfold send, accepts.
  rewrite (Hreply req), Hdefault. destruct reply as [r|sent m]; simpl in *.
  - replace ((200 <=? status r) && (status r <? 300)) with false
      by (symmetry; apply andb_false_iff; right; apply Z.ltb_ge; lia).
    eexists. split; [reflexivity|]. apply Z.leb_le. simpl. exact Hfails.
  - eexists. split; reflexivity.
Qed.

Lemma doing_returns_a_populated_result
  endpoint params callback retry response v w :
  callback response = Normal v ->
  Swallow.isEmpty v = false ->
  Swallow.doing endpoint params callback retry (Resolved response) w
  = (Resolved v, w).
Proof.
  intros Hcb Hfull.
  rewrite doing_unfold, Hcb, Hfull. cbv zeta iota beta. simpl andb. cbv iota.
  now rewrite (isEmpty_false_not_nullish _ Hfull).
Qed.

(** X4: when the transport answers the call with a 2xx response and
    the callback makes a non-empty value of it, that value is the
    result, after this one HTTP call and without a line on the
    console. *)
Theorem swallow_first_answer_is_returned
  endpoint retry params callback w response v :
  Endpoint.known endpoint = true ->
  answers w (calls w) response ->
  callback response = Normal v ->
  Swallow.isEmpty v = false ->
  exists handle w1,
    Swallow.request endpoint retry params w = (Normal handle, w1)
    /\ promise handle = Resolved response
    /\ h_doing handle callback w1 = (Resolved v, w1)
    /\ calls w1 = S (calls w)
    /\ console w1 = console w.
Proof.
  intros Hknown (Hreply & Hok) Hcb Hfull.
  destruct (request_known endpoint retry params w Hknown)
    as (req & Hdefault & ->).
  do 2 eexists. split; [reflexivity|]. cbn [h_doing promise].
  rewrite (send_answers req w response Hreply Hok Hdefault).
  split; [reflexivity|].
  rewrite (doing_returns_a_populated_result _ _ _ _ _ _ _ Hcb Hfull).
  split; [reflexivity|]. split; [|apply send_console].
  destruct (send_after_calls req w) as (_ & _ & Hcalls). lia.
Qed.

(** X5: a call that fails in a way worth retrying (no response, or a
    status of 500 or more) and is answered well the second time costs
    two HTTP calls, one error line and one warning, and resolves to what
    the callback makes of the second response. *)
Theorem swallow_recovers_on_the_second_call
  endpoint retry params callback w first second v :
  Endpoint.known endpoint = true ->
  (retry < 3)%nat ->
  replies w (calls w) first -> fails_retryably first ->
  answers w (S (calls w)) second ->
  callback second = Normal v ->
  Swallow.isEmpty v = false ->
  exists handle w1 w2,
    Swallow.request endpoint retry params w = (Normal handle, w1)
    /\ h_doing handle callback w1 = (Resolved v, w2)
    /\ calls w2 = (calls w + 2)%nat
    /\ count_level LError w2 = S (count_level LError w)
    /\ count_level LWarn w2 = S (count_level LWarn w).
Proof.
  intros Hknown Hcap Hfirst Hfails (Hsecond & Hok) Hcb Hfull.
  destruct (request_known endpoint retry params w Hknown)
    as (req & Hdefault & ->).
  destruct (send_fails_retryably req w first Hfirst Hfails Hdefault)
    as (error & Hsend & Hretry).
  pose proof (send_after_calls req w) as (Ht1 & _ & Hc1).
  pose proof (send_console req w) as Hconsole1.
  destruct (report_is_one_error endpoint error (snd (send req w)))
    as (t & a & Hreport).
  set (w0 := console_warn (Swallow.retry_warning endpoint retry) []
               (Swallow.report endpoint error (snd (send req w)))).
  assert (Hw0 : after_calls 0 (snd (send req w)) w0).
  { change 0%nat with (0 + 0)%nat.
    eapply after_calls_trans; [apply report_after_calls|].
    apply write_after_calls. }
  destruct Hw0 as (Ht0 & _ & Hc0).
  destruct (retrieve_known endpoint params w0 Hknown)
    as (req2 & Hdefault2 & Hretrieve).
  assert (Hreply2 : forall q, transport w0 (calls w0) q = Answered second).
  { intros q. rewrite Ht0, Ht1, Hc0, Hc1.
    replace (calls w + 1 + 0)%nat with (S (calls w)) by lia. apply Hsecond. }
  do 2 eexists. exists (snd (send req2 w0)).
  split; [reflexivity|]. cbn [h_doing promise].
  rewrite Hsend, doing_unfold. cbv zeta iota beta.
  apply Nat.ltb_lt in Hcap. rewrite Hcap, Hretry. simpl andb. cbv iota.
  unfold Swallow.reissue. fold w0. rewrite Hretrieve.
  rewrite (send_answers req2 w0 second Hreply2 Hok Hdefault2).
  rewrite doing_unfold, Hcb, Hfull. cbv zeta iota beta. simpl andb. cbv iota.
  rewrite (isEmpty_false_not_nullish _ Hfull).
  split; [reflexivity|].
  pose proof (send_after_calls req2 w0) as (_ & _ & Hc2).
  pose proof (send_console req2 w0) as Hconsole2.
  split; [lia|].
  unfold count_level in *. rewrite Hconsole2. unfold w0, console_warn.
  rewrite Hreport.
  change (console (write LWarn (Swallow.retry_warning endpoint retry) []
                     (write LError t a (snd (send req w)))))
    with ((console (snd (send req w))
           ++ [{| level := LError; text := t; args := a |}])
          ++ [{| level := LWarn;
                 text := Swallow.retry_warning endpoint retry;
                 args := [] |}])%list.
  rewrite Hconsole1, !filter_app, !length_app. simpl. split; lia.
Qed.

End SwallowTraceFacts.

(** ** The trace of a call through the wrapper that rethrows *)

Section RethrowTraceFacts.

Variable numberOfText : value -> number.

Local Ltac rethrow_known_case w :=
  match goal with
  | |- context [send ?r w] =>
      exists r; split; [reflexivity | destruct (send r w); reflexivity]
  end.

Lemma rethrow_retrieve_known endpoint params w :
  Endpoint.known endpoint = true ->
  exists req,
    validateStatus (config req) = Some (fun status => status <? 500)
    /\ Rethrow.retrieve endpoint params w
       = (Normal (fst (send req w)), snd (send req w)).
Proof.
  unfold Endpoint.known, Rethrow.retrieve, axios_post, axios_get.
  intros Hknown.
  destruct (endpoint =? Endpoint.INFO)%string; [rethrow_known_case w|].
  destruct (endpoint =? Endpoint.TEXT)%string; [rethrow_known_case w|].
  destruct (endpoint =? Endpoint.AUDIO)%string; [|discriminate].
  rethrow_known_case w.
Qed.

(** [doing] of this revision in the source's shape, one level unfolded. *)
Lemma rethrow_doing_unfold endpoint params callback retry promise w :
  Rethrow.doing numberOfText endpoint params callback retry promise w
  = let after_then : settled value :=
      match promise with
      | Rejected error => Rejected error
      | Resolved response =>
          match callback response with
          | Throw error => Rejected error
          | Normal result => Resolved result
          end
      end in
    let after_catch :=
      match after_then with
      | Resolved result => (Resolved result, w)
      | Rejected error =>
          if Rethrow.isRetryableError error && (retry <? 3)%nat
          then Rethrow.reissue numberOfText endpoint params callback retry
                 (console_log
                    ("Retrying " ++ endpoint ++ " request (attempt "
                     ++ index_key (retry + 1) ++ "/3)") []
                    (snd (Rethrow.handleAxiosError error endpoint retry w)))
          else (Rejected (fst (Rethrow.handleAxiosError error endpoint retry w)),
                snd (Rethrow.handleAxiosError error endpoint retry w))
      end in
    match after_catch with
    | (Rejected error, w') => (Rejected error, w')
    | (Resolved result, w') =>
        if Rethrow.isEmpty numberOfText result && (retry <? 3)%nat
        then Rethrow.reissue numberOfText endpoint params callback retry w'
        else (Resolved (coalesce result VNull), w')
    end.
Proof.
  rewrite Rethrow.doing_equation_1. unfold Rethrow.reissue. cbv zeta.
  destruct (lt_dec retry 3) as [Hlt|Hge];
    [apply Nat.ltb_lt in Hlt|apply Nat.ltb_nlt in Hge];
    rewrite ?Hlt, ?Hge;
    (destruct promise as [response|error];
     [destruct (callback response) as [result|error]|]);
    try destruct (Rethrow.handleAxiosError error endpoint retry w) as [h w1];
    try destruct (Rethrow.isRetryableError error);
    cbn [andb fst snd];
    repeat first
      [ reflexivity
      | match goal with
        | |- context [let (_, _) := ?x in _] => destruct x
        | |- context [if ?x then _ else _] => destruct x
        | |- context [match ?x with _ => _ end] => destruct x
        end; cbn [andb fst snd] ].
Qed.

Lemma handleAxiosError_facts error endpoint retry w :
  exists m,
    fst (Rethrow.handleAxiosError error endpoint retry w) = Error m
    /\ after_calls 0 w (snd (Rethrow.handleAxiosError error endpoint retry w))
    /\ count_level LWarn (snd (Rethrow.handleAxiosError error endpoint retry w))
       = count_level LWarn w
    /\ count_level LError (snd (Rethrow.handleAxiosError error endpoint retry w))
       = (count_level LError w + 2)%nat.
Proof.
  unfold Rethrow.handleAxiosError.
  destruct (response_of error) as [r|]; [|destruct (request_of error)];
    cbv zeta iota beta; simpl fst; simpl snd; eexists;
    (split; [reflexivity|]);
    unfold console_error; rewrite !count_level_write;
    (split; [|split; lia]);
    change 0%nat with (0 + 0)%nat;
    (eapply after_calls_trans; apply write_after_calls).
Qed.

Section RethrowBounded.

(** The errors that can reach the catch handler, [Arises], and the
    messages [handleAxiosError] then gives, [Told]. *)
Variable Arises : exn -> Prop.
Variable Told : string -> Prop.
Variable endpoint : string.
Variable callback : Callback.

Hypothesis Hknown : Endpoint.known endpoint = true.
Hypothesis handled_told : forall error retry w,
  Arises error ->
  exists m, fst (Rethrow.handleAxiosError error endpoint retry w) = Error m
            /\ Told m.
Hypothesis callback_arises : forall response error,
  callback response = Throw error -> Arises error.
Hypothesis send_arises : forall req w error,
  validateStatus (config req) = Some (fun status => status <? 500) ->
  fst (send req w) = Rejected error -> Arises error.

(** A call of this revision ends, resolved or rejected; it issues at
    most [2 ^ (k + 1) - 2] further calls with [k] retries left, never
    warns, and rejects only with an error [handleAxiosError] built. *)
Lemma rethrow_doing_bounded : forall k retry,
  (3 - retry = k)%nat ->
  forall params promise w,
    (forall error, promise = Rejected error -> Arises error) ->
    exists r w' j,
      Rethrow.doing numberOfText endpoint params callback retry promise w
      = (r, w')
      /\ after_calls j w w' /\ (j + 2 <= 2 ^ S k)%nat
      /\ count_level LWarn w' = count_level LWarn w
      /\ (forall e, r = Rejected e -> exists m, e = Error m /\ Told m).
Proof.
  induction k as [|k IH];
    intros retry Hk params promise w Hpromise;
    rewrite rethrow_doing_unfold; cbv zeta.
  - assert (Hcap : (retry <? 3)%nat = false) by (apply Nat.ltb_ge; lia).
    rewrite Hcap.
    assert (Hfailed : forall error,
              Arises error ->
              exists r w' j,
                (@Rejected value
                   (fst (Rethrow.handleAxiosError error endpoint retry w)),
                 snd (Rethrow.handleAxiosError error endpoint retry w))
                = (r, w')
                /\ after_calls j w w' /\ (j + 2 <= 2 ^ 1)%nat
                /\ count_level LWarn w' = count_level LWarn w
                /\ (forall e, r = Rejected e ->
                              exists m, e = Error m /\ Told m)).
    { intros error Harises.
      destruct (handleAxiosError_facts error endpoint retry w)
        as (m & Hm & Hafter & Hwarn & _).
      destruct (handled_told error retry w Harises) as (m' & Hm' & Htold).
      rewrite Hm. do 2 eexists. exists 0%nat. split; [reflexivity|].
      split; [exact Hafter|]. split; [simpl; lia|]. split; [exact Hwarn|].
      intros e He. inversion He; subst. exists m'. split; [congruence|exact Htold]. }
    destruct promise as [response|error];
      [destruct (callback response) as [result|error] eqn:Hcb|]; cbv iota beta;
      rewrite andb_false_r; cbv iota beta.
    + exists (Resolved (coalesce result VNull)), w, 0%nat.
      split; [reflexivity|]. split; [apply after_calls_refl|].
      split; [simpl; lia|]. split; [reflexivity|]. discriminate.
    + apply Hfailed. now apply (callback_arises response).
    + apply Hfailed. now apply Hpromise.
  - assert (Hcap : (retry <? 3)%nat = true) by (apply Nat.ltb_lt; lia).
    rewrite Hcap.
    assert (Hpow : (2 ^ S (S k) = 2 * 2 ^ S k)%nat) by apply Nat.pow_succ_r'.
    pose proof (Nat.pow_nonzero 2 (S k) ltac:(lia)) as Hpos.
    assert (Hreissue : forall w0,
              exists r w' j,
                Rethrow.reissue numberOfText endpoint params callback retry w0
                = (r, w')
                /\ after_calls j w0 w' /\ (1 <= j)%nat /\ (j + 1 <= 2 ^ S k)%nat
                /\ count_level LWarn w' = count_level LWarn w0
                /\ (forall e, r = Rejected e ->
                              exists m, e = Error m /\ Told m)).
    { intros w0. unfold Rethrow.reissue.
      destruct (rethrow_retrieve_known endpoint params w0 Hknown)
        as (req & Hvalidate & ->).
      destruct (IH (retry + 1)%nat ltac:(lia) params
                  (fst (send req w0)) (snd (send req w0))
                  (fun error => send_arises req w0 error Hvalidate))
        as (r & w' & j & Hrun & Hafter & Hj & Hwarn & Hplain).
      exists r, w', (1 + j)%nat. split; [exact Hrun|].
      split; [eapply after_calls_trans; [apply send_after_calls|exact Hafter]|].
      split; [lia|]. split; [lia|].
      split; [|exact Hplain].
      unfold count_level in *. now rewrite Hwarn, send_console. }
    assert (Hthen : forall r0 w0 j0,
              after_calls j0 w0 w0 \/ True ->
              after_calls j0 w w0 -> (j0 + 1 <= 2 ^ S k)%nat ->
              count_level LWarn w0 = count_level LWarn w ->
              (forall e, r0 = Rejected e -> exists m, e = Error m /\ Told m) ->
              exists r w' j,
                match r0 with
                | Rejected error => (Rejected error, w0)
                | Resolved result =>
                    if Rethrow.isEmpty numberOfText result && true
                    then Rethrow.reissue numberOfText endpoint params callback
                           retry w0
                    else (Resolved (coalesce result VNull), w0)
                end = (r, w')
                /\ after_calls j w w' /\ (j + 2 <= 2 ^ S (S k))%nat
                /\ count_level LWarn w' = count_level LWarn w
                /\ (forall e, r = Rejected e ->
                              exists m, e = Error m /\ Told m)).
    { intros r0 w0 j0 _ Hafter0 Hj0 Hwarn0 Hplain0.
      destruct r0 as [result|error].
      - destruct (Rethrow.isEmpty numberOfText result); simpl andb; cbv iota.
        + destruct (Hreissue w0) as (r & w' & j & Hrun & Hafter & _ & Hj & Hwarn
                                     & Hplain).
          exists r, w', (j0 + j)%nat. split; [exact Hrun|].
          split; [eapply after_calls_trans; eauto|].
          split; [lia|]. split; [congruence|exact Hplain].
        + do 2 eexists. exists j0. split; [reflexivity|].
          split; [exact Hafter0|]. split; [lia|]. split; [exact Hwarn0|].
          discriminate.
      - do 2 eexists. exists j0. split; [reflexivity|].
        split; [exact Hafter0|]. split; [lia|]. split; [exact Hwarn0|].
        exact Hplain0. }
    assert (Hcatch : forall error,
              Arises error ->
              exists r w' j,
                (let (s, w') :=
                   if Rethrow.isRetryableError error && true
                   then Rethrow.reissue numberOfText endpoint params callback
                          retry
                          (console_log
                             ("Retrying " ++ endpoint ++ " request (attempt "
                              ++ index_key (retry + 1) ++ "/3)") []
                             (snd (Rethrow.handleAxiosError error endpoint
                                     retry w)))
                   else (Rejected
                           (fst (Rethrow.handleAxiosError error endpoint retry w)),
                         snd (Rethrow.handleAxiosError error endpoint retry w))
                 in
                 match s with
                 | Resolved result =>
                     if Rethrow.isEmpty numberOfText result && true
                     then Rethrow.reissue numberOfText endpoint params callback
                            retry w'
                     else (Resolved (coalesce result VNull), w')
                 | Rejected error0 => (Rejected error0, w')
                 end) = (r, w')
                /\ after_calls j w w' /\ (j + 2 <= 2 ^ S (S k))%nat
                /\ count_level LWarn w' = count_level LWarn w
                /\ (forall e, r = Rejected e ->
                              exists m, e = Error m /\ Told m)).
    { intros error Harises.
      destruct (handleAxiosError_facts error endpoint retry w)
        as (m & Hm & Hafter & Hwarn & _).
      destruct (handled_told error retry w Harises) as (m' & Hm' & Htold).
      destruct (Rethrow.isRetryableError error); simpl andb; cbv iota.
      - match goal with |- context [Rethrow.reissue _ _ _ _ _ ?w0] =>
          destruct (Hreissue w0)
            as (r0 & w0' & j0 & Hrun0 & Hafter0 & _ & Hj0 & Hwarn0 & Hplain0);
          rewrite Hrun0
        end.
        destruct (Hthen r0 w0' j0 (or_intror I)) as (r & w' & j & Hrun & Hrest);
          auto.
        + change j0 with (0 + (0 + j0))%nat.
          eapply after_calls_trans; [exact Hafter|].
          eapply after_calls_trans; [apply write_after_calls|exact Hafter0].
        + unfold console_log in Hwarn0. rewrite count_level_write in Hwarn0.
          lia.
        + exists r, w', j. split; [|exact Hrest].
          rewrite <- Hrun. destruct r0; reflexivity.
      - rewrite Hm. do 2 eexists. exists 0%nat. split; [reflexivity|].
        split; [exact Hafter|]. split; [lia|]. split; [exact Hwarn|].
        intros e He. inversion He; subst. exists m'.
        split; [congruence|exact Htold]. }
    destruct promise as [response|error];
      [destruct (callback response) as [result|error] eqn:Hcb|].
    + destruct (Hthen (Resolved result) w 0%nat (or_intror I))
        as (r & w' & j & Hrun & Hrest); auto using after_calls_refl; try lia.
      * discriminate.
      * exists r, w', j. split; [exact Hrun|exact Hrest].
    + apply Hcatch. now apply (callback_arises response).
    + apply Hcatch. now apply Hpromise.
Qed.

End RethrowBounded.

(** X6: a call through the wrapper that rethrows always ends, but the
    two retry branches of one level add up: with [retry] retries made it
    issues at most [2 ^ (4 - retry) - 1] HTTP calls, fifteen for a fresh
    call, and the sample transport makes it issue all fifteen.  It never
    warns, and when it rejects, it rejects with a plain error built by
    [handleAxiosError]. *)
Theorem rethrow_issues_at_most_fifteen_calls
  endpoint retry params callback w :
  Endpoint.known endpoint = true ->
  exists handle w1 result w2,
    Rethrow.request numberOfText endpoint retry params w = (Normal handle, w1)
    /\ h_doing handle callback w1 = (result, w2)
    /\ (calls w < calls w2 <= calls w + (2 ^ S (3 - retry) - 1))%nat
    /\ count_level LWarn w2 = count_level LWarn w
    /\ (forall e, result = Rejected e -> exists m, e = Error m)
    /\ exists worst w0,
         Rethrow.request numberOfText Endpoint.TEXT 0 Samples.text_params
           MoreSamples.worst_case = (Normal worst, w0)
         /\ calls (snd (h_doing worst Samples.data_or_null w0)) = 15%nat.
Proof.
  intros Hknown. unfold Rethrow.request.
  destruct (rethrow_retrieve_known endpoint params w Hknown) as (req & _ & ->).
  destruct (rethrow_doing_bounded (fun _ => True) (fun _ => True)
              endpoint callback Hknown
              (fun error retry0 w0 _ =>
                 match handleAxiosError_facts error endpoint retry0 w0 with
                 | ex_intro _ m (conj Hm _) => ex_intro _ m (conj Hm I)
                 end)
              (fun _ _ _ => I) (fun _ _ _ _ _ => I)
              (3 - retry) retry eq_refl params
              (fst (send req w)) (snd (send req w)) (fun _ _ => I))
    as (r & w2 & j & Hrun & Hafter & Hj & Hwarn & Hplain).
  do 2 eexists. exists r, w2. split; [reflexivity|]. cbn [h_doing promise].
  split; [exact Hrun|].
  pose proof (send_after_calls req w) as (_ & _ & Hc1).
  destruct Hafter as (_ & _ & Hc2).
  split; [lia|].
  split; [unfold count_level in *; now rewrite Hwarn, send_console|].
  split; [intros e He; destruct (Hplain e He) as (m & -> & _); eauto|].
  do 2 eexists. split; [reflexivity|]. vm_compute. reflexivity.
Qed.

Lemma send_accepts_below_500 req w response :
  (forall q, transport w (calls w) q = Answered response) ->
  status response < 500 ->
  validateStatus (config req) = Some (fun status => status <? 500) ->
  fst (send req w) = Resolved response.
Proof.
  intros Hreply Hstatus Hvalidate. unfold send, accepts.
  rewrite Hreply, Hvalidate.
  apply Z.ltb_lt in Hstatus. now rewrite Hstatus.
Qed.

(** X7: the wrapper that rethrows configures axios to accept every
    status below 500, so a 4xx answer (a 404, a 429) does not fail: it
    goes to the callback, and a non-empty value the callback makes of it
    is the result, after this one call and with nothing logged. *)
Theorem rethrow_hands_client_errors_to_the_callback
  endpoint retry params callback w response v :
  Endpoint.known endpoint = true ->
  (forall req, transport w (calls w) req = Answered response) ->
  status response < 500 ->
  callback response = Normal v ->
  Rethrow.isEmpty numberOfText v = false ->
  exists handle w1,
    Rethrow.request numberOfText endpoint retry params w = (Normal handle, w1)
    /\ promise handle = Resolved response
    /\ h_doing handle callback w1 = (Resolved v, w1)
    /\ calls w1 = S (calls w)
    /\ console w1 = console w.
Proof.
  intros Hknown Hreply Hstatus Hcb Hfull. unfold Rethrow.request.
  destruct (rethrow_retrieve_known endpoint params w Hknown)
    as (req & Hvalidate & ->).
  do 2 eexists. split; [reflexivity|]. cbn [h_doing promise].
  rewrite (send_accepts_below_500 req w response Hreply Hstatus Hvalidate).
  split; [reflexivity|].
  rewrite rethrow_doing_unfold, Hcb. cbv zeta iota beta.
  rewrite Hfull. simpl andb. cbv iota.
  assert (Hv : coalesce v VNull = v).
  { destruct v; simpl in *; try reflexivity; discriminate. }
  rewrite Hv. split; [reflexivity|]. split; [|apply send_console].
  destruct (send_after_calls req w) as (_ & _ & Hcalls). lia.
Qed.

Lemma send_rejects_from_500 req w error :
  validateStatus (config req) = Some (fun status => status <? 500) ->
  fst (send req w) = Rejected error ->
  forall r, response_of error = Some r -> 500 <= status r.
Proof.
  unfold send, accepts. intros Hvalidate. rewrite Hvalidate.
  destruct (transport w (calls w) req) as [r0|sent m]; simpl.
  - destruct (status r0 <? 500) eqn:Hstatus; simpl; [discriminate|].
    intros Herror r Hr. inversion Herror; subst. simpl in Hr.
    inversion Hr; subst. apply Z.ltb_ge in Hstatus. exact Hstatus.
  - intros Herror r Hr. inversion Herror; subst. discriminate.
Qed.

Lemma handleAxiosError_from_500 error endpoint retry w :
  (forall r, response_of error = Some r -> 500 <= status r) ->
  exists m,
    fst (Rethrow.handleAxiosError error endpoint retry w) = Error m
    /\ (m = "Server error. Please try again."%string
        \/ m = "No response received from server"%string
        \/ exists detail, m = ("Request setup error: " ++ detail)%string).
Proof.
  intros Hfrom. unfold Rethrow.handleAxiosError.
  destruct (response_of error) as [r|]; [|destruct (request_of error)];
    cbv zeta iota beta; simpl fst.
  - pose proof (Hfrom r eq_refl) as Hstatus.
    replace (status r =? 429) with false by (symmetry; apply Z.eqb_neq; lia).
    replace (status r =? 403) with false by (symmetry; apply Z.eqb_neq; lia).
    replace (status r =? 404) with false by (symmetry; apply Z.eqb_neq; lia).
    replace (500 <=? status r) with true by (symmetry; apply Z.leb_le; lia).
    eexists. split; [reflexivity|]. now left.
  - eexists. split; [reflexivity|]. right. now left.
  - eexists. split; [reflexivity|]. right. right.
    exists (message_of error). reflexivity.
Qed.

(** X20: the wrapper that rethrows accepts every status below 500, so
    an HTTP call of its own fails only without a response or with a
    status of 500 or more, and every such failure is one it retries.
    With a callback that throws no error carrying a response, the
    messages of [handleAxiosError] for 429, 403, 404 and the other
    statuses below 500 are never given: a rejection says that the server
    failed, that no response was received, or that the request could not
    be set up. *)
Theorem rethrow_never_reports_a_client_error
  endpoint retry params callback w :
  Endpoint.known endpoint = true ->
  (forall response error,
      callback response = Throw error -> response_of error = None) ->
  exists handle w1 result w2,
    Rethrow.request numberOfText endpoint retry params w = (Normal handle, w1)
    /\ h_doing handle callback w1 = (result, w2)
    /\ (forall error, promise handle = Rejected error ->
                      Rethrow.isRetryableError error = true)
    /\ (forall e, result = Rejected e ->
          exists m,
            e = Error m
            /\ (m = "Server error. Please try again."%string
                \/ m = "No response received from server"%string
                \/ exists detail,
                     m = ("Request setup error: " ++ detail)%string)).
Proof.
  intros Hknown Hcallback. unfold Rethrow.request.
  destruct (rethrow_retrieve_known endpoint params w Hknown)
    as (req & Hvalidate & ->).
  assert (Hthrows : forall response error,
            callback response = Throw error ->
            forall r, response_of error = Some r -> 500 <= status r).
  { intros response error Hthrown r Hr.
    rewrite (Hcallback response error Hthrown) in Hr. discriminate. }
  destruct (rethrow_doing_bounded
              (fun error => forall r, response_of error = Some r ->
                                      500 <= status r)
              (fun m => m = "Server error. Please try again."%string
                        \/ m = "No response received from server"%string
                        \/ exists detail,
                             m = ("Request setup error: " ++ detail)%string)
              endpoint callback Hknown
              (fun error retry0 w0 =>
                 handleAxiosError_from_500 error endpoint retry0 w0)
              Hthrows
              send_rejects_from_500
              (3 - retry) retry eq_refl params
              (fst (send req w)) (snd (send req w))
              (fun error => send_rejects_from_500 req w error Hvalidate))
    as (r & w2 & j & Hrun & _ & _ & _ & Hplain).
  do 2 eexists. exists r, w2. split; [reflexivity|]. cbn [h_doing promise].
  split; [exact Hrun|]. split; [|exact Hplain].
  intros error Hrejected. unfold Rethrow.isRetryableError.
  pose proof (send_rejects_from_500 req w error Hvalidate Hrejected) as Hfrom.
  destruct (response_of error) as [r0|]; [|reflexivity].
  apply orb_true_iff. left. apply Z.leb_le. now apply Hfrom.
Qed.

End RethrowTraceFacts.

(** ** The normalizer, again *)

Section NormalFormFacts.

Lemma setField_keys key v fields :
  map fst (setField key v fields)
  = if existsb (String.eqb key) (map fst fields) then map fst fields
    else (map fst fields ++ [key])%list.
Proof.
  induction fields as [|[k old] rest IH]; simpl; [reflexivity|].
  destruct (String.eqb_spec key k) as [->|Hne]; simpl; [reflexivity|].
  rewrite IH. destruct (existsb _ _); reflexivity.
Qed.

Lemma setField_NoDup key v fields :
  NoDup (map fst fields) -> NoDup (map fst (setField key v fields)).
Proof.
  intros Hnd. rewrite setField_keys.
  destruct (existsb (String.eqb key) (map fst fields)) eqn:Hin; [exact Hnd|].
  apply NoDup_app; [exact Hnd|repeat constructor; intros []|].
  intros k Hk [Heq|[]]. subst k.
  assert (Hex : existsb (String.eqb key) (map fst fields) = true);
    [|congruence].
  apply existsb_exists. exists key. split; [exact Hk|apply String.eqb_refl].
Qed.

(** The keys of what [Object.fromEntries] builds are distinct. *)
Lemma Object_fromEntries_NoDup entries :
  NoDup (map fst (Object_fromEntries entries)).
Proof.
  unfold Object_fromEntries.
  assert (Hgen : forall acc,
            NoDup (map fst acc) ->
            NoDup (map fst (fold_left (fun o e => setField (fst e) (snd e) o)
                                      entries acc))).
  { induction entries as [|e rest IH]; simpl; intros acc Hacc; [exact Hacc|].
    apply IH. now apply setField_NoDup. }
  apply Hgen. constructor.
Qed.

Lemma map_throwing_fixed {A} (f : A -> completion exn A) items :
  (forall x, In x items -> f x = Normal x) ->
  map_throwing f items = Normal items.
Proof.
  induction items as [|a rest IH]; simpl; intros Hall; [reflexivity|].
  rewrite (Hall a (or_introl eq_refl)), IH by auto. reflexivity.
Qed.

Lemma filter_all {A} (p : A -> bool) items :
  (forall x, In x items -> p x = true) -> filter p items = items.
Proof.
  induction items as [|a rest IH]; simpl; intros Hall; [reflexivity|].
  rewrite (Hall a (or_introl eq_refl)), IH by auto. reflexivity.
Qed.

(** What [undefinedFields] returns is in normal form. *)
Lemma undefinedFields_normalizes obj :
  forall result, Extract.undefinedFields obj = Normal result -> Normalized result.
Proof.
  induction obj as [| | |n|s|items IH|fields IH] using value_nested_ind;
    intros result Hrun; try discriminate.
  - simpl in Hrun. inversion Hrun. constructor; constructor.
  - simpl in Hrun. inversion Hrun. constructor; constructor.
  - simpl in Hrun. inversion Hrun; subst. clear Hrun.
    constructor; [apply Object_fromEntries_NoDup|].
    apply Forall_forall. intros [k v] Hin.
    apply Object_fromEntries_In, string_entries_chars in Hin.
    destruct Hin as (c & ->). simpl. split; [reflexivity|discriminate].
  - rewrite undefinedFields_array in Hrun. unfold bind in Hrun.
    destruct (map_throwing Extract.clean (filter truthy items)) as [kept|]
      eqn:Hkept; [|discriminate].
    inversion Hrun; subst; clear Hrun. constructor.
    apply Forall_forall. intros x Hx.
    destruct (map_throwing_In Extract.clean _ _ _ Hkept Hx) as (y & Hy & Hclean).
    apply filter_In in Hy. destruct Hy as [Hyin Hy].
    split; [eapply clean_truthy; eauto|].
    intros Hobj. unfold Extract.clean in Hclean.
    rewrite Forall_forall in IH.
    destruct (Extract.isObject y) eqn:Hyobj.
    + eapply IH; eauto.
    + inversion Hclean; subst. unfold Extract.isObject in Hyobj. congruence.
  - rewrite undefinedFields_object in Hrun. unfold bind in Hrun.
    destruct (map_throwing Extract.clean_entry _) as [entries|] eqn:Hentries;
      [|discriminate].
    inversion Hrun; subst; clear Hrun.
    constructor; [apply Object_fromEntries_NoDup|].
    apply Forall_forall. intros [k x] Hx. simpl.
    apply Object_fromEntries_In in Hx.
    destruct (map_throwing_In Extract.clean_entry _ _ _ Hentries Hx)
      as ([k' y] & Hy & Hclean).
    apply filter_In in Hy. destruct Hy as [Hyin Hy]. simpl in Hy.
    unfold Extract.clean_entry, bind in Hclean. simpl in Hclean.
    destruct (Extract.clean y) as [x'|] eqn:Hcy; [|discriminate].
    inversion Hclean; subst.
    split; [eapply clean_truthy; eauto|].
    intros Hobj. unfold Extract.clean in Hcy.
    rewrite Forall_forall in IH.
    destruct (Extract.isObject y) eqn:Hyobj.
    + eapply (IH (_, y)); eauto.
    + inversion Hcy; subst. unfold Extract.isObject in Hyobj. congruence.
Qed.

(** On a value in normal form [undefinedFields] changes nothing. *)
Lemma undefinedFields_fixes_normal_forms v :
  Normalized v -> Extract.undefinedFields v = Normal v.
Proof.
  induction v as [| | |n|s|items IH|fields IH] using value_nested_ind;
    intros Hnormal; inversion Hnormal as [? Hitems|? Hnd Hfields]; subst.
  - rewrite undefinedFields_array.
    rewrite Forall_forall in IH, Hitems.
    rewrite filter_all by (intros x Hx; apply (Hitems x Hx)).
    rewrite map_throwing_fixed; [reflexivity|].
    intros x Hx. unfold Extract.clean, Extract.isObject.
    destruct (typeof_object x) eqn:Hobj; [|reflexivity].
    apply IH; [exact Hx|]. now apply (Hitems x Hx).
  - rewrite undefinedFields_object.
    rewrite Forall_forall in IH, Hfields.
    rewrite filter_all by (intros e He; apply (Hfields e He)).
    rewrite map_throwing_fixed.
    + simpl. now rewrite Object_fromEntries_distinct.
    + intros [k x] Hx. unfold Extract.clean_entry, Extract.clean,
        Extract.isObject. simpl.
      destruct (typeof_object x) eqn:Hobj; [|reflexivity].
      pose proof (IH (k, x) Hx) as Hfix. simpl in Hfix.
      rewrite Hfix; [reflexivity|].
      now apply (Hfields (k, x) Hx).
Qed.

(** X13: [undefinedFields] is idempotent: normalizing what it returned
    returns the same value again. *)
Theorem undefinedFields_is_idempotent obj result :
  Extract.undefinedFields obj = Normal result ->
  Extract.undefinedFields result = Normal result.
Proof.
  intros Hrun. apply undefinedFields_fixes_normal_forms.
  now apply (undefinedFields_normalizes obj).
Qed.

End NormalFormFacts.

Lemma undefinedFields_is_idempotent_witness :
  Extract.undefinedFields Samples.nested_normalized
  = Normal Samples.nested_normalized.
Proof.
  apply (undefinedFields_is_idempotent Samples.nested Samples.nested_normalized).
  reflexivity.
Defined.

Section PopulatedFieldsFacts.

Lemma getField_distinct (fields : list (string * value)) key v :
  NoDup (map fst fields) -> In (key, v) fields -> getField key fields = v.
Proof.
  induction fields as [|[k x] rest IH]; [contradiction|].
  simpl. intros Hnd [Hhere|Hin].
  - inversion Hhere; subst. now rewrite String.eqb_refl.
  - inversion Hnd as [|? ? Hnotin Hrest]; subst.
    destruct (String.eqb_spec key k) as [->|_]; [|auto].
    exfalso. apply Hnotin. apply in_map_iff. exists (k, v). auto.
Qed.

(** X14: on an object with distinct keys [undefinedFields] keeps the
    keys of the truthy fields, in the order they had, and a truthy field
    that is not an object or an array keeps its value; on an array it
    keeps as many elements as are truthy. *)
Theorem undefinedFields_keeps_populated_fields_in_order fields result :
  NoDup (map fst fields) ->
  Extract.undefinedFields (VObject fields) = Normal result ->
  map fst (fields_of result)
  = map fst (filter (fun e => truthy (snd e)) fields)
  /\ (forall key v, In (key, v) fields -> truthy v = true ->
                    typeof_object v = false ->
                    getField key (fields_of result) = v)
  /\ (forall items kept,
        Extract.undefinedFields (VArray items) = Normal kept ->
        List.length (items_of kept) = List.length (filter truthy items)).
Proof.
  intros Hnd Hrun.
  destruct (undefinedFields_object_distinct fields result Hnd Hrun)
    as (entries & Hentries & ->).
  pose proof (map_clean_entry_keys _ _ Hentries) as Hkeys.
  cbn [fields_of]. split; [exact Hkeys|]. split.
  - intros key v Hin Htruthy Hprimitive.
    assert (Hkept : In (key, v) (filter (fun e => truthy (snd e)) fields))
      by (apply filter_In; auto).
    destruct (map_throwing_image Extract.clean_entry _ _ _ Hentries Hkept)
      as (e & Hclean & He).
    unfold Extract.clean_entry, Extract.clean, Extract.isObject in Hclean.
    simpl in Hclean. rewrite Hprimitive in Hclean. simpl in Hclean.
    inversion Hclean; subst e.
    apply getField_distinct; [|exact He].
    rewrite Hkeys. now apply NoDup_keys_filter.
  - intros items kept Hitems. rewrite undefinedFields_array in Hitems.
    unfold bind in Hitems.
    destruct (map_throwing Extract.clean (filter truthy items)) as [ys|]
      eqn:Hys; [|discriminate].
    inversion Hitems; subst. simpl.
    clear Hitems. revert ys Hys.
    induction (filter truthy items) as [|a rest IH]; simpl; intros ys Hys.
    + inversion Hys. reflexivity.
    + unfold bind in Hys.
      destruct (Extract.clean a); [|discriminate].
      destruct (map_throwing Extract.clean rest) as [zs|]; [|discriminate].
      inversion Hys; subst. simpl. f_equal. now apply IH.
Qed.

End PopulatedFieldsFacts.

Lemma undefinedFields_keeps_populated_fields_in_order_witness :
  map fst (fields_of Samples.nested_normalized) = ["list"; "word"; "inner"]
  /\ getField "word" (fields_of Samples.nested_normalized) = VString "casa".
Proof.
  assert (Hnd : NoDup (map fst (fields_of Samples.nested))).
  { simpl. repeat constructor; simpl; intuition discriminate. }
  pose proof (undefinedFields_keeps_populated_fields_in_order
                (fields_of Samples.nested) Samples.nested_normalized
                Hnd eq_refl) as [Hkeys [Hvalues _]].
  split; [exact Hkeys|].
  apply Hvalues; [simpl; auto|reflexivity|reflexivity].
Defined.

(** ** The extractor: the other fields *)

Section ExtractionFacts.

Import Extraction.

Lemma nullish_not_truthy v : nullish v = true -> truthy v = false.
Proof. destruct v; simpl; congruence. Qed.

Lemma coalesce_undefined_not_null v : coalesce v VUndefined <> VNull.
Proof. unfold coalesce. destruct v; simpl; discriminate. Qed.

Lemma opt_map_cases {R} (f : value -> completion (thrown R) value) v r :
  opt_map v f = Normal r ->
  r = VUndefined
  \/ exists items ys,
       v = VArray items /\ map_throwing f items = Normal ys /\ r = VArray ys.
Proof.
  destruct v; simpl; intros Hrun; try discriminate;
    try (inversion Hrun; auto; fail).
  unfold bind in Hrun.
  destruct (map_throwing f items) as [ys|] eqn:Hys; [|discriminate].
  inversion Hrun. right. exists items, ys. auto.
Qed.

Lemma opt_flatMap_cases (f : value -> completion exn value) v r :
  opt_flatMap v f = Normal r -> r = VUndefined \/ exists ys, r = VArray ys.
Proof.
  destruct v; simpl; intros Hrun; try discriminate;
    try (inversion Hrun; auto; fail).
  unfold bind in Hrun.
  destruct (flatMap_throwing f items) as [ys|]; [|discriminate].
  inversion Hrun. right. eauto.
Qed.

(** X8: when the payload has nothing in its slot 3, the four list
    extractors return an empty array; and each of them throws when the
    payload itself is null or undefined. *)
Theorem lists_are_empty_without_extra (numberOfText : value -> number) data :
  (nullish data = false -> nullish (at_index data 3) = true ->
   definitions data = Normal (VArray [])
   /\ examples data = Normal (VArray [])
   /\ similar data = Normal (VArray [])
   /\ Extract.translations numberOfText data = Normal (VArray []))
  /\ (nullish data = true ->
      exists m,
        definitions data = Throw (TypeError m)
        /\ examples data = Throw (TypeError m)
        /\ similar data = Throw (TypeError m)
        /\ Extract.translations numberOfText data = Throw (TypeError m)).
Proof.
  split.
  - intros Hdata Hextra.
    unfold definitions, examples, similar, Extract.translations, opt_index.
    rewrite Hdata, Hextra. simpl. auto.
  - intros Hdata.
    unfold definitions, examples, similar, Extract.translations.
    rewrite Hdata. eauto.
Qed.

(** X9: on a payload that can be destructured as an array, [typo] and
    the two pronunciation extractors return, and what they return is
    never null: a null found in the payload comes out as undefined. *)
Theorem scalar_extractors_never_return_null data parts :
  @iterate AxiosResponse data = Normal parts ->
  exists t q p,
    typo data = Normal t /\ pronunciation_query data = Normal q
    /\ pronunciation_translation data = Normal p
    /\ t <> VNull /\ q <> VNull /\ p <> VNull.
Proof.
  intros Hparts.
  unfold typo, pronunciation_query, pronunciation_translation.
  rewrite Hparts. simpl. do 3 eexists.
  repeat split; apply coalesce_undefined_not_null.
Qed.

(** X10: [detected] reads five slots of the payload in a fixed order
    and takes the first that is neither null nor undefined; a code that
    is truthy is mapped to the internal code, and any other outcome,
    a first slot holding the empty string included, is undefined. *)
Theorem detected_takes_the_first_present_slot
  (json : Language.LanguagesData) (js : Language.Runtime) data parts :
  @iterate AxiosResponse data = Normal parts ->
  let source := nth 0 parts VUndefined in
  let target := nth 1 parts VUndefined in
  let extra := nth 3 parts VUndefined in
  detected json js data
  = Normal
      match first_present
              [opt_index source 2; opt_index target 3; nth 2 parts VUndefined;
               opt_index extra 8;
               opt_index (opt_index (opt_index (opt_index extra 5) 0) 0) 3]
      with
      | Some code =>
          if truthy code then Language.mapLingvaCode json js code
          else VUndefined
      | None => VUndefined
      end.
Proof.
  intros Hparts source target extra. unfold detected. rewrite Hparts.
  cbn [bind]. fold source target extra.
  set (a := opt_index source 2). set (b := opt_index target 3).
  set (c := nth 2 parts VUndefined). set (d := opt_index extra 8).
  set (e := opt_index (opt_index (opt_index (opt_index extra 5) 0) 0) 3).
  clearbody a b c d e.
  unfold first_present, coalesce. cbn [find].
  destruct (nullish a) eqn:Ha; cbn [negb];
    [|repeat (rewrite Ha; cbn iota); reflexivity].
  destruct (nullish b) eqn:Hb; cbn [negb];
    [|repeat (rewrite Hb; cbn iota); reflexivity].
  destruct (nullish c) eqn:Hc; cbn [negb];
    [|repeat (rewrite Hc; cbn iota); reflexivity].
  destruct (nullish d) eqn:Hd; cbn [negb];
    [|repeat (rewrite Hd; cbn iota); reflexivity].
  destruct (nullish e) eqn:He; cbn [negb]; [|reflexivity].
  now rewrite (nullish_not_truthy _ He).
Qed.

(** X11: whatever [list.definitions] returns is an array of groups, each
    an object with a type and a list; every entry of a list has the
    four fields definition, example, field and synonyms, in that order;
    and its synonyms are an array, empty when the payload has none,
    that holds truthy values only. *)
Theorem definitions_synonyms_are_truthy data out :
  definitions data = Normal out ->
  exists groups,
    out = VArray groups
    /\ forall group, In group groups ->
       exists type entries,
         group = VObject [("type", type); ("list", VArray entries)]
         /\ forall entry, In entry entries ->
            exists definition example field synonyms,
              entry = VObject [("definition", definition);
                               ("example", example);
                               ("field", field);
                               ("synonyms", VArray synonyms)]
              /\ Forall (fun item => truthy item = true) synonyms.
Proof.
  unfold definitions. destruct (nullish data); [discriminate|].
  unfold bind.
  destruct (opt_map _ definition_group) as [groups|] eqn:Hgroups;
    [|discriminate].
  intros Hout. inversion Hout; subst out; clear Hout.
  apply opt_map_cases in Hgroups.
  destruct Hgroups as [->|(raw & gs & _ & Hgs & ->)].
  { exists []. split; [reflexivity|]. intros group []. }
  exists gs. split; [reflexivity|]. intros group Hgroup.
  destruct (map_throwing_In definition_group _ _ _ Hgs Hgroup)
    as (g & _ & Hg).
  unfold definition_group, bind in Hg.
  destruct (iterate g) as [parts|]; [|discriminate].
  destruct (opt_map (nth 1 parts VUndefined) definition_entry) as [list|]
    eqn:Hlist; [|discriminate].
  inversion Hg; subst group; clear Hg.
  apply opt_map_cases in Hlist.
  destruct Hlist as [->|(defs & es & _ & Hes & ->)].
  { exists (nth 0 parts VUndefined), []. split; [reflexivity|].
    intros entry []. }
  exists (nth 0 parts VUndefined), es. split; [reflexivity|].
  intros entry Hentry.
  destruct (map_throwing_In definition_entry _ _ _ Hes Hentry)
    as (e & _ & He).
  unfold definition_entry in He. destruct (nullish e); [discriminate|].
  unfold bind in He.
  destruct (opt_flatMap (at_index e 5) synonym_items) as [flat|] eqn:Hflat;
    [|discriminate].
  apply opt_flatMap_cases in Hflat. destruct Hflat as [->|(ys & ->)];
    simpl in He; inversion He; subst entry; clear He.
  - do 3 eexists. exists []. split; [reflexivity|constructor].
  - do 3 eexists. exists (filter truthy ys). split; [reflexivity|].
    apply Forall_forall. intros item Hitem.
    apply filter_In in Hitem. tauto.
Qed.

End ExtractionFacts.

Lemma lists_are_empty_without_extra_witness :
  Extraction.definitions MoreSamples.bare_payload = Normal (VArray [])
  /\ Extraction.examples MoreSamples.bare_payload = Normal (VArray [])
  /\ Extraction.similar MoreSamples.bare_payload = Normal (VArray [])
  /\ Extract.translations MoreSamples.no_numbers MoreSamples.bare_payload
     = Normal (VArray []).
Proof.
  apply (proj1 (lists_are_empty_without_extra MoreSamples.no_numbers
                  MoreSamples.bare_payload));
    reflexivity.
Defined.

Lemma scalar_extractors_never_return_null_witness :
  exists t q p,
    Extraction.typo (VArray [VArray [VNull]; VNull]) = Normal t
    /\ Extraction.pronunciation_query (VArray [VArray [VNull]; VNull]) = Normal q
    /\ Extraction.pronunciation_translation (VArray [VArray [VNull]; VNull])
       = Normal p
    /\ t <> VNull /\ q <> VNull /\ p <> VNull.
Proof.
  apply (scalar_extractors_never_return_null
           (VArray [VArray [VNull]; VNull]) [VArray [VNull]; VNull]).
  reflexivity.
Defined.

Lemma detected_takes_the_first_present_slot_witness :
  Extraction.detected MoreSamples.tables MoreSamples.engine
    (VArray [VArray [VNull; VNull; VString "zh-CN"];
             VArray [VNull; VNull; VNull; VString "es"];
             VString "en"])
  = Normal (VString "zh").
Proof.
  apply (detected_takes_the_first_present_slot
           MoreSamples.tables MoreSamples.engine
           (VArray [VArray [VNull; VNull; VString "zh-CN"];
                    VArray [VNull; VNull; VNull; VString "es"];
                    VString "en"])
           [VArray [VNull; VNull; VString "zh-CN"];
            VArray [VNull; VNull; VNull; VString "es"];
            VString "en"]).
  reflexivity.
Defined.

Lemma definitions_synonyms_are_truthy_witness :
  Extraction.definitions MoreSamples.definitions_payload
  = Normal
      (VArray
         [VObject
            [("type", VString "noun");
             ("list",
              VArray
                [VObject [("definition", VString "a building to live in");
                          ("example", VString "my house");
                          ("field", VString "architecture");
                          ("synonyms", VArray [VString "home"])]])]])
  /\ exists groups,
       VArray
         [VObject
            [("type", VString "noun");
             ("list",
              VArray
                [VObject [("definition", VString "a building to live in");
                          ("example", VString "my house");
                          ("field", VString "architecture");
                          ("synonyms", VArray [VString "home"])]])]]
       = VArray groups
       /\ forall group, In group groups ->
          exists type entries,
            group = VObject [("type", type); ("list", VArray entries)]
            /\ forall entry, In entry entries ->
               exists definition example field synonyms,
                 entry = VObject [("definition", definition);
                                  ("example", example);
                                  ("field", field);
                                  ("synonyms", VArray synonyms)]
                 /\ Forall (fun item => truthy item = true) synonyms.
Proof.
  split; [reflexivity|].
  apply (definitions_synonyms_are_truthy MoreSamples.definitions_payload).
  reflexivity.
Defined.

(** ** language.ts *)

Section LanguageFacts.

Import Language.

Variable json : LanguagesData.
Variable js : Runtime.

Lemma hasField_keys key fields :
  hasField key fields = existsb (String.eqb key) (map fst fields).
Proof.
  unfold hasField. induction fields as [|[k v] rest IH]; [reflexivity|].
  simpl. now rewrite IH, String.eqb_sym.
Qed.

Lemma hasField_In key fields :
  hasField key fields = true -> In (key, getField key fields) fields.
Proof.
  unfold hasField. induction fields as [|[k v] rest IH]; [discriminate|].
  simpl. rewrite (String.eqb_sym key k).
  destruct (String.eqb_spec k key) as [->|_]; simpl; auto.
Qed.

Lemma fold_setField_keys key entries : forall acc,
  existsb (String.eqb key)
    (map fst (fold_left (fun o e => setField (fst e) (snd e) o) entries acc))
  = existsb (String.eqb key) (map fst acc)
    || existsb (String.eqb key) (map fst entries).
Proof.
  induction entries as [|[k v] rest IH]; simpl; intros acc.
  - now rewrite orb_false_r.
  - rewrite IH, setField_keys.
    destruct (existsb (String.eqb k) (map fst acc)) eqn:Hk.
    + destruct (String.eqb_spec key k) as [->|_]; simpl; [|reflexivity].
      now rewrite Hk.
    + rewrite existsb_app. simpl. now rewrite orb_false_r, orb_assoc.
Qed.

(** [Object.fromEntries] has the keys of its entries. *)
Lemma hasField_fromEntries key entries :
  hasField key (Object_fromEntries entries) = hasField key entries.
Proof.
  rewrite !hasField_keys. unfold Object_fromEntries.
  now rewrite fold_setField_keys.
Qed.

Lemma hasField_filter key (q : string -> bool) fields :
  hasField key (filter (fun e => q (fst e)) fields)
  = hasField key fields && q key.
Proof.
  unfold hasField. induction fields as [|[k v] rest IH]; [reflexivity|].
  simpl. destruct (q k) eqn:Hq; simpl; rewrite IH;
    destruct (String.eqb_spec k key) as [->|_]; simpl; try reflexivity.
  - now rewrite Hq.
  - now rewrite Hq, andb_false_r.
Qed.

Lemma isKeyOf_filteredLanguages type code :
  isKeyOf js (filteredLanguages json type) code
  = (hasField (ToPropertyKey js code) (languages json)
     && negb (hasField (ToPropertyKey js code) (exceptions json type)))
    || inherited js (ToPropertyKey js code).
Proof.
  unfold isKeyOf, filteredLanguages, Object_keys.
  rewrite hasField_fromEntries.
  rewrite (hasField_filter (ToPropertyKey js code)
             (fun k => negb (existsb (String.eqb k)
                               (map fst (exceptions json type))))).
  cbv beta.
  now rewrite (hasField_keys (ToPropertyKey js code) (exceptions json type)).
Qed.

(** X15: [isValidCode] for a direction accepts just the truthy codes
    that are a key of [languages] and no key of the exceptions of the
    direction, or a name the tables inherit; so a code valid for a
    direction is valid when no direction is given, and null, undefined
    and the empty string are valid nowhere. *)
Theorem isValidCode_for_a_direction code type :
  isValidCode json js code (Some type)
  = truthy code
    && ((hasField (ToPropertyKey js code) (languages json)
         && negb (hasField (ToPropertyKey js code) (exceptions json type)))
        || inherited js (ToPropertyKey js code))
  /\ (isValidCode json js code (Some type) = true ->
      isValidCode json js code None = true)
  /\ (forall langType,
        isValidCode json js VNull langType = false
        /\ isValidCode json js VUndefined langType = false
        /\ isValidCode json js (VString "") langType = false).
Proof.
  split; [|split].
  - unfold isValidCode, languageList.
    now rewrite isKeyOf_filteredLanguages.
  - unfold isValidCode, languageList.
    rewrite isKeyOf_filteredLanguages. unfold isKeyOf.
    destruct (truthy code); simpl; [|discriminate].
    destruct (inherited js (ToPropertyKey js code));
      [now rewrite !orb_true_r|].
    rewrite !orb_false_r. intros Hkey.
    now apply andb_prop in Hkey.
  - intros langType. repeat split.
Qed.

(** X16: a name the tables inherit from the engine is a valid code in
    every direction, although no table lists it; and the three mappers
    return what is inherited under that name, not the code, unless
    their table has the name as a key of its own. *)
Theorem inherited_names_pass_as_codes name :
  inherited js name = true ->
  name <> ""%string ->
  (forall langType, isValidCode json js (VString name) langType = true)
  /\ (forall type,
        hasField name (exceptions json type) = false ->
        replaceExceptedCode json js type (VString name) = member js name)
  /\ (hasField name (request_mappings json) = false ->
      mapGoogleCode json js (VString name) = member js name)
  /\ (hasField name (response_mappings json) = false ->
      mapLingvaCode json js (VString name) = member js name).
Proof.
  intros Hinherited Hname.
  assert (Htruthy : truthy (VString name) = true)
    by (destruct name; [congruence|reflexivity]).
  split; [|split; [|split]].
  - intros langType. unfold isValidCode, isKeyOf. rewrite Htruthy. simpl.
    rewrite Hinherited. now rewrite orb_true_r.
  - intros type Hown. unfold replaceExceptedCode, isKeyOf, get. simpl.
    now rewrite Hown, Hinherited.
  - intros Hown. unfold mapGoogleCode, isKeyOf, get. simpl.
    now rewrite Hown, Hinherited.
  - intros Hown. unfold mapLingvaCode, isKeyOf, get. simpl.
    now rewrite Hown, Hinherited.
Qed.

(** X17: when the codes the exceptions of a direction put in place are
    valid for that direction and are no inherited names,
    [replaceExceptedCode] turns every code that is valid overall, and is
    no inherited name, into a code valid for the direction, and
    replacing a second time changes nothing. *)
Theorem replaceExceptedCode_gives_a_code_of_the_direction type code :
  (forall key v, In (key, v) (exceptions json type) ->
                 isValidCode json js v (Some type) = true
                 /\ inherited js (ToPropertyKey js v) = false) ->
  inherited js (ToPropertyKey js code) = false ->
  isValidCode json js code None = true ->
  isValidCode json js (replaceExceptedCode json js type code) (Some type) = true
  /\ replaceExceptedCode json js type (replaceExceptedCode json js type code)
     = replaceExceptedCode json js type code.
Proof.
  intros Htable Hplain Hvalid.
  assert (Hsettled : forall c,
            isValidCode json js c (Some type) = true ->
            inherited js (ToPropertyKey js c) = false ->
            replaceExceptedCode json js type c = c).
  { intros c Hc Hi. unfold replaceExceptedCode, isKeyOf. rewrite Hi.
    unfold isValidCode, languageList in Hc.
    rewrite isKeyOf_filteredLanguages, Hi in Hc.
    apply andb_prop in Hc. destruct Hc as [_ Hc].
    rewrite orb_false_r in Hc. apply andb_prop in Hc. destruct Hc as [_ Hc].
    apply negb_true_iff in Hc. now rewrite Hc. }
  assert (Hresult :
            isValidCode json js (replaceExceptedCode json js type code)
              (Some type) = true
            /\ inherited js
                 (ToPropertyKey js (replaceExceptedCode json js type code))
               = false).
  { unfold replaceExceptedCode, isKeyOf, get.
    rewrite Hplain, orb_false_r.
    destruct (hasField (ToPropertyKey js code) (exceptions json type))
      eqn:Hown.
    - apply (Htable (ToPropertyKey js code)). now apply hasField_In.
    - split; [|exact Hplain].
      unfold isValidCode, languageList in *.
      rewrite isKeyOf_filteredLanguages. unfold isKeyOf in Hvalid.
      rewrite Hplain, orb_false_r in *.
      apply andb_prop in Hvalid. destruct Hvalid as [Htruthy Hlisted].
      now rewrite Htruthy, Hlisted, Hown. }
  split; [apply Hresult|]. apply Hsettled; apply Hresult.
Qed.

(** X18: when the keys of [languages] are distinct, as in any object,
    the list of a direction is [languages] without the entries whose
    code is a key of the exceptions of the direction: the names and the
    order of the entries that remain are those of the full list. *)
Theorem filteredLanguages_is_a_sublist type :
  NoDup (map fst (languages json)) ->
  languageList json (Some type)
  = filter (fun entry => negb (hasField (fst entry) (exceptions json type)))
           (languages json).
Proof.
  intros Hnd. unfold languageList, filteredLanguages, Object_keys.
  rewrite Object_fromEntries_distinct by now apply NoDup_keys_filter.
  apply filter_ext. intros entry. now rewrite hasField_keys.
Qed.

End LanguageFacts.

Lemma inherited_names_pass_as_codes_witness :
  Language.isValidCode MoreSamples.tables MoreSamples.engine
    (VString "constructor") (Some Language.TARGET) = true
  /\ Language.mapGoogleCode MoreSamples.tables MoreSamples.engine
       (VString "constructor") = VObject [].
Proof.
  assert (Hname : "constructor"%string <> ""%string) by discriminate.
  pose proof (inherited_names_pass_as_codes MoreSamples.tables
                MoreSamples.engine "constructor" eq_refl Hname)
    as [Hvalid [_ [Hgoogle _]]].
  split; [apply Hvalid|apply Hgoogle; reflexivity].
Defined.

Lemma replaceExceptedCode_gives_a_code_of_the_direction_witness :
  Language.isValidCode MoreSamples.tables MoreSamples.engine
    (Language.replaceExceptedCode MoreSamples.tables MoreSamples.engine
       Language.TARGET (VString "auto"))
    (Some Language.TARGET) = true
  /\ Language.replaceExceptedCode MoreSamples.tables MoreSamples.engine
       Language.TARGET
       (Language.replaceExceptedCode MoreSamples.tables MoreSamples.engine
          Language.TARGET (VString "auto"))
     = Language.replaceExceptedCode MoreSamples.tables MoreSamples.engine
         Language.TARGET (VString "auto").
Proof.
  apply (replaceExceptedCode_gives_a_code_of_the_direction
           MoreSamples.tables MoreSamples.engine Language.TARGET
           (VString "auto")).
  - intros key v [Hin|[]]. inversion Hin; subst. split; reflexivity.
  - reflexivity.
  - reflexivity.
Defined.

Lemma filteredLanguages_is_a_sublist_witness :
  Language.languageList MoreSamples.tables (Some Language.SOURCE)
  = [("auto", VString "Detect"); ("en", VString "English");
     ("es", VString "Spanish"); ("zh", VString "Chinese")].
Proof.
  rewrite (filteredLanguages_is_a_sublist MoreSamples.tables Language.SOURCE).
  - reflexivity.
  - simpl. repeat constructor; simpl; intuition discriminate.
Defined.

(** ** text.ts over the wrapper that resolves to null *)

Section TextTraceFacts.

Variable requestMappings : list (string * string).
Variable cheerio_text : value -> string -> string.
Variable trim : string -> string.

Lemma pick_translation_present response v :
  Text.pick_translation cheerio_text trim response = Normal v ->
  nullish v = false ->
  truthy (data response) = true
  /\ v = VString (trim (cheerio_text (data response) ".result-container"))
  /\ trim (cheerio_text (data response) ".result-container") <> ""%string
  /\ includes "#af-error-page"
       (trim (cheerio_text (data response) ".result-container")) = false.
Proof.
  unfold Text.pick_translation.
  destruct (truthy (data response)); simpl;
    [|intros Hv; inversion Hv; subst; discriminate].
  set (t := trim (cheerio_text (data response) ".result-container")).
  destruct (String.eqb_spec t "") as [Hempty|Hfull]; simpl;
    [intros Hv; inversion Hv; subst; discriminate|].
  destruct (includes "#af-error-page" t); simpl;
    intros Hv; inversion Hv; subst; [discriminate|auto].
Qed.

Lemma getTranslationText_code_units
  (request : string -> nat -> Params -> World -> completion exn Handle * World)
  source target query w :
  Unicode.getTranslationText requestMappings cheerio_text trim request
    source target (Unicode.code_units query) w
  = Text.getTranslationText requestMappings cheerio_text trim request
      source target query w.
Proof.
  unfold Unicode.getTranslationText, Text.getTranslationText.
  now rewrite encodeURIComponent_code_units.
Qed.

(** X12: over the wrapper that resolves to null, [getTranslationText]
    rejects exactly when the query is not well formed, that is, holds
    a surrogate without its partner: then [encodeURIComponent] throws,
    and the promise rejects with its URIError before any call.  On every
    other query it resolves, having issued at most four HTTP calls, to
    null or to a string that is not empty, does not hold
    [#af-error-page], and is the trimmed text of the result container of
    a page the transport gave to one of those calls.  On a query of code
    units below 256 it is the function of the model of such strings. *)
Theorem getTranslationText_rejects_exactly_the_malformed_queries
  source target (query : list N) w :
  (if Unicode.isWellFormed query then
     exists v w',
       Unicode.getTranslationText requestMappings cheerio_text trim
         Swallow.request source target query w = (Resolved v, w')
       /\ (calls w <= calls w' <= calls w + 4)%nat
       /\ (v = VNull
           \/ exists n req response,
                (calls w <= n < calls w')%nat
                /\ transport w n req = Answered response
                /\ v = VString (trim (cheerio_text (data response)
                                        ".result-container"))
                /\ v <> VString ""
                /\ includes "#af-error-page"
                     (trim (cheerio_text (data response) ".result-container"))
                   = false)
   else
     Unicode.getTranslationText requestMappings cheerio_text trim
       Swallow.request source target query w
     = (Rejected (URIError "URI malformed"), w))
  /\ (forall latin : string,
        Unicode.isWellFormed (Unicode.code_units latin) = true
        /\ Unicode.getTranslationText requestMappings cheerio_text trim
             Swallow.request source target (Unicode.code_units latin) w
           = Text.getTranslationText requestMappings cheerio_text trim
               Swallow.request source target latin w).
Proof.
  split.
  2:{ intros latin. split; [|apply getTranslationText_code_units].
      pose proof (encodeURIComponent_isWellFormed
                    (List.length (Unicode.code_units latin))
                    (Unicode.code_units latin) (le_n _)) as H.
      now rewrite encodeURIComponent_code_units in H. }
  unfold Unicode.getTranslationText.
  destruct (Unicode.isWellFormed query) eqn:Hwell;
    [|now rewrite (encodeURIComponent_malformed query Hwell)].
  destruct (encodeURIComponent_well_formed query Hwell) as (escaped & ->).
  destruct (7500 <? Z.of_nat (String.length escaped)).
  { exists VNull, w. split; [reflexivity|]. split; [lia|now left]. }
  set (params := TextParams (Text.mapGoogleCode requestMappings source)
                            (Text.mapGoogleCode requestMappings target)
                            escaped).
  destruct (request_traced Endpoint.TEXT 0 params
              (Text.pick_translation cheerio_text trim) w eq_refl)
    as (template & handle & w1 & v & w2 & _ & Hreq & Hrun & _ & Hcalls & _ & _
        & _ & _ & Hval).
  rewrite Hreq. exists v, w2. split; [exact Hrun|].
  split; [simpl in Hcalls; lia|].
  destruct Hval as [->|(n & req & response & Hn & Hle & Hanswer & Hcb & Hpresent)];
    [now left|].
  right. exists n, req, response.
  destruct (pick_translation_present response v Hcb Hpresent)
    as (_ & -> & Hfull & Hclean).
  split.
  { split; [exact Hle|]. apply nth_error_Some. unfold calls. congruence. }
  split; [exact Hanswer|]. split; [reflexivity|].
  split; [congruence|exact Hclean].
Qed.

(** X19: when the escaped query has at most 7500 characters and the
    transport answers the call with a 2xx page whose result container
    holds, trimmed, a text that is not empty and does not hold
    [#af-error-page], [getTranslationText] resolves to that text after
    this one HTTP call, with nothing written on the console. *)
Theorem getTranslationText_returns_the_trimmed_text
  source target query w response :
  Z.of_nat (String.length (encodeURIComponent query)) <= 7500 ->
  answers w (calls w) response ->
  truthy (data response) = true ->
  trim (cheerio_text (data response) ".result-container") <> ""%string ->
  includes "#af-error-page"
    (trim (cheerio_text (data response) ".result-container")) = false ->
  exists w1,
    Text.getTranslationText requestMappings cheerio_text trim Swallow.request
      source target query w
    = (Resolved (VString (trim (cheerio_text (data response)
                                  ".result-container"))), w1)
    /\ calls w1 = S (calls w)
    /\ console w1 = console w.
Proof.
  intros Hshort Hanswers Hdata Hfull Hclean.
  unfold Text.getTranslationText.
  apply Z.ltb_ge in Hshort. rewrite Hshort.
  set (t := trim (cheerio_text (data response) ".result-container")) in *.
  assert (Hcb : Text.pick_translation cheerio_text trim response
                = Normal (VString t)).
  { unfold Text.pick_translation. rewrite Hdata. simpl. fold t.
    rewrite Hclean. apply String.eqb_neq in Hfull. now rewrite Hfull. }
  assert (Hvalue : Swallow.isEmpty (VString t) = false).
  { unfold Swallow.isEmpty. simpl. destruct t; [congruence|reflexivity]. }
  destruct Hanswers as (Hreply & Hok).
  destruct (request_known Endpoint.TEXT 0
              (TextParams (Text.mapGoogleCode requestMappings source)
                          (Text.mapGoogleCode requestMappings target)
                          (encodeURIComponent query))
              w eq_refl) as (req & Hdefault & ->).
  cbn [h_doing promise].
  rewrite (send_answers req w response Hreply Hok Hdefault).
  rewrite (doing_returns_a_populated_result _ _ _ _ _ _ _ Hcb Hvalue).
  exists (snd (send req w)). split; [reflexivity|].
  split; [|apply send_console].
  destruct (send_after_calls req w) as (_ & _ & Hcalls). lia.
Qed.

End TextTraceFacts.

(** ** The properties above on the sample inputs *)

Lemma swallow_result_comes_from_a_reply_witness :
  exists handle w1 v w2,
    Swallow.request Endpoint.TEXT 0 Samples.text_params
      (Samples.mocked [Samples.server_error] (Samples.ok (VString "bonjour")))
    = (Normal handle, w1)
    /\ h_doing handle Samples.data_or_null w1 = (Resolved v, w2)
    /\ (v = VNull
        \/ exists n req response,
             nth_error (issued w2) n = Some req
             /\ (calls (Samples.mocked [Samples.server_error]
                          (Samples.ok (VString "bonjour"))) <= n)%nat
             /\ transport (Samples.mocked [Samples.server_error]
                             (Samples.ok (VString "bonjour"))) n req
                = Answered response
             /\ Samples.data_or_null response = Normal v
             /\ nullish v = false).
Proof.
  apply (swallow_result_comes_from_a_reply Endpoint.TEXT 0 Samples.text_params
           Samples.data_or_null
           (Samples.mocked [Samples.server_error]
              (Samples.ok (VString "bonjour")))).
  reflexivity.
Defined.

Lemma swallow_retries_repeat_the_request_witness :
  exists handle w1 v w2,
    Swallow.request Endpoint.TEXT 0 Samples.text_params
      (Samples.mocked [Samples.server_error] (Samples.ok (VString "bonjour")))
    = (Normal handle, w1)
    /\ h_doing handle Samples.data_or_null w1 = (Resolved v, w2)
    /\ forall n req,
         nth_error (issued w2) n = Some req ->
         (calls (Samples.mocked [Samples.server_error]
                   (Samples.ok (VString "bonjour"))) <= n)%nat ->
         user_agent_of req
         = Some (agents (Samples.mocked [Samples.server_error]
                           (Samples.ok (VString "bonjour"))) n)
         /\ forall m req',
              nth_error (issued w2) m = Some req' ->
              (calls (Samples.mocked [Samples.server_error]
                        (Samples.ok (VString "bonjour"))) <= m)%nat ->
              same_call req req'.
Proof.
  apply (swallow_retries_repeat_the_request Endpoint.TEXT 0 Samples.text_params
           Samples.data_or_null
           (Samples.mocked [Samples.server_error]
              (Samples.ok (VString "bonjour")))).
  reflexivity.
Defined.

Lemma swallow_logs_one_warning_per_retry_witness :
  exists handle w1 v w2,
    Swallow.request Endpoint.TEXT 0 Samples.text_params
      (Samples.mocked [Samples.server_error] (Samples.ok (VString "bonjour")))
    = (Normal handle, w1)
    /\ h_doing handle Samples.data_or_null w1 = (Resolved v, w2)
    /\ count_level LWarn w2
       = (count_level LWarn (Samples.mocked [Samples.server_error]
                               (Samples.ok (VString "bonjour")))
          + (calls w2
             - calls (Samples.mocked [Samples.server_error]
                        (Samples.ok (VString "bonjour"))) - 1))%nat
    /\ (count_level LError w2
        <= count_level LError (Samples.mocked [Samples.server_error]
                                 (Samples.ok (VString "bonjour")))
           + (calls w2
              - calls (Samples.mocked [Samples.server_error]
                         (Samples.ok (VString "bonjour")))))%nat
    /\ count_level LLog w2
       = count_level LLog (Samples.mocked [Samples.server_error]
                             (Samples.ok (VString "bonjour"))).
Proof.
  apply (swallow_logs_one_warning_per_retry Endpoint.TEXT 0 Samples.text_params
           Samples.data_or_null
           (Samples.mocked [Samples.server_error]
              (Samples.ok (VString "bonjour")))).
  reflexivity.
Defined.

Lemma swallow_first_answer_is_returned_witness :
  exists handle w1,
    Swallow.request Endpoint.TEXT 0 Samples.text_params
      (Samples.mocked [] (Samples.ok (VString "bonjour")))
    = (Normal handle, w1)
    /\ promise handle = Resolved (MoreSamples.ok_response (VString "bonjour"))
    /\ h_doing handle Samples.data_or_null w1
       = (Resolved (VString "bonjour"), w1)
    /\ calls w1 = 1%nat
    /\ console w1 = [].
Proof.
  apply (swallow_first_answer_is_returned Endpoint.TEXT 0 Samples.text_params
           Samples.data_or_null
           (Samples.mocked [] (Samples.ok (VString "bonjour")))
           (MoreSamples.ok_response (VString "bonjour")) (VString "bonjour")).
  - reflexivity.
  - split; [intros req; reflexivity|simpl; lia].
  - reflexivity.
  - reflexivity.
Defined.

Lemma swallow_recovers_on_the_second_call_witness :
  exists handle w1 w2,
    Swallow.request Endpoint.TEXT 0 Samples.text_params
      (Samples.mocked [Samples.server_error] (Samples.ok (VString "bonjour")))
    = (Normal handle, w1)
    /\ h_doing handle Samples.data_or_null w1
       = (Resolved (VString "bonjour"), w2)
    /\ calls w2 = 2%nat
    /\ count_level LError w2 = 1%nat
    /\ count_level LWarn w2 = 1%nat.
Proof.
  apply (swallow_recovers_on_the_second_call Endpoint.TEXT 0
           Samples.text_params Samples.data_or_null
           (Samples.mocked [Samples.server_error]
              (Samples.ok (VString "bonjour")))
           Samples.server_error
           (MoreSamples.ok_response (VString "bonjour")) (VString "bonjour")).
  - reflexivity.
  - lia.
  - intros req. reflexivity.
  - simpl. lia.
  - split; [intros req; reflexivity|simpl; lia].
  - reflexivity.
  - reflexivity.
Defined.

Lemma rethrow_issues_at_most_fifteen_calls_witness :
  exists handle w1 result w2,
    Rethrow.request MoreSamples.no_numbers Endpoint.TEXT 0 Samples.text_params
      MoreSamples.worst_case = (Normal handle, w1)
    /\ h_doing handle Samples.data_or_null w1 = (result, w2)
    /\ (calls MoreSamples.worst_case < calls w2
        <= calls MoreSamples.worst_case + (2 ^ S (3 - 0) - 1))%nat
    /\ count_level LWarn w2 = count_level LWarn MoreSamples.worst_case
    /\ (forall e, result = Rejected e -> exists m, e = Error m)
    /\ exists worst w0,
         Rethrow.request MoreSamples.no_numbers Endpoint.TEXT 0
           Samples.text_params MoreSamples.worst_case = (Normal worst, w0)
         /\ calls (snd (h_doing worst Samples.data_or_null w0)) = 15%nat.
Proof.
  apply (rethrow_issues_at_most_fifteen_calls MoreSamples.no_numbers
           Endpoint.TEXT 0 Samples.text_params Samples.data_or_null
           MoreSamples.worst_case).
  reflexivity.
Defined.

Lemma rethrow_hands_client_errors_to_the_callback_witness :
  exists handle w1,
    Rethrow.request MoreSamples.no_numbers Endpoint.TEXT 0 Samples.text_params
      (Samples.mocked [] Samples.not_found) = (Normal handle, w1)
    /\ promise handle = Resolved MoreSamples.not_found_response
    /\ h_doing handle Samples.success_or_failure w1
       = (Resolved (VString "failure"), w1)
    /\ calls w1 = 1%nat
    /\ console w1 = [].
Proof.
  apply (rethrow_hands_client_errors_to_the_callback MoreSamples.no_numbers
           Endpoint.TEXT 0 Samples.text_params Samples.success_or_failure
           (Samples.mocked [] Samples.not_found)
           MoreSamples.not_found_response (VString "failure")).
  - reflexivity.
  - intros req. reflexivity.
  - simpl. lia.
  - reflexivity.
  - reflexivity.
Defined.

Lemma isValidCode_for_a_direction_witness :
  Language.isValidCode MoreSamples.tables MoreSamples.engine (VString "en") None
  = true.
Proof.
  apply (proj1 (proj2 (isValidCode_for_a_direction MoreSamples.tables
                         MoreSamples.engine (VString "en") Language.SOURCE))).
  reflexivity.
Defined.

Lemma getTranslationText_returns_the_trimmed_text_witness :
  exists w1,
    Text.getTranslationText Samples.mappings Samples.body_text Samples.no_trim
      Swallow.request "en" "fr" "test"
      (Samples.mocked [] (Samples.ok (VString "bonjour")))
    = (Resolved (VString "bonjour"), w1)
    /\ calls w1 = 1%nat
    /\ console w1 = [].
Proof.
  apply (getTranslationText_returns_the_trimmed_text
           Samples.mappings Samples.body_text Samples.no_trim
           "en" "fr" "test"
           (Samples.mocked [] (Samples.ok (VString "bonjour")))
           (MoreSamples.ok_response (VString "bonjour"))).
  - simpl. lia.
  - split; [intros req; reflexivity|simpl; lia].
  - reflexivity.
  - discriminate.
  - reflexivity.
Defined.

Lemma rethrow_never_reports_a_client_error_witness :
  exists handle w1 result w2,
    Rethrow.request MoreSamples.no_numbers Endpoint.TEXT 0 Samples.text_params
      (Samples.mocked [] Samples.server_error) = (Normal handle, w1)
    /\ h_doing handle Samples.data_or_null w1 = (result, w2)
    /\ (forall error, promise handle = Rejected error ->
                      Rethrow.isRetryableError error = true)
    /\ (forall e, result = Rejected e ->
          exists m,
            e = Error m
            /\ (m = "Server error. Please try again."%string
                \/ m = "No response received from server"%string
                \/ exists detail,
                     m = ("Request setup error: " ++ detail)%string)).
Proof.
  apply (rethrow_never_reports_a_client_error MoreSamples.no_numbers
           Endpoint.TEXT 0 Samples.text_params Samples.data_or_null
           (Samples.mocked [] Samples.server_error)).
  - reflexivity.
  - intros response error Hthrown. discriminate.
Defined.

Lemma getTranslationText_rejects_exactly_the_malformed_queries_witness :
  Unicode.getTranslationText Samples.mappings Samples.body_text Samples.no_trim
    Swallow.request "en" "fr" [104%N; 105%N; 55357%N]
    (Samples.mocked [] (Samples.ok (VString "bonjour")))
  = (Rejected (URIError "URI malformed"),
     Samples.mocked [] (Samples.ok (VString "bonjour"))).
Proof.
  exact (proj1 (getTranslationText_rejects_exactly_the_malformed_queries
                  Samples.mappings Samples.body_text Samples.no_trim
                  "en" "fr" [104%N; 105%N; 55357%N]
                  (Samples.mocked [] (Samples.ok (VString "bonjour"))))).
Defined.
